(** * AutomatedEDA: the preprocessing pipeline, the charts and the dialogue
    of [task.py], embedded in Rocq.

    [task.py] is written against pandas.  The first part of this file gives
    the pandas operations that [preprocess_data] calls ([select_dtypes],
    [__getitem__], [__setitem__], [mean], [std], [mode], [fillna],
    [get_dummies], [str.replace]) as functions on an explicit data-frame
    type; the second part transcribes the functions of [task.py]
    statement by statement: [preprocess_data] and the chart functions,
    then [read_data_from_db], [load_data] and the dialogue of [main] as
    programs that read lines of input, have effects and raise exceptions
    ([io]); the third part names what the properties speak of; the fourth
    and the fifth part prove them.

    Numbers.  An [int64] cell is an integer; a [float64] cell is an IEEE
    754 binary64 number, Rocq's primitive [float]: rounding, the
    infinities, the signed zeros and [NaN] are those of the machine.  The
    one thing taken from outside is the order in which numpy adds up the
    cells of a column ([sum], a parameter of the statistics): it depends
    on the length and the layout of the array.  For the worked tables the
    cells are added from left to right ([sequential]), which is numpy's
    order on fewer than eight cells.

    Labels.  pandas lets a frame carry a label twice, and [getitem]
    returns every column under a label.  [preprocess_data] is followed on
    tables whose labels are unique; what it does when one of its own
    indicator columns takes the label of a numerical column is part of
    the model ([setitem] assigns frame-wise or raises as pandas does), and
    the properties that need it say that it does not happen
    ([no_clash]). *)

From Stdlib Require Import Floats.
From Stdlib Require Import String Ascii List Bool Arith ZArith Lia.
From Stdlib Require Import Permutation DecimalString.
Import ListNotations.

Set Implicit Arguments.
Set Warnings "-inexact-float".

(* ================================================================== *)
(** * Part 1: data frames                                              *)
(* ================================================================== *)

(** The storage types that [preprocess_data] tells apart:
    [select_dtypes(include="object")], [select_dtypes(include=["int",
    "float"])], and whatever is left ([bool_], the dtype of the indicator
    columns that [get_dummies] produces and of a true/false column). *)
Inductive dtype : Type := object | int64 | float64 | bool_.

Definition dtype_eqb (a b : dtype) : bool :=
  match a, b with
  | object, object | int64, int64 | float64, float64 | bool_, bool_ => true
  | _, _ => false
  end.

(** A column's cells, by storage type.  In an object column a missing cell
    ([None]/[NaN]) is [None]; in a float column it is [NaN]; an int or a
    bool column cannot hold one. *)
Inductive Series : Type :=
| ObjectS (vals : list (option string))
| IntS (vals : list Z)
| FloatS (vals : list float)
| BoolS (vals : list bool).

Record Column : Type := mkColumn { name : string; values : Series }.

(** A frame is its columns, left to right. *)
Definition DataFrame : Type := list Column.

(** A pandas [Index] of column labels. *)
Definition Index : Type := list string.

Definition dtype_of (s : Series) : dtype :=
  match s with
  | ObjectS _ => object
  | IntS _ => int64
  | FloatS _ => float64
  | BoolS _ => bool_
  end.

Definition size (s : Series) : nat :=
  match s with
  | ObjectS l => length l
  | IntS l => length l
  | FloatS l => length l
  | BoolS l => length l
  end.

Definition columns (df : DataFrame) : Index := map name df.

(** Exceptions.  [IndexError] and [KeyError] are Python's.
    [LengthMismatch] is the [ValueError] of an item assignment ("Columns
    must be same length as key"), [NoDtype] the [AttributeError] of
    [.dtype] on a frame ("'DataFrame' object has no attribute 'dtype'"),
    [NoWedge] the [ValueError] of [plt.pie].  The other constructors are
    the conditions of the interface description; they carry the offending
    column.  No statement of [task.py] raises them. *)
Inductive condition : Type :=
| IndexError
| KeyError (label : string)
| LengthMismatch
| NoDtype
| NoWedge
| DegenerateColumn (label : string)
| NameCollision (label : string)
| ZeroVariance (label : string)
| UnknownColumn (label : string)
| UnsupportedVisualization (label : string).

Inductive result (A : Type) : Type :=
| Ok (a : A)
| Raise (e : condition).

Arguments Ok {A} a.
Arguments Raise {A} e.

(* ------------------------------------------------------------------ *)
(** ** Selection and assignment by label                               *)
(* ------------------------------------------------------------------ *)

(** [df.select_dtypes(include=...)]. *)
Definition select_dtypes (include : list dtype) (df : DataFrame) : DataFrame :=
  filter (fun c => existsb (dtype_eqb (dtype_of (values c))) include) df.

(** [df[key]] for a list of labels: for each label, in the order of the
    key, every column that carries it. *)
Definition getitem (df : DataFrame) (key : Index) : DataFrame :=
  flat_map (fun k => filter (fun c => String.eqb (name c) k) df) key.

(** How often a label occurs, and [Index.is_unique]. *)
Definition occurrences (k : string) (labels : Index) : nat :=
  length (filter (String.eqb k) labels).

Fixpoint is_unique (labels : Index) : bool :=
  match labels with
  | [] => true
  | k :: rest => negb (existsb (String.eqb k) rest) && is_unique rest
  end.

(** [df[k] = v] for one label and a Series: every column labelled [k]
    gets the new cells; a label the frame does not have is appended. *)
Definition set_column (df : DataFrame) (k : string) (v : Series) : DataFrame :=
  if existsb (fun c => String.eqb (name c) k) df
  then map (fun c => if String.eqb (name c) k then mkColumn k v else c) df
  else df ++ [mkColumn k v].

(** The columns labelled [k] take the cells of the columns of [v], one
    for one, from left to right. *)
Fixpoint overlay (df : DataFrame) (k : string) (v : DataFrame) : DataFrame :=
  match df with
  | [] => []
  | c :: rest =>
      if String.eqb (name c) k then
        match v with
        | d :: v' => mkColumn k (values d) :: overlay rest k v'
        | [] => c :: rest
        end
      else c :: overlay rest k v
  end.

(** [df[k] = v] for one label and a frame ([_set_item_frame_value]): the
    frame must have as many columns as [df] has under [k]; if it does not,
    [ValueError] is raised. *)
Definition set_frame (df : DataFrame) (k : string) (v : DataFrame)
  : result DataFrame :=
  if occurrences k (columns df) =? 0 then
    match v with
    | [d] => Ok (df ++ [mkColumn k (values d)])
    | _ => Raise LengthMismatch
    end
  else if occurrences k (columns df) =? length v then Ok (overlay df k v)
  else Raise LengthMismatch.

(** [df[k1] = value[k2]]: [value[k2]] is a Series when [value] has the
    label once and a frame when it has it more often. *)
Definition set_item (df : DataFrame) (k1 : string) (value : DataFrame)
    (k2 : string) : result DataFrame :=
  match getitem value [k2] with
  | [c] => Ok (set_column df k1 (values c))
  | v => set_frame df k1 v
  end.

(** [check_key_length(df.columns, key, value)]: when the labels of [df]
    are unique, [value] must have as many columns as the key has labels;
    when they are not, as many as the key selects in [df], a label that
    [df] does not have counting once. *)
Definition check_key_length (cols key : Index) (value : DataFrame) : bool :=
  if is_unique cols then length value =? length key
  else list_sum (map (fun k => Nat.max 1 (occurrences k cols)) key)
       =? length value.

(** [for k1, k2 in zip(key, value.columns): df[k1] = value[k2]].  An
    assignment that raises leaves the earlier ones done. *)
Fixpoint assign (df : DataFrame) (pairs : list (string * string))
    (value : DataFrame) : DataFrame * option condition :=
  match pairs with
  | [] => (df, None)
  | (k1, k2) :: rest =>
      match set_item df k1 value k2 with
      | Ok df' => assign df' rest value
      | Raise e => (df, Some e)
      end
  end.

(** [df[key] = value] for a list of labels and a frame
    ([_setitem_array]): the frame as the statement leaves it, and the
    exception if it raises. *)
Definition setitem (df : DataFrame) (key : Index) (value : DataFrame)
  : DataFrame * option condition :=
  if check_key_length (columns df) key value
  then assign df (combine key (columns value)) value
  else (df, Some LengthMismatch).

(** [df.drop(labels, axis=1)]. *)
Definition drop (df : DataFrame) (labels : Index) : DataFrame :=
  filter (fun c => negb (existsb (String.eqb (name c)) labels)) df.

(** Lookup in a labelled row of scalars (the result of [mean()] and of
    [mode().iloc[0]]). *)
Fixpoint lookup {A : Type} (k : string) (row : list (string * A)) : option A :=
  match row with
  | [] => None
  | (k', a) :: rest => if String.eqb k' k then Some a else lookup k rest
  end.

(* ------------------------------------------------------------------ *)
(** ** Column statistics                                               *)
(* ------------------------------------------------------------------ *)

(** An int64 as a float64, rounded to nearest: the primitive conversion
    takes what is below 2^63; the one int64 of magnitude 2^63 is a float. *)
Definition of_magnitude (n : Z) : float :=
  if (n <? 2 ^ 63)%Z then of_uint63 (Uint63.of_Z n) else 0x1p63%float.

Definition of_int64 (z : Z) : float :=
  if (z <? 0)%Z then (- of_magnitude (- z))%float else of_magnitude z.

Definition of_nat (n : nat) : float := of_int64 (Z.of_nat n).

(** The cells of a column as floats, the way pandas coerces them in
    arithmetic and reductions.  After [select_dtypes] no object column
    reaches arithmetic; its cells read as [NaN] here. *)
Definition to_floats (s : Series) : list float :=
  match s with
  | ObjectS l => map (fun _ => nan) l
  | IntS l => map of_int64 l
  | FloatS l => l
  | BoolS l => map (fun b : bool => if b then 1%float else 0%float) l
  end.

(** The number of cells that are present ([skipna=True]), and the cells
    with 0 in the place of the missing ones, which is what the reductions
    of [nanops] add up. *)
Definition count (l : list float) : nat :=
  length (filter (fun x => negb (is_nan x)) l).

Definition masked (l : list float) : list float :=
  map (fun x => if is_nan x then 0%float else x) l.

(** Numpy's sum from left to right. *)
Definition sequential (l : list float) : float :=
  fold_left PrimFloat.add l 0%float.

Section Statistics.
(** [ndarray.sum] on a row of float64. *)
Variable sum : list float -> float.

(** [nanops.nanmean]: the sum of the cells over the number of those that
    are present, [NaN] when there is none. *)
Definition nanmean (l : list float) : float :=
  if count l =? 0 then nan
  else (sum (masked l) / of_nat (count l))%float.

(** [nanops.nanstd] with [ddof=1]: the square root of the sum of the
    squared deviations from the mean over [count - ddof], [NaN] when
    [count <= ddof]. *)
Definition nanstd (l : list float) : float :=
  if count l <=? 1 then nan
  else
    let avg := (sum (masked l) / of_nat (count l))%float in
    PrimFloat.sqrt
      (sum (map (fun x => if is_nan x then 0 else (avg - x) * (avg - x))%float l)
       / of_nat (count l - 1))%float.

(** [Series.mean()] and [Series.std()]. *)
Definition series_mean (s : Series) : float := nanmean (to_floats s).

Definition series_std (s : Series) : float := nanstd (to_floats s).

(** [df.mean()] and [df.std()]: one scalar per column, under its label. *)
Definition mean (df : DataFrame) : list (string * float) :=
  map (fun c => (name c, series_mean (values c))) df.

Definition std (df : DataFrame) : list (string * float) :=
  map (fun c => (name c, series_std (values c))) df.
End Statistics.

(** [df - row] and [df / row].  pandas aligns the row on the column
    labels; [preprocess_data] only ever uses the mean and the standard
    deviation of the frame itself, whose labels are the frame's, in
    order, and then the operation goes position by position, cell by
    cell, and the result is a float column. *)
Definition broadcast (op : float -> float -> float)
    (df : DataFrame) (row : list (string * float)) : DataFrame :=
  map (fun cr =>
         mkColumn (name (fst cr))
                  (FloatS (map (fun x => op x (snd (snd cr)))
                               (to_floats (values (fst cr))))))
      (combine df row).

Definition sub := broadcast PrimFloat.sub.
Definition div := broadcast PrimFloat.div.

(* ------------------------------------------------------------------ *)
(** ** Filling missing cells                                           *)
(* ------------------------------------------------------------------ *)

Definition fill_float (v x : float) : float := if is_nan x then v else x.

Definition fill_object (v x : option string) : option string :=
  match x with
  | None => v
  | Some _ => x
  end.

Definition is_missing (x : option string) : bool :=
  match x with
  | None => true
  | Some _ => false
  end.

(** [Series.fillna(v)] with a float [v]: an int column has no missing cell
    and keeps its dtype. *)
Definition series_fillna (s : Series) (v : float) : Series :=
  match s with
  | FloatS l => FloatS (map (fill_float v) l)
  | _ => s
  end.

(** [Series.fillna(v)] on an object column; [v] itself may be missing (the
    mode row has [NaN] under a column without a single value), and then
    no cell changes.  pandas 2 then converts the block: an object column
    that has a missing cell and, after the fill, nothing but missing
    cells comes back as float64. *)
Definition series_fillna_object (s : Series) (v : option string) : Series :=
  match s with
  | ObjectS l =>
      let filled := map (fill_object v) l in
      if existsb is_missing l && forallb is_missing filled
      then FloatS (map (fun _ => nan) filled)
      else ObjectS filled
  | _ => s
  end.

(** [df.fillna(row)]: each column is filled with the scalar the row has
    under the column's label; a column the row does not name is left. *)
Definition fillna (df : DataFrame) (row : list (string * float)) : DataFrame :=
  map (fun c =>
         match lookup (name c) row with
         | Some v => mkColumn (name c) (series_fillna (values c) v)
         | None => c
         end) df.

Definition fillna_object (df : DataFrame) (row : list (string * option string))
  : DataFrame :=
  map (fun c =>
         match lookup (name c) row with
         | Some v => mkColumn (name c) (series_fillna_object (values c) v)
         | None => c
         end) df.

(* ------------------------------------------------------------------ *)
(** ** Distinct values, sorting, the mode                              *)
(* ------------------------------------------------------------------ *)

Section Sorting.
Variable A : Type.
Variable leb : A -> A -> bool.

Fixpoint insert (x : A) (l : list A) : list A :=
  match l with
  | [] => [x]
  | y :: t => if leb x y then x :: l else y :: insert x t
  end.

Definition sort (l : list A) : list A := fold_right insert [] l.

(** Every element is below the ones to its right. *)
Fixpoint ascending (l : list A) : Prop :=
  match l with
  | [] => True
  | x :: t => (forall y, In y t -> leb x y = true) /\ ascending t
  end.
End Sorting.

(** Distinct values in order of first occurrence. *)
Section Unique.
Variable A : Type.
Variable eqb : A -> A -> bool.

Fixpoint unique (l : list A) : list A :=
  match l with
  | [] => []
  | x :: t => x :: filter (fun y => negb (eqb x y)) (unique t)
  end.
End Unique.

(** The values of an object column that are present, in row order. *)
Definition present (l : list (option string)) : list string :=
  flat_map (fun x => match x with None => [] | Some s => [s] end) l.


(** Does cell [x] hold the value [v]? *)
Definition holds (v : string) (x : option string) : bool :=
  match x with
  | None => false
  | Some s => String.eqb s v
  end.

Definition count_of (v : string) (l : list (option string)) : nat :=
  length (filter (holds v) l).

(** The categories of an object column: its distinct values that are
    present, sorted (Python compares [str] by code point, [String.leb] by
    byte; on UTF-8 text the two orders agree). *)
Definition levels (l : list (option string)) : list string :=
  sort String.leb (unique String.eqb (present l)).


Definition max_count (l : list (option string)) : nat :=
  fold_right Nat.max 0 (map (fun v => count_of v l) (levels l)).

(** [Series.mode()]: the most frequent values that are present, sorted;
    empty when no value is present. *)
Definition series_mode (l : list (option string)) : list string :=
  filter (fun v => count_of v l =? max_count l) (levels l).

Definition object_cells (s : Series) : list (option string) :=
  match s with
  | ObjectS l => l
  | _ => []
  end.

(** [df.mode()] on a selection of object columns: under each label the
    modes of that column.  The frame has as many rows as the longest of
    them, shorter columns being padded with [NaN]; a frame without columns
    has no row. *)
Definition mode (df : DataFrame) : list (string * list string) :=
  map (fun c => (name c, series_mode (object_cells (values c)))) df.

Definition mode_rows (m : list (string * list string)) : nat :=
  fold_right Nat.max 0 (map (fun p => length (snd p)) m).

(** [.iloc[0]] on the mode frame: its first row, or [IndexError] ("single
    positional indexer is out-of-bounds") when it has none. *)
Definition iloc0 (m : list (string * list string))
  : result (list (string * option string)) :=
  if mode_rows m =? 0 then Raise IndexError
  else Ok (map (fun p => (fst p, hd_error (snd p))) m).

(* ------------------------------------------------------------------ *)
(** ** One-hot encoding and renaming                                   *)
(* ------------------------------------------------------------------ *)

(** [_get_dummies_1d]: one indicator column per category, labelled
    [prefix_category]; a missing cell is in no category
    ([dummy_na=False]). *)
Definition get_dummies_1d (prefix : string) (l : list (option string))
  : DataFrame :=
  map (fun v => mkColumn (prefix ++ "_" ++ v) (BoolS (map (holds v) l)))
      (levels l).

(** [pd.get_dummies(data, columns=cols)]: the columns not listed come
    first, in their order; then, for each listed column, its indicators.
    [preprocess_data] lists the columns that were object columns when it
    started: by now each is an object column, or a float64 column of
    [NaN] that [fillna] has made of an object column without a value,
    which has no category and gets no indicator.  A listed column of any
    other kind is not reached from a table with unique labels; it is kept
    as it is here. *)
Definition get_dummies (data : DataFrame) (cols : Index) : DataFrame :=
  let data_to_encode := getitem data cols in
  drop data cols ++
  flat_map (fun c =>
              match values c with
              | ObjectS l => get_dummies_1d (name c) l
              | FloatS l => if forallb is_nan l then [] else [c]
              | _ => [c]
              end) data_to_encode.

(** [s.replace("_", "")]. *)
Fixpoint str_replace_underscore (s : string) : string :=
  match s with
  | EmptyString => EmptyString
  | String a s' =>
      if Ascii.eqb a "_" then str_replace_underscore s'
      else String a (str_replace_underscore s')
  end.

(** [df.columns = df.columns.str.replace("_", "")]. *)
Definition rename_columns (df : DataFrame) : DataFrame :=
  map (fun c => mkColumn (str_replace_underscore (name c)) (values c)) df.

(* ================================================================== *)
(** * Part 2: the program                                              *)
(* ================================================================== *)

Section Preprocessing.
Variable sum : list float -> float.

(** [preprocess_data(data)].  The argument is a mutable object that the
    caller keeps using ([main] draws the "header" charts from it), so the
    function is given as a state transformer: the first component is the
    caller's frame when the call ends, the second what the call returns
    or raises.  The first two item assignments write into the caller's
    frame; [get_dummies] builds a new one, into which the third writes. *)
Definition preprocess_data (data : DataFrame) : DataFrame * result DataFrame :=
  (* Identify column types *)
  let categorical_columns := columns (select_dtypes [object] data) in
  let numerical_columns := columns (select_dtypes [int64; float64] data) in
  (* Handle missing values in numerical columns *)
  match
    setitem data numerical_columns
      (fillna (getitem data numerical_columns)
              (mean sum (getitem data numerical_columns)))
  with
  | (data, Some e) => (data, Raise e)
  | (data, None) =>
      (* Handle missing values in categorical columns *)
      match iloc0 (mode (getitem data categorical_columns)) with
      | Raise e => (data, Raise e)
      | Ok first_mode =>
          match
            setitem data categorical_columns
              (fillna_object (getitem data categorical_columns) first_mode)
          with
          | (data, Some e) => (data, Raise e)
          | (data, None) =>
              (* Encode categorical features *)
              let encoded_data := get_dummies data categorical_columns in
              (* Scale numerical features *)
              let scaled_data :=
                div (sub (getitem encoded_data numerical_columns)
                         (mean sum (getitem encoded_data numerical_columns)))
                    (std sum (getitem encoded_data numerical_columns)) in
              match setitem encoded_data numerical_columns scaled_data with
              | (_, Some e) => (data, Raise e)
              | (encoded_data, None) =>
                  (* Rename columns with camel case *)
                  let encoded_data := rename_columns encoded_data in
                  (data, Ok encoded_data)
              end
          end
      end
  end.
End Preprocessing.

(* ------------------------------------------------------------------ *)
(** ** Charts                                                          *)
(* ------------------------------------------------------------------ *)

(** A cell value as a chart label. *)
Inductive scalar : Type :=
| VStr (s : string)
| VInt (z : Z)
| VFloat (x : float)
| VBool (b : bool).

(** Float cells as the hash tables of pandas tell them apart: 0.0 and
    -0.0 are one value. *)
Definition canonical (x : float) : float := if is_zero x then 0%float else x.

Definition key_of (a : scalar) : scalar :=
  match a with
  | VFloat x => VFloat (canonical x)
  | _ => a
  end.

Definition scalar_eqb (a b : scalar) : bool :=
  match key_of a, key_of b with
  | VStr s, VStr s' => String.eqb s s'
  | VInt z, VInt z' => Z.eqb z z'
  | VFloat x, VFloat x' => PrimFloat.Leibniz.eqb x x'
  | VBool b, VBool b' => Bool.eqb b b'
  | _, _ => false
  end.

Definition cell_eqb (a b : option scalar) : bool :=
  match a, b with
  | None, None => true
  | Some x, Some y => scalar_eqb x y
  | _, _ => false
  end.

(** The cells of a column, [None] for a missing one. *)
Definition cells (s : Series) : list (option scalar) :=
  match s with
  | ObjectS l => map (option_map VStr) l
  | IntS l => map (fun z => Some (VInt z)) l
  | FloatS l => map (fun x => if is_nan x then None else Some (VFloat x)) l
  | BoolS l => map (fun b => Some (VBool b)) l
  end.

Definition present_cells (l : list (option scalar)) : list scalar :=
  flat_map (fun x => match x with None => [] | Some v => [v] end) l.

(** [Series.unique()]: the distinct cells, a missing one included. *)
Definition series_unique (s : Series) : list (option scalar) :=
  unique cell_eqb (cells s).

(** [Series.value_counts()]: each distinct value that is present with the
    number of its occurrences, most frequent first (values of equal
    frequency are kept in order of first occurrence). *)
Definition value_counts (s : Series) : list (scalar * nat) :=
  let vs := present_cells (cells s) in
  sort (fun a b => snd b <=? snd a)
       (map (fun v => (v, length (filter (scalar_eqb v) vs)))
            (unique scalar_eqb vs)).

(** What [data[label]] is: a Series when the table has the label once, a
    frame when it has it more often. *)
Inductive selection : Type :=
| a_Series (s : Series)
| a_DataFrame (df : DataFrame).

(** [data[label]]: [KeyError] when no column has the label. *)
Definition getitem_label (data : DataFrame) (label : string)
  : result selection :=
  match getitem data [label] with
  | [] => Raise (KeyError label)
  | [c] => Ok (a_Series (values c))
  | cs => Ok (a_DataFrame cs)
  end.

(** [data[label]] where the code goes on to ask for [.dtype]: a frame has
    no such attribute. *)
Definition column (data : DataFrame) (label : string) : result Series :=
  match getitem_label data label with
  | Raise e => Raise e
  | Ok (a_Series s) => Ok s
  | Ok (a_DataFrame _) => Raise NoDtype
  end.

(** A colour is a position in [sns.color_palette()]. *)
Definition color : Type := nat.

(** What is handed to the plotting library. *)
Inductive plot : Type :=
| scatterplot (x y : string) (hue : option string) (palette : list color)
| stripplot (x y : string) (hue : option string) (palette : list color)
| pie (counts : list nat) (labels : list scalar).

Record Figure : Type := mkFigure {
  drawing : plot;
  title : string;
  xlabel : option string;
  ylabel : option string
}.

Definition is_object (s : Series) : bool := dtype_eqb (dtype_of s) object.

Section Scatterplot.
(** [random.choices(list(sns.color_palette()), k=...)]: the colours
    drawn, given how many are asked for. *)
Variable choices : nat -> list color.

(** [visualize_scatterplot(data, x_column, y_column)]. *)
Definition visualize_scatterplot (data : DataFrame) (x_column y_column : string)
  : result Figure :=
  let visualization_type := "Scatterplot"%string in
  match column data x_column with
  | Raise e => Raise e
  | Ok xs =>
      match column data y_column with
      | Raise e => Raise e
      | Ok ys =>
          let drawn :=
            if is_object xs && is_object ys then
              (* Categorical x and y columns *)
              let colors := choices (length (series_unique xs)) in
              scatterplot x_column y_column (Some x_column) colors
            else if is_object xs then
              (* Categorical x column and numerical y column *)
              let colors := choices (length (series_unique xs)) in
              stripplot x_column y_column (Some x_column) colors
            else if is_object ys then
              (* Numerical x column and categorical y column *)
              let colors := choices (length (series_unique ys)) in
              stripplot x_column y_column (Some y_column) colors
            else
              (* Numerical x and y columns *)
              scatterplot x_column y_column None []
          in
          Ok (mkFigure drawn
                (x_column ++ " vs " ++ y_column ++ " " ++ visualization_type)
                (Some x_column) (Some y_column))
      end
  end.
End Scatterplot.

(** [visualize_pie_chart(data, column)].  [plt.pie] refuses wedge sizes
    that add up to nothing, so a column without a value is not drawn; nor
    is the frame that a label occurring twice selects. *)
Definition visualize_pie_chart (data : DataFrame) (label : string)
  : result Figure :=
  let visualization_type := "Pie Chart"%string in
  match getitem_label data label with
  | Raise e => Raise e
  | Ok (a_DataFrame _) => Raise NoWedge
  | Ok (a_Series s) =>
      (* Count the occurrences of each unique value in the column *)
      let counts := value_counts s in
      match counts with
      | [] => Raise NoWedge
      | _ =>
          Ok (mkFigure (pie (map snd counts) (map fst counts))
                (label ++ " " ++ visualization_type) None None)
      end
  end.

(** The type signature of a column, as every [visualize_*] function tests
    it: [dtype == "object"] or not. *)
Inductive signature : Type := Categorical | Numerical.

Definition classify (s : Series) : signature :=
  if is_object s then Categorical else Numerical.

(* ------------------------------------------------------------------ *)
(** ** The rest of the program: exceptions, effects, the environment   *)
(* ------------------------------------------------------------------ *)

(** A line feed, and the decimal numeral of a natural number
    ([str(n)]). *)
Definition nl : string := String (ascii_of_nat 10) EmptyString.

Definition str_nat (n : nat) : string :=
  NilZero.string_of_uint (Nat.to_uint n).

(** The Python exceptions of the functions below.  [FromPandas] wraps the
    exceptions of [preprocess_data] and of the chart functions above;
    [InvalidLiteral] is the [ValueError] of [int] on a text that is no
    number. *)
Inductive exception : Type :=
| FromPandas (e : condition)
| SeabornValueError (parameter value : string)
| AttributeError
| ValueError (message : string)
| InvalidLiteral (text : string)
| EOFError
| FileNotFoundError
| ParserError
| SqliteError
| OtherError (message : string).

(** What the library calls hand back: a value or an exception. *)
Definition attempt (A : Type) : Type := (exception + A)%type.

(** What [visualize_boxplot] hands to the plotting library. *)
Record BoxFigure : Type := mkBoxFigure {
  box_x : string;
  box_y : string;
  box_palette : option (list color);
  box_title : string;
  box_xlabel : string;
  box_ylabel : string
}.

(** What [visualize_individual_column] draws and prints. *)
Inductive column_view : Type :=
| bar_chart (labels : list scalar) (heights : list nat)
            (texts : list (nat * nat * string))
            (title xlabel ylabel : string)
            (printed : list string * list (scalar * nat))
| histogram (cells : Series) (kde : bool) (colour : color)
            (title xlabel ylabel : string)
            (printed : list string * list (string * scalar))
| no_such_column (printed : string)
| column_error (e : condition).

(** A call of one of the four chart functions by [main]. *)
Inductive call : Type :=
| call_individual_column (data : DataFrame) (header_name : string)
| call_boxplot (data : DataFrame) (x_column y_column : string)
| call_scatterplot (data : DataFrame) (x_column y_column : string)
| call_pie_chart (data : DataFrame) (column : string).

(** What the program does to the outside, in order. *)
Inductive effect : Type :=
| Prompt (text : string)
| Print (text : string)
| PrintFrame (data : option DataFrame)
| Close (path : string)
| Visualize (c : call).

(** What the program takes from the outside: the interpreter's [int],
    [str.lower] and [str] of an exception; the draws of [random]; the
    readers of pandas and sqlite3; [Series.describe]; numpy's sum of a
    row of float64. *)
Record Environment : Type := mkEnvironment {
  int : string -> option Z;
  lower : string -> string;
  str_exception : exception -> string;
  choices : nat -> list color;
  choice : color;
  describe : Series -> list (string * scalar);
  read_csv : string -> attempt DataFrame;
  read_excel : string -> attempt DataFrame;
  connect : string -> attempt unit;
  first_table_name : string -> attempt (option string);
  read_sql_query : string -> string -> attempt DataFrame;
  np_sum : list float -> float
}.

(** How a run stops short: an exception, [exit()], or, in the model of
    the loops only, no fuel left. *)
Inductive stop : Type :=
| Raised (e : exception)
| Exited
| OutOfFuel.

(** A program reads lines of input and has effects: given the lines that
    are left, it yields its effects, the lines it leaves, and its
    value or the way it stopped. *)
Definition io (A : Type) : Type :=
  list string -> list effect * list string * (stop + A).

Definition ret {A : Type} (a : A) : io A :=
  fun lines => ([], lines, inr a).

Definition bind {A B : Type} (m : io A) (k : A -> io B) : io B :=
  fun lines =>
    match m lines with
    | (out, lines', inl s) => (out, lines', inl s)
    | (out, lines', inr a) =>
        match k a lines' with
        | (out', lines'', r) => (out ++ out', lines'', r)
        end
    end.

Notation "x <- m ;; k" := (bind m (fun x => k))
  (at level 61, m at next level, right associativity).
Notation "m ;;; k" := (bind m (fun _ => k))
  (at level 61, right associativity).

Definition emit (e : effect) : io unit :=
  fun lines => ([e], lines, inr tt).

Definition print (text : string) : io unit := emit (Print text).

Definition raise {A : Type} (e : exception) : io A :=
  fun lines => ([], lines, inl (Raised e)).

Definition exit {A : Type} : io A :=
  fun lines => ([], lines, inl Exited).

(** [input(prompt)]: the prompt is written, a line is read; at the end of
    the input [EOFError] is raised. *)
Definition input (prompt : string) : io string :=
  fun lines =>
    match lines with
    | [] => ([Prompt prompt], [], inl (Raised EOFError))
    | line :: rest => ([Prompt prompt], rest, inr line)
    end.

(** [try: body except ...]: the handler says which exceptions it takes;
    [exit()] is no [Exception] and passes through. *)
Definition try_except {A : Type} (body : io A)
    (handler : exception -> option (io A)) : io A :=
  fun lines =>
    match body lines with
    | (out, lines', inl (Raised e)) =>
        match handler e with
        | Some h =>
            match h lines' with
            | (out', lines'', r) => (out ++ out', lines'', r)
            end
        | None => (out, lines', inl (Raised e))
        end
    | r => r
    end.

(** A library call inside a program. *)
Definition attempted {A : Type} (r : attempt A) : io A :=
  match r with
  | inl e => raise e
  | inr a => ret a
  end.

(* ------------------------------------------------------------------ *)
(** ** Loading                                                         *)
(* ------------------------------------------------------------------ *)

(** [s.rfind(c)]: the position of the last [c] in [s]. *)
Fixpoint rfind_from (c : ascii) (s : string) (i : nat) : option nat :=
  match s with
  | EmptyString => None
  | String a s' =>
      match rfind_from c s' (S i) with
      | Some j => Some j
      | None => if Ascii.eqb a c then Some i else None
      end
  end.

Definition rfind (c : ascii) (s : string) : option nat := rfind_from c s 0.

(** [s[:n]] and [s[n:]]. *)
Fixpoint take (n : nat) (s : string) : string :=
  match n, s with
  | S n', String a s' => String a (take n' s')
  | _, _ => EmptyString
  end.

Fixpoint skip (n : nat) (s : string) : string :=
  match n, s with
  | S n', String a s' => skip n' s'
  | _, _ => s
  end.

Fixpoint all_dots (s : string) : bool :=
  match s with
  | EmptyString => true
  | String a s' => Ascii.eqb a "." && all_dots s'
  end.

(** [os.path.splitext(p)] (posixpath): the extension starts at the last
    dot, provided that dot comes after the last slash and some character
    other than a dot stands between the two; otherwise there is none. *)
Definition splitext (p : string) : string * string :=
  let filenameIndex := match rfind "/" p with Some i => S i | None => 0 end in
  match rfind "." p with
  | None => (p, EmptyString)
  | Some dotIndex =>
      if (filenameIndex <=? dotIndex)
         && negb (all_dots (take (dotIndex - filenameIndex) (skip filenameIndex p)))
      then (take dotIndex p, skip dotIndex p)
      else (p, EmptyString)
  end.

Definition is_sqlite_error (e : exception) : bool :=
  match e with
  | SqliteError => true
  | _ => false
  end.

(** [read_data_from_db(file_path)]. *)
Definition read_data_from_db (env : Environment) (file_path : string)
  : io (option DataFrame) :=
  attempted (connect env file_path) ;;;
  try_except
    ((* Retrieve the first table name from the sqlite_master table *)
     result <- attempted (first_table_name env file_path) ;;
     match result with
     | None =>
         print "No tables found in the database." ;;;
         emit (Close file_path) ;;;
         ret None
     | Some table_name =>
         (* Read the data from the retrieved table *)
         let query := ("SELECT * FROM " ++ table_name)%string in
         data <- attempted (read_sql_query env file_path query) ;;
         emit (Close file_path) ;;;
         ret (Some data)
     end)
    (fun e =>
       if is_sqlite_error e
       then Some (print ("An error occurred while reading the database: "
                         ++ str_exception env e) ;;;
                  ret None)
       else None).

Definition unsupported_file_format : string :=
  "Unsupported file format. Please provide a CSV, Excel, SQL, or SQLite database file.".

(** [load_data(path)]. *)
Definition load_data (env : Environment) (path : string)
  : io (option DataFrame) :=
  try_except
    (let file_extension := snd (splitext path) in
     data <-
       (if String.eqb file_extension ".csv" then
          d <- attempted (read_csv env path) ;; ret (Some d)
        else if existsb (String.eqb file_extension) [".xls"; ".xlsx"]%string then
          d <- attempted (read_excel env path) ;; ret (Some d)
        else if existsb (String.eqb file_extension) [".db"; ".sql"]%string then
          read_data_from_db env path
        else
          raise (ValueError unsupported_file_format)) ;;
     ret data)
    (fun e =>
       match e with
       | FileNotFoundError =>
           Some (print "File not found. Please provide a valid file path." ;;;
                 ret None)
       | ParserError =>
           Some (print "Error occurred while parsing the file. Please check if the file format is correct." ;;;
                 ret None)
       | _ =>
           Some (print ("An error occurred while loading the data: "
                        ++ str_exception env e) ;;;
                 ret None)
       end).

(* ------------------------------------------------------------------ *)
(** ** The other two charts                                            *)
(* ------------------------------------------------------------------ *)

(** [visualize_individual_column(data, header_name)].  A figure is opened
    first in every case; a label that is not in the table gives a
    message, no exception; a label that the table has twice passes the
    test and raises at [.dtype]. *)
Definition visualize_individual_column (env : Environment) (data : DataFrame)
    (header_name : string) : column_view :=
  (* [header_name in data.columns] holds exactly when [data[header_name]]
     raises no [KeyError] *)
  match column data header_name with
  | Ok column_data =>
        if is_object column_data then
          (* Categorical column visualization *)
          let counts := value_counts column_data in
          bar_chart (map fst counts) (map snd counts)
            (* Display value counts on the plot *)
            (map (fun ic => (fst ic, snd ic, str_nat (snd ic)))
                 (combine (seq 0 (length counts)) (map snd counts)))
            (header_name ++ " Histogram")%string header_name "Count"%string
            ([nl ++ "Value counts for column '" ++ header_name ++ "':"]%string,
             counts)
        else
          (* Numerical column visualization *)
          histogram column_data true (choice env)
            (header_name ++ " Histogram")%string header_name "Frequency"%string
            ([nl ++ "Descriptive statistics for column '" ++ header_name ++ "':"]%string,
             describe env column_data)
  | Raise (KeyError _) =>
      no_such_column
        ("Column '" ++ header_name ++ "' does not exist in the data.")%string
  | Raise e => column_error e
  end.

(** [sns.boxplot(data=data, x=x, y=y, palette=...)] followed by the title
    and the axis labels: seaborn refuses a name that is not a column. *)
Definition sns_boxplot (data : DataFrame) (x y : string)
    (palette : option (list color)) : attempt BoxFigure :=
  if negb (existsb (String.eqb x) (columns data)) then
    inl (SeabornValueError "x"%string x)
  else if negb (existsb (String.eqb y) (columns data)) then
    inl (SeabornValueError "y"%string y)
  else
    inr (mkBoxFigure x y palette
           (x ++ " vs " ++ y ++ " " ++ "Boxplot")%string x y).

(** [visualize_boxplot(data, x_column, y_column)]. *)
Definition visualize_boxplot (env : Environment) (data : DataFrame)
    (x_column y_column : string) : attempt BoxFigure :=
  match column data x_column with
  | Raise e => inl (FromPandas e)
  | Ok xs =>
      if is_object xs then
        (* Categorical x column and numerical y column *)
        let colors := choices env (length (series_unique xs)) in
        sns_boxplot data x_column y_column (Some colors)
      else
        match column data y_column with
        | Raise e => inl (FromPandas e)
        | Ok ys =>
            if is_object ys then
              (* Numerical x column and categorical y column *)
              let colors := choices env (length (series_unique ys)) in
              sns_boxplot data x_column y_column (Some colors)
            else
              (* Numerical x and y columns *)
              sns_boxplot data x_column y_column None
        end
  end.

(** What a call of a chart function does in [main]: it draws, or its
    exception goes up. *)
Definition visualize (env : Environment) (c : call) : io unit :=
  match c with
  | call_individual_column data header_name =>
      match visualize_individual_column env data header_name with
      | column_error e => raise (FromPandas e)
      | _ => emit (Visualize c)
      end
  | call_boxplot data x y =>
      match visualize_boxplot env data x y with
      | inl e => raise e
      | inr _ => emit (Visualize c)
      end
  | call_scatterplot data x y =>
      match visualize_scatterplot (choices env) data x y with
      | Raise e => raise (FromPandas e)
      | Ok _ => emit (Visualize c)
      end
  | call_pie_chart data label =>
      match visualize_pie_chart data label with
      | Raise e => raise (FromPandas e)
      | Ok _ => emit (Visualize c)
      end
  end.

(* ------------------------------------------------------------------ *)
(** ** The dialogue                                                    *)
(* ------------------------------------------------------------------ *)

(** [int(input(prompt))]. *)
Definition read_int (env : Environment) (prompt : string) : io Z :=
  line <- input prompt ;;
  match int env line with
  | Some z => ret z
  | None => raise (InvalidLiteral line)
  end.

(** The exceptions that [except ValueError] takes. *)
Definition is_ValueError (e : exception) : bool :=
  match e with
  | ValueError _ | InvalidLiteral _
  | FromPandas LengthMismatch | FromPandas NoWedge => true
  | _ => false
  end.

Fixpoint print_all (texts : list string) : io unit :=
  match texts with
  | [] => ret tt
  | text :: rest => print text ;;; print_all rest
  end.

Definition type_prompt : string :=
  (nl ++ "Choose type:" ++ nl ++ "1. header, 2. column values: ")%string.

Definition comparison_prompt : string :=
  (nl ++ "Choose comparison type:" ++ nl
   ++ "1. Compare between two headers, 2. Compare between two column values: ")%string.

Definition invalid_input : string :=
  "Invalid input. Please enter either 1 or 2.".

Definition invalid_choice : string := "Invalid choice. Please try again.".

Definition menu_header : string := (nl ++ "Visualization Options:")%string.

(** The question "header or column values" of every menu entry:
    [try: type = int(input(...)) ... except ValueError: ...].  The value
    is the table that the name [data] is bound to afterwards: on the
    answer 2 it is rebound to the preprocessed table.  [ask_exit] tells
    whether the handler goes on to ask for 'exit' (entries 1, 2 and 4) or
    not (entry 3). *)
Definition choose_type (env : Environment) (prompt message : string)
    (ask_exit : bool) (data preprocessed_data : DataFrame) : io DataFrame :=
  try_except
    (type <- read_int env prompt ;;
     if (type =? 2)%Z then ret preprocessed_data
     else if negb (type =? 1)%Z then raise (ValueError EmptyString)
     else ret data)
    (fun e =>
       if is_ValueError e then
         Some (print message ;;;
               if ask_exit then
                 choice <- input "Enter 'exit' to quit or press any key to try again: " ;;
                 if String.eqb (lower env choice) "exit" then exit else ret data
               else ret data)
       else None).

(** [print("\nAvailable Columns:")] and the loop over
    [enumerate(data.columns)]. *)
Definition list_columns (data : DataFrame) : io unit :=
  print (nl ++ "Available Columns:")%string ;;;
  print_all (map (fun ic => (str_nat (fst ic) ++ ". " ++ snd ic)%string)
                 (combine (seq 0 (length (columns data))) (columns data))).

(** [0 <= choice < len(data.columns)]. *)
Definition in_range (data : DataFrame) (z : Z) : bool :=
  (0 <=? z)%Z && (z <? Z.of_nat (length (columns data)))%Z.

(** [data.columns[choice]]. *)
Definition label_at (data : DataFrame) (z : Z) : string :=
  nth (Z.to_nat z) (columns data) EmptyString.

(** The end of entries 1 and 4: one column is asked for and charted. *)
Definition chart_one_column (env : Environment)
    (chart : DataFrame -> string -> call) (data : DataFrame) : io unit :=
  list_columns data ;;;
  column_choice <-
    read_int env "Enter the number corresponding to the column you want to visualize: " ;;
  if in_range data column_choice
  then visualize env (chart data (label_at data column_choice))
  else print invalid_choice.

(** The end of entries 2 and 3: two columns are asked for and charted. *)
Definition chart_two_columns (env : Environment)
    (chart : DataFrame -> string -> string -> call) (data : DataFrame)
  : io unit :=
  list_columns data ;;;
  x_column_choice <-
    read_int env "Enter the number corresponding to the x-axis column: " ;;
  y_column_choice <-
    read_int env "Enter the number corresponding to the y-axis column: " ;;
  if in_range data x_column_choice && in_range data y_column_choice
  then visualize env (chart data (label_at data x_column_choice)
                                 (label_at data y_column_choice))
  else print invalid_choice.

Definition out_of_fuel {A : Type} : io A :=
  fun lines => ([], lines, inl OutOfFuel).

(** The inner [while True] of entry 2.  It has no [break]. *)
Fixpoint box_loop (env : Environment) (fuel : nat)
    (data preprocessed_data : DataFrame) : io unit :=
  match fuel with
  | O => out_of_fuel
  | S fuel' =>
      data <- choose_type env comparison_prompt invalid_input true
                          data preprocessed_data ;;
      chart_two_columns env call_boxplot data ;;;
      box_loop env fuel' data preprocessed_data
  end.

Definition print_menu : io unit :=
  print_all [ menu_header;
              "1. Visualize Histogram ";
              "2. Visualize Box Plot ";
              "3. Visualize Scatter Plot ";
              "4. Visualize Pie Chart ";
              "5. Exit " ]%string.

(** The outer [while True] of [main]. *)
Fixpoint menu_loop (env : Environment) (fuel : nat)
    (data preprocessed_data : DataFrame) : io unit :=
  match fuel with
  | O => out_of_fuel
  | S fuel' =>
      print_menu ;;;
      choice <-
        read_int env "Enter the number corresponding to the visualization option you want to choose: " ;;
      if (choice =? 5)%Z then ret tt
      else if (choice =? 1)%Z then
        data <- choose_type env type_prompt invalid_input true
                            data preprocessed_data ;;
        chart_one_column env call_individual_column data ;;;
        menu_loop env fuel' data preprocessed_data
      else if (choice =? 2)%Z then
        box_loop env fuel' data preprocessed_data
      else if (choice =? 3)%Z then
        data <- choose_type env comparison_prompt (invalid_input ++ nl) false
                            data preprocessed_data ;;
        chart_two_columns env call_scatterplot data ;;;
        menu_loop env fuel' data preprocessed_data
      else if (choice =? 4)%Z then
        data <- choose_type env type_prompt invalid_input true
                            data preprocessed_data ;;
        chart_one_column env call_pie_chart data ;;;
        menu_loop env fuel' data preprocessed_data
      else
        print invalid_choice ;;;
        menu_loop env fuel' data preprocessed_data
  end.

(** [main()].  Every round of either loop reads a line, so a round for
    each line that is left, and one more, is all the fuel the loops can
    use ([menu_loop_within]). *)
Definition main (env : Environment) : io unit :=
  try_except
    (file_path <- input "Enter the path to the data file: " ;;
     data <- load_data env file_path ;;
     print (nl ++ "DataFrame:")%string ;;;
     emit (PrintFrame data) ;;;
     match data with
     | None => raise AttributeError
     | Some data =>
         match preprocess_data (np_sum env) data with
         | (_, Raise e) => raise (FromPandas e)
         | (data, Ok preprocessed_data) =>
             fun lines =>
               menu_loop env (S (length lines)) data preprocessed_data lines
         end
     end)
    (fun e => Some (print ("An error occurred: " ++ str_exception env e)%string)).

(* ================================================================== *)
(** * Part 3: the vocabulary of the properties                         *)
(* ================================================================== *)

(* ------------------------------------------------------------------ *)
(** ** [preprocess_data], column by column                            *)
(* ------------------------------------------------------------------ *)

(** The labels of the columns that satisfy [p] pick exactly those columns:
    no two of them share a label, and no other column carries one. *)
Definition separated (p : Column -> bool) (df : DataFrame) : Prop :=
  NoDup (columns (filter p df)) /\
  forall c, In c df -> p c = false -> ~ In (name c) (columns (filter p df)).

(** The two tests of [select_dtypes] in [preprocess_data]. *)
Definition is_categorical (c : Column) : bool :=
  existsb (dtype_eqb (dtype_of (values c))) [object].

Definition is_numerical (c : Column) : bool :=
  existsb (dtype_eqb (dtype_of (values c))) [int64; float64].

Definition not_categorical (c : Column) : bool := negb (is_categorical c).

(** What the categorical fill does to the cells of one column. *)
Definition first_mode (c : Column) : option string :=
  hd_error (series_mode (object_cells (values c))).

Definition impute_mode (c : Column) : Series :=
  series_fillna_object (values c) (first_mode c).

Definition indicators (c : Column) : DataFrame :=
  get_dummies_1d (name c) (object_cells (values c)).

(** A column-wise update of the columns that satisfy [p]. *)
Definition update (p : Column -> bool) (g : Column -> Series) (df : DataFrame)
  : DataFrame :=
  map (fun c => if p c then mkColumn (name c) (g c) else c) df.

(** The indicator columns of a categorical column, made from its filled
    cells, and those of a table. *)
Definition indicator_block (c : Column) : DataFrame :=
  indicators (mkColumn (name c) (impute_mode c)).

Definition indicator_columns (data : DataFrame) : DataFrame :=
  flat_map indicator_block (filter is_categorical data).

(** No indicator column takes the label of a numerical column, so that
    [encoded_data[numerical_columns]] is the numerical columns and nothing
    else. *)
Definition no_clash (data : DataFrame) : Prop :=
  forall d, In d (indicator_columns data) ->
            ~ In (name d) (columns (filter is_numerical data)).

(** The categorical selection has a mode row. *)
Definition has_mode_row (data : DataFrame) : bool :=
  negb (mode_rows (mode (filter is_categorical data)) =? 0).

Section Columnwise.
Variable sum : list float -> float.

(** What the numerical fill and the scaling do to the cells of one
    column. *)
Definition impute_mean (c : Column) : Series :=
  series_fillna (values c) (series_mean sum (values c)).

Definition standardize (c : Column) : Series :=
  FloatS (map (fun x => (x - series_mean sum (values c))
                        / series_std sum (values c))%float
              (to_floats (values c))).

(** The caller's frame after the first and after the second assignment. *)
Definition imputed_numerical (data : DataFrame) : DataFrame :=
  update is_numerical impute_mean data.

Definition imputed (data : DataFrame) : DataFrame :=
  update is_categorical impute_mode (imputed_numerical data).

(** The frame that [get_dummies] returns: the columns that are not
    categorical, the numerical ones filled, then the indicator columns. *)
Definition encoded (data : DataFrame) : DataFrame :=
  update is_numerical impute_mean (filter not_categorical data)
  ++ indicator_columns data.

(** The frame that [preprocess_data] returns. *)
Definition prepared (data : DataFrame) : DataFrame :=
  rename_columns (update is_numerical standardize (encoded data)).

(** The two fills, as one change of every column. *)
Definition fill_column (c : Column) : Column :=
  if is_numerical c then mkColumn (name c) (impute_mean c)
  else if is_categorical c then mkColumn (name c) (impute_mode c)
  else c.

(** The third assignment, and what the call hands back after it. *)
Definition scaled_outcome (data : DataFrame) : result DataFrame :=
  match
    setitem (encoded data) (columns (select_dtypes [int64; float64] data))
      (div (sub (getitem (encoded data)
                         (columns (select_dtypes [int64; float64] data)))
                (mean sum (getitem (encoded data)
                                   (columns (select_dtypes [int64; float64] data)))))
           (std sum (getitem (encoded data)
                             (columns (select_dtypes [int64; float64] data)))))
  with
  | (_, Some e) => Raise e
  | (encoded_data, None) => Ok (rename_columns encoded_data)
  end.

(** What becomes of a column that is not categorical: a numerical one is
    filled, then standardized; any other is passed on. *)
Definition scaled_column (c : Column) : Column :=
  if is_numerical c
  then mkColumn (name c) (standardize (mkColumn (name c) (impute_mean c)))
  else c.

(** Following the words "(x - mean) / stddev": the cells of a numerical
    column are filled with their mean; then every cell has the mean of the
    filled cells subtracted and is divided by their standard deviation,
    in float64. *)
Definition standard_scores (l : list float) : list float :=
  let filled := map (fun x => if is_nan x then nanmean sum l else x) l in
  map (fun x => PrimFloat.div (PrimFloat.sub x (nanmean sum filled))
                              (nanstd sum filled)) filled.

(** Following the words "stddev == 0 (constant column)", for float64: the
    standard deviation of the filled cells comes out as zero, and so does
    the deviation of every filled cell from their mean. *)
Definition zero_variance (l : list float) : Prop :=
  let filled := map (fun x => if is_nan x then nanmean sum l else x) l in
  is_zero (nanstd sum filled) = true
  /\ forall x, In x filled ->
               is_zero (PrimFloat.sub x (nanmean sum filled)) = true.
End Columnwise.

(* ------------------------------------------------------------------ *)
(** ** Notions of the statements                                      *)
(* ------------------------------------------------------------------ *)

(** A cell that is missing is overwritten by [v]; a cell that is present
    is kept. *)
Definition fill_cell (v x : option scalar) : option scalar :=
  match x with
  | None => v
  | Some _ => x
  end.

(** A float as a cell: [NaN] is the missing one. *)
Definition float_cell (x : float) : option scalar :=
  if is_nan x then None else Some (VFloat x).

(** Column [c'] is column [c] with its missing cells overwritten by [v]:
    same label, and row by row the cell of [c] if it is present, [v] if
    it is not. *)
Definition overwritten (v : option scalar) (c c' : Column) : Prop :=
  name c' = name c
  /\ cells (values c') = map (fill_cell v) (cells (values c)).

(** The column has a value; some categorical column of the table has
    one. *)
Definition has_value (c : Column) : bool :=
  existsb (fun x => negb (is_missing x)) (object_cells (values c)).

Definition has_category_value (data : DataFrame) : bool :=
  existsb (fun c => is_categorical c && has_value c) data.

(** What a call of [preprocess_data] on the table [data] leaves of its
    column [c]: of a numerical column, the column with its missing cells
    overwritten by its mean, of the same dtype; of a categorical column,
    when some categorical column of the table has a value, the column
    with its missing cells overwritten by its first mode, an object
    column still if it has a value itself; of any other column, and of
    a categorical column otherwise, the column as it was. *)
Definition filled_in_place (sum : list float -> float) (data : DataFrame)
    (c c' : Column) : Prop :=
  if is_numerical c then
    overwritten (float_cell (series_mean sum (values c))) c c'
    /\ dtype_of (values c') = dtype_of (values c)
  else if is_categorical c && has_category_value data then
    overwritten (option_map VStr (first_mode c)) c c'
    /\ (has_value c = true -> dtype_of (values c') = object)
  else c' = c.

(** No cell of the table is missing. *)
Definition complete (data : DataFrame) : Prop :=
  forall c, In c data -> ~ In None (cells (values c)).

(** The number of missing cells of a column. *)
Definition missing (s : Series) : nat :=
  length (filter (fun x => match x with None => true | Some _ => false end)
                 (cells s)).





(** Following the words "ties broken by first-encountered value in
    original column order": the first value, in row order, that is as
    frequent as any. *)
Definition first_encountered_mode (l : list (option string)) : option string :=
  find (fun v => count_of v l =? max_count l) (unique String.eqb (present l)).

(** The two layouts of the Correlation rows. *)
Inductive layout : Type := PlainScatter | JitteredStrip.

(** Following the rows "Correlation" of the selector's table: the layout
    and the column that supplies the colour groups, by type signature. *)
Definition resolve_correlation (sx sy : signature) (x y : string)
  : layout * option string :=
  match sx, sy with
  | Categorical, Categorical => (PlainScatter, Some x)
  | Categorical, Numerical => (JitteredStrip, Some x)
  | Numerical, Categorical => (JitteredStrip, Some y)
  | Numerical, Numerical => (PlainScatter, None)
  end.

(** The colours handed over with a drawing. *)
Definition palette_of (p : plot) : list color :=
  match p with
  | scatterplot _ _ _ palette => palette
  | stripplot _ _ _ palette => palette
  | pie _ _ => []
  end.

(** The layout, the grouping column and the axes of a drawing. *)
Definition correlation_of (p : plot)
  : option (layout * option string * (string * string)) :=
  match p with
  | scatterplot x y hue _ => Some (PlainScatter, hue, (x, y))
  | stripplot x y hue _ => Some (JitteredStrip, hue, (x, y))
  | pie _ _ => None
  end.

(* ------------------------------------------------------------------ *)
(** ** Tables                                                         *)
(* ------------------------------------------------------------------ *)

(** The scenario table of the description: ages 25, missing, 35. *)
Definition survey : DataFrame :=
  [ mkColumn "age" (FloatS [25; nan; 35]%float);
    mkColumn "city" (ObjectS [Some "NY"; Some "NY"; Some "LA"]) ]%string.

(** The scenario table with every age present. *)
Definition ages : DataFrame :=
  [ mkColumn "age" (IntS [25; 30; 35]%Z);
    mkColumn "city" (ObjectS [Some "NY"; Some "NY"; Some "LA"]) ]%string.

(** A numerical column that is constant. *)
Definition constant_age : DataFrame :=
  [ mkColumn "age" (IntS [5; 5; 5]%Z);
    mkColumn "city" (ObjectS [Some "NY"; Some "LA"; Some "NY"]) ]%string.

(** A constant column whose mean, in float64, is not its value. *)
Definition constant_tenth : DataFrame :=
  [ mkColumn "rate" (FloatS [0.1; 0.1; 0.1]%float);
    mkColumn "city" (ObjectS [Some "NY"; Some "LA"; Some "NY"]) ]%string.

(** A float column without a single value. *)
Definition all_missing : DataFrame :=
  [ mkColumn "score" (FloatS [nan; nan]%float);
    mkColumn "city" (ObjectS [Some "NY"; Some "LA"]) ]%string.


(** Two values tied for most frequent, the later one smaller. *)
Definition tied_table : DataFrame :=
  [ mkColumn "grade" (ObjectS [Some "b"; Some "a"; None]) ]%string.

(** A categorical column with a missing cell. *)
Definition gaps : DataFrame :=
  [ mkColumn "city" (ObjectS [Some "NY"; None; Some "LA"; Some "NY"]) ]%string.


(** A numerical column labelled like an indicator column of "a". *)
Definition clashing : DataFrame :=
  [ mkColumn "a_b" (IntS [1; 2; 3]%Z);
    mkColumn "a" (ObjectS [Some "b"; Some "c"; Some "b"]) ]%string.

(** The same with a second numerical column. *)
Definition clashing_twice : DataFrame :=
  [ mkColumn "a_b" (IntS [1; 2; 3]%Z);
    mkColumn "n" (IntS [1; 2; 3]%Z);
    mkColumn "a" (ObjectS [Some "b"; Some "c"; Some "b"]) ]%string.



(** The table that [preprocess_data] returns for [colliding]: one label
    twice. *)
Definition collided : DataFrame :=
  [ mkColumn "abc" (BoolS [true]); mkColumn "abc" (BoolS [true]) ]%string.

(** A Categorical and a Numerical column. *)
Definition mixed_table : DataFrame :=
  [ mkColumn "city" (ObjectS [Some "NY"; Some "NY"; Some "LA"]);
    mkColumn "age" (IntS [25; 30; 35]%Z) ]%string.

(** One int column. *)
Definition visits : DataFrame := [ mkColumn "visits" (IntS [1; 1; 2]%Z) ]%string.

(** One float column without a value. *)
Definition blank : DataFrame := [ mkColumn "score" (FloatS [nan; nan]%float) ]%string.

(* ------------------------------------------------------------------ *)
(** ** Further notions                                                 *)
(* ------------------------------------------------------------------ *)

(** No categorical column of the table has a single value. *)
Definition no_category_value (data : DataFrame) : Prop :=
  forall c s, In c data -> is_categorical c = true ->
              ~ In (Some s) (object_cells (values c)).

(** The label has no underscore. *)
Definition underscore_free (s : string) : Prop :=
  ~ In "_"%char (list_ascii_of_string s).

(** A table of numbers that has a categorical column without a value. *)
Definition no_city : DataFrame :=
  [ mkColumn "age" (FloatS [25; nan; 35]%float);
    mkColumn "city" (ObjectS [None; None; None]) ]%string.

(** Largest first. *)
Definition descending (counts : list nat) : Prop :=
  ascending (fun a b => b <=? a) counts.

(** A categorical column with a missing cell in the second row. *)
Definition towns : DataFrame :=
  [ mkColumn "town" (ObjectS [Some "NY"; None; Some "LA"; Some "NY"]);
    mkColumn "age" (IntS [25; 30; 35; 40]%Z) ]%string.

(** The five spellings of an extension that [load_data] accepts. *)
Definition supported_extensions : list string :=
  [".csv"; ".xls"; ".xlsx"; ".db"; ".sql"]%string.

(** The parts of a run. *)
Definition effects_of {A : Type} (r : list effect * list string * (stop + A))
  : list effect := fst (fst r).

Definition lines_left {A : Type} (r : list effect * list string * (stop + A))
  : list string := snd (fst r).

Definition result_of {A : Type} (r : list effect * list string * (stop + A))
  : stop + A := snd r.

(** The calls of chart functions that have drawn, among the effects, and
    the table a call is made on. *)
Definition calls (out : list effect) : list call :=
  flat_map (fun e => match e with Visualize c => [c] | _ => [] end) out.


Definition is_boxplot_call (c : call) : Prop :=
  match c with
  | call_boxplot _ _ _ => True
  | _ => False
  end.

(** [int] on decimal numerals, for the examples. *)
Definition decimal_int (s : string) : option Z :=
  match NilEmpty.uint_of_string s with
  | Some u => Some (Z.of_nat (Nat.of_uint u))
  | None => None
  end.

(** An environment for the examples: one file, "ages.csv", holds the
    table [ages]; the database "shop.db" has no table; the database
    "bad.db" is no database. *)
Definition example_env : Environment :=
  mkEnvironment decimal_int (fun s => s) (fun _ => "error"%string)
    (fun k => seq 0 k) 0 (fun _ => [])
    (fun p => if String.eqb p "ages.csv" then inr ages else inl FileNotFoundError)
    (fun _ => inl FileNotFoundError)
    (fun _ => inr tt)
    (fun p => if String.eqb p "bad.db" then inl SqliteError else inr None)
    (fun _ _ => inl SqliteError)
    sequential.

(** A program that leaves no more lines than it is given and does not
    run out of fuel. *)
Definition steady {A : Type} (m : io A) : Prop :=
  forall lines,
    length (lines_left (m lines)) <= length lines
    /\ result_of (m lines) <> inl OutOfFuel.

(** A steady program that reads a line unless the input is at its end. *)
Definition eager {A : Type} (m : io A) : Prop :=
  steady m
  /\ forall lines,
       result_of (m lines) = inl (Raised EOFError)
       \/ length (lines_left (m lines)) < length lines.

(** With [fuel] beyond the lines that are left, a program that leaves no
    more lines than it is given and does not run out of fuel. *)
Definition within {A : Type} (fuel : nat) (m : io A) : Prop :=
  forall lines,
    length lines < fuel ->
    length (lines_left (m lines)) <= length lines
    /\ result_of (m lines) <> inl OutOfFuel.

(** A program that reads its lines from those it is given, and stops at
    an [exit()] only when one of them is 'exit', in whatever case. *)
Definition exits_when_asked (env : Environment) {A : Type} (m : io A)
  : Prop :=
  forall lines,
    incl (lines_left (m lines)) lines
    /\ (result_of (m lines) = inl Exited ->
        exists line, In line lines /\ lower env line = "exit"%string).

(** A program that calls no chart function. *)
Definition quiet {A : Type} (m : io A) : Prop :=
  forall lines, calls (effects_of (m lines)) = [].

(** A program whose calls of chart functions all satisfy [P]. *)
Definition calling {A : Type} (P : call -> Prop) (m : io A) : Prop :=
  forall lines, Forall P (calls (effects_of (m lines))).

(* ================================================================== *)
(** * Part 4: properties                                               *)
(* ================================================================== *)

(** Case analysis on the storage type of a column. *)
Ltac by_dtype c :=
  destruct c as [? [?|?|?|?]]; simpl in *; try reflexivity; try discriminate.

(* ------------------------------------------------------------------ *)
(** ** Labelled rows                                                   *)
(* ------------------------------------------------------------------ *)

Section Lookup.
Variables A B : Type.
Variable key : A -> string.
Variable f : A -> B.

Lemma lookup_absent (k : string) (l : list A) :
  ~ In k (map key l) -> lookup k (map (fun a => (key a, f a)) l) = None.
Proof.
  induction l as [|a l IH]; simpl; intros Hk; [reflexivity|].
  destruct (String.eqb_spec (key a) k) as [E|E].
  - exfalso. apply Hk. now left.
  - apply IH. intros H. apply Hk. now right.
Qed.

Lemma lookup_present (a : A) (l : list A) :
  NoDup (map key l) -> In a l ->
  lookup (key a) (map (fun a => (key a, f a)) l) = Some (f a).
Proof.
  induction l as [|b l IH]; simpl; intros Hnd Hin; [contradiction|].
  inversion Hnd as [|? ? Hnotin Hnd']; subst.
  destruct Hin as [->|Hin].
  - now rewrite String.eqb_refl.
  - destruct (String.eqb_spec (key b) (key a)) as [E|E].
    + exfalso. apply Hnotin. rewrite E. now apply in_map.
    + now apply IH.
Qed.
End Lookup.

Lemma combine_map_map (A B C : Type) (f : A -> B) (g : A -> C) (l : list A) :
  combine (map f l) (map g l) = map (fun a => (f a, g a)) l.
Proof. induction l; simpl; congruence. Qed.

(* ------------------------------------------------------------------ *)
(** ** Selection and assignment through unique labels                  *)
(* ------------------------------------------------------------------ *)

Lemma NoDup_columns_filter (p : Column -> bool) (df : DataFrame) :
  NoDup (columns df) -> NoDup (columns (filter p df)).
Proof.
  unfold columns. induction df as [|c df IH]; simpl; intros H; [constructor|].
  inversion H as [|? ? Hc Hdf]; subst.
  destruct (p c); simpl; auto.
  constructor; auto.
  intros Hin. apply Hc. apply in_map_iff in Hin as (c' & E & Hc').
  apply filter_In in Hc' as [Hc' _]. rewrite <- E. now apply in_map.
Qed.

Lemma NoDup_separated (p : Column -> bool) (df : DataFrame) :
  NoDup (columns df) -> separated p df.
Proof.
  intros Hnd. split; [now apply NoDup_columns_filter|].
  unfold columns in *. induction df as [|c df IH]; simpl; intros c0 Hin Hp; [contradiction|].
  inversion Hnd as [|? ? Hc Hdf]; subst.
  assert (Hsub : forall k, In k (map name (filter p df)) -> In k (map name df)).
  { intros k Hk. apply in_map_iff in Hk as (c' & E & Hc').
    apply filter_In in Hc' as [Hc' _]. rewrite <- E. now apply in_map. }
  destruct Hin as [->|Hin].
  - rewrite Hp. intros Hk. apply Hc. now apply Hsub.
  - destruct (p c) eqn:Hpc; simpl.
    + intros [E|Hk].
      * apply Hc. rewrite E. now apply in_map.
      * now apply (IH Hdf c0).
    + now apply IH.
Qed.

Lemma filter_label_single (c : Column) (l : DataFrame) :
  NoDup (columns l) -> In c l ->
  filter (fun c' => String.eqb (name c') (name c)) l = [c].
Proof.
  unfold columns. induction l as [|b l IH]; simpl; intros Hnd Hin; [contradiction|].
  inversion Hnd as [|? ? Hb Hl]; subst.
  destruct Hin as [->|Hin].
  - rewrite String.eqb_refl. f_equal.
    clear IH Hl Hnd. revert Hb.
    induction l as [|d l IH]; simpl; intros Hb; [reflexivity|].
    destruct (String.eqb_spec (name d) (name c)) as [E|E].
    + exfalso. apply Hb. left. exact E.
    + apply IH. intros H. apply Hb. now right.
  - destruct (String.eqb_spec (name b) (name c)) as [E|E].
    + exfalso. apply Hb. rewrite E. now apply in_map.
    + now apply IH.
Qed.

Lemma filter_filter_label (p : Column -> bool) (df : DataFrame) (k : string) :
  (forall c, In c df -> p c = false -> name c <> k) ->
  filter (fun c => String.eqb (name c) k) df
  = filter (fun c => String.eqb (name c) k) (filter p df).
Proof.
  induction df as [|c df IH]; simpl; intros H; [reflexivity|].
  assert (IH' := IH (fun c' Hc' => H c' (or_intror Hc'))).
  destruct (p c) eqn:Hp; simpl.
  - now rewrite IH'.
  - destruct (String.eqb_spec (name c) k) as [E|E]; [|exact IH'].
    exfalso. exact (H c (or_introl eq_refl) Hp E).
Qed.

Lemma flat_map_agree (A B : Type) (f g : A -> list B) (l : list A) :
  (forall a, In a l -> f a = g a) -> flat_map f l = flat_map g l.
Proof.
  induction l as [|a l IH]; simpl; intros H; [reflexivity|].
  rewrite (H a (or_introl eq_refl)), IH; [reflexivity|].
  intros; apply H; now right.
Qed.

Lemma flat_map_singleton (A : Type) (l : list A) :
  flat_map (fun a => [a]) l = l.
Proof. induction l; simpl; congruence. Qed.

(** [df[labels of the p-columns]] is the frame of the p-columns. *)
Lemma getitem_filter (p : Column -> bool) (df : DataFrame) :
  separated p df -> getitem df (columns (filter p df)) = filter p df.
Proof.
  intros [Hnd Hsep]. unfold getitem, columns.
  rewrite flat_map_concat_map, map_map, <- flat_map_concat_map.
  transitivity (flat_map (fun c => [c]) (filter p df)).
  - assert (H : forall l, (forall c, In c l -> In c (filter p df)) ->
      flat_map (fun x => filter (fun c => String.eqb (name c) (name x)) df) l
      = flat_map (fun c => [c]) l).
    { induction l as [|c l IH]; simpl; intros Hl; [reflexivity|].
      rewrite IH by (intros; apply Hl; now right).
      rewrite (@filter_filter_label p).
      - rewrite filter_label_single; [reflexivity | exact Hnd | apply Hl; now left].
      - intros c' Hc' Hp E. apply (Hsep c' Hc' Hp).
        unfold columns. rewrite E. apply in_map. apply Hl. now left. }
    apply H. auto.
  - apply flat_map_singleton.
Qed.

Lemma set_column_present (df : DataFrame) (k : string) (v : Series) :
  In k (columns df) ->
  set_column df k v
  = map (fun c => if String.eqb (name c) k then mkColumn k v else c) df.
Proof.
  intros Hin. unfold set_column.
  replace (existsb (fun c => String.eqb (name c) k) df) with true; [reflexivity|].
  symmetry. apply existsb_exists.
  apply in_map_iff in Hin as (c & E & Hc).
  exists c. split; [exact Hc|]. now apply String.eqb_eq.
Qed.

(* ------------------------------------------------------------------ *)
(** ** Item assignment                                                 *)
(* ------------------------------------------------------------------ *)

Lemma is_unique_NoDup (labels : Index) : NoDup labels -> is_unique labels = true.
Proof.
  induction 1 as [|k rest Hk _ IH]; simpl; [reflexivity|].
  rewrite IH, andb_true_r. apply negb_true_iff.
  destruct (existsb _ rest) eqn:E; [|reflexivity].
  apply existsb_exists in E as (k' & Hk' & E). apply String.eqb_eq in E.
  subst. contradiction.
Qed.

Lemma is_unique_true (labels : Index) : is_unique labels = true -> NoDup labels.
Proof.
  induction labels as [|k rest IH]; simpl; intros H; constructor.
  - apply andb_true_iff in H as [H _]. apply negb_true_iff in H.
    intros Hk. assert (E : existsb (String.eqb k) rest = true).
    { apply existsb_exists. exists k. split; [exact Hk|apply String.eqb_refl]. }
    congruence.
  - apply IH. now apply andb_true_iff in H as [_ H].
Qed.

Lemma occurrences_columns (k : string) (df : DataFrame) :
  occurrences k (columns df)
  = length (filter (fun c => String.eqb (name c) k) df).
Proof.
  unfold occurrences, columns. induction df as [|c df IH]; simpl; [reflexivity|].
  rewrite (String.eqb_sym k (name c)).
  destruct (String.eqb (name c) k); simpl; now rewrite IH.
Qed.

(** A label of the [p]-columns occurs once in the frame. *)
Lemma occurrences_separated (p : Column -> bool) (df : DataFrame) (c : Column) :
  separated p df -> In c (filter p df) ->
  occurrences (name c) (columns df) = 1.
Proof.
  intros [Hnd Hsep] Hc. rewrite occurrences_columns.
  rewrite (@filter_filter_label p).
  - now rewrite filter_label_single.
  - intros c' Hc' Hp E. apply (Hsep c' Hc' Hp).
    unfold columns. rewrite E. now apply in_map.
Qed.

Lemma occurrences_In (k : string) (labels : Index) :
  occurrences k labels = 1 -> In k labels.
Proof.
  unfold occurrences. intros H.
  destruct (filter (String.eqb k) labels) as [|k' rest] eqn:E; [discriminate|].
  assert (Hk : In k' (filter (String.eqb k) labels)) by (rewrite E; now left).
  apply filter_In in Hk as [Hk Ek]. apply String.eqb_eq in Ek. now subst.
Qed.

Lemma check_key_length_once (cols key : Index) (value : DataFrame) :
  (forall k, In k key -> occurrences k cols = 1) ->
  length value = length key ->
  check_key_length cols key value = true.
Proof.
  intros Hocc Hlen. unfold check_key_length.
  destruct (is_unique cols); apply Nat.eqb_eq; [exact Hlen|].
  rewrite Hlen. clear Hlen.
  rewrite (map_ext_in _ (fun _ => 1)).
  - induction key as [|k key IH]; simpl; [reflexivity|].
    f_equal. apply IH. intros; apply Hocc; now right.
  - intros k Hk. now rewrite (Hocc k Hk).
Qed.

Lemma getitem_single (value : DataFrame) (c : Column) :
  NoDup (columns value) -> In c value -> getitem value [name c] = [c].
Proof.
  intros Hnd Hc. unfold getitem. simpl. rewrite app_nil_r.
  now apply filter_label_single.
Qed.

Lemma columns_set_column (df : DataFrame) (k : string) (v : Series) :
  In k (columns df) -> columns (set_column df k v) = columns df.
Proof.
  intros Hk. rewrite set_column_present by exact Hk.
  unfold columns. rewrite map_map. apply map_ext. intros c.
  destruct (String.eqb_spec (name c) k); simpl; congruence.
Qed.

(** With labels that [value] has once each, the loop of the assignment
    sets one column after the other and does not raise. *)
Lemma assign_columns (value : DataFrame) (sel : DataFrame) :
  NoDup (columns value) -> incl sel value ->
  forall df,
    assign df (map (fun c => (name c, name c)) sel) value
    = (fold_left (fun d c => set_column d (name c) (values c)) sel df, None).
Proof.
  intros Hnd. induction sel as [|c sel IH]; intros Hsub df; simpl;
    [reflexivity|].
  unfold set_item. rewrite getitem_single; [|exact Hnd|apply Hsub; now left].
  apply IH. intros d Hd. apply Hsub. now right.
Qed.

Lemma set_columns_overlay (sel : DataFrame) :
  NoDup (columns sel) ->
  forall df,
    (forall c, In c sel -> In (name c) (columns df)) ->
    fold_left (fun d c => set_column d (name c) (values c)) sel df
    = map (fun c =>
             match lookup (name c) (map (fun d => (name d, values d)) sel) with
             | Some v => mkColumn (name c) v
             | None => c
             end) df.
Proof.
  induction sel as [|d sel IH]; intros Hnd df Hin; simpl.
  - symmetry. apply map_id.
  - inversion Hnd as [|? ? Hd Hnd']; subst.
    rewrite IH.
    + rewrite set_column_present by (apply Hin; now left).
      rewrite map_map. apply map_ext. intros c.
      destruct (String.eqb_spec (name c) (name d)) as [E|E]; simpl.
      * rewrite (lookup_absent name values) by exact Hd.
        rewrite E, String.eqb_refl. reflexivity.
      * destruct (String.eqb_spec (name d) (name c)) as [E'|E'];
          [congruence|reflexivity].
    + exact Hnd'.
    + intros c Hc. rewrite columns_set_column by (apply Hin; now left).
      apply Hin. now right.
Qed.

(** Assignment under labels that do not repeat and that the frame has
    once each: every column named by the key takes the cells the value
    frame has under its label; the others stay; nothing is raised. *)
Lemma setitem_columns (df sel : DataFrame) (g : Column -> Series) :
  NoDup (columns sel) ->
  (forall c, In c sel -> occurrences (name c) (columns df) = 1) ->
  setitem df (columns sel) (map (fun c => mkColumn (name c) (g c)) sel)
  = (map (fun c =>
            match lookup (name c) (map (fun d => (name d, g d)) sel) with
            | Some v => mkColumn (name c) v
            | None => c
            end) df, None).
Proof.
  intros Hnd Hocc. unfold setitem.
  set (value := map (fun c => mkColumn (name c) (g c)) sel).
  assert (Hcols : columns value = columns sel).
  { unfold value, columns. rewrite map_map. reflexivity. }
  rewrite check_key_length_once.
  - rewrite Hcols.
    replace (combine (columns sel) (columns sel))
      with (map (fun c => (name c, name c)) value).
    + rewrite assign_columns;
        [|now rewrite Hcols|apply incl_refl].
      rewrite set_columns_overlay.
      * unfold value. now rewrite map_map.
      * now rewrite Hcols.
      * intros c Hc. unfold value in Hc.
        apply in_map_iff in Hc as (c0 & <- & Hc0). simpl.
        apply occurrences_In. now apply Hocc.
    + unfold value, columns. rewrite map_map. simpl.
      now rewrite combine_map_map.
  - intros k Hk. unfold columns in Hk.
    apply in_map_iff in Hk as (c & <- & Hc). now apply Hocc.
  - unfold value, columns. now rewrite !length_map.
Qed.

(** [df[labels of the p-columns] = g applied to each of them]. *)
Lemma setitem_map (p : Column -> bool) (g : Column -> Series) (df : DataFrame) :
  separated p df ->
  setitem df (columns (filter p df))
          (map (fun c => mkColumn (name c) (g c)) (filter p df))
  = (update p g df, None).
Proof.
  intros Hsep. rewrite setitem_columns.
  - unfold update. apply (f_equal (fun d => (d, @None condition))).
    apply map_ext_in. intros c Hc.
    destruct (p c) eqn:Hp.
    + rewrite (lookup_present name g); [reflexivity|exact (proj1 Hsep)|].
      apply filter_In. now split.
    + rewrite (lookup_absent name g); [reflexivity|].
      exact (proj2 Hsep c Hc Hp).
  - exact (proj1 Hsep).
  - intros c Hc. now apply (@occurrences_separated p).
Qed.

(** Whatever the frames, an item assignment raises nothing but
    [ValueError]. *)
Lemma setitem_raises (df value : DataFrame) (key : Index) (e : condition) :
  snd (setitem df key value) = Some e -> e = LengthMismatch.
Proof.
  unfold setitem. destruct (check_key_length _ _ _); [|simpl; congruence].
  generalize (combine key (columns value)). intros pairs. revert df.
  induction pairs as [|[k1 k2] pairs IH]; intros df; simpl; [discriminate|].
  destruct (set_item df k1 value k2) as [df'|e'] eqn:E; [apply IH|].
  simpl. intros [= <-]. unfold set_item, set_frame in E.
  destruct (getitem value [k2]) as [|c [|c' v]];
    repeat match type of E with
           | context [if ?b then _ else _] => destruct b
           end; congruence.
Qed.

(* ------------------------------------------------------------------ *)
(** ** [preprocess_data], column by column                             *)
(* ------------------------------------------------------------------ *)

Lemma filter_map_stable (p : Column -> bool) (f : Column -> Column) (l : DataFrame) :
  (forall c, p (f c) = p c) -> filter p (map f l) = map f (filter p l).
Proof.
  intros H. induction l as [|c l IH]; simpl; [reflexivity|].
  rewrite H. destruct (p c); simpl; congruence.
Qed.

Lemma columns_map (f : Column -> Column) (l : DataFrame) :
  (forall c, name (f c) = name c) -> columns (map f l) = columns l.
Proof. intros H. unfold columns. rewrite map_map. apply map_ext. exact H. Qed.

Lemma columns_update (p : Column -> bool) (g : Column -> Series) (df : DataFrame) :
  columns (update p g df) = columns df.
Proof. apply columns_map. intros c. now destruct (p c). Qed.

(** Selection by label commutes with a change of cells. *)
Lemma getitem_map (f : Column -> Column) (df : DataFrame) (key : Index) :
  (forall c, name (f c) = name c) ->
  getitem (map f df) key = map f (getitem df key).
Proof.
  intros H. unfold getitem. induction key as [|k key IH]; simpl; [reflexivity|].
  rewrite map_app, IH. f_equal.
  apply filter_map_stable. intros c. now rewrite H.
Qed.

Lemma drop_map (f : Column -> Column) (df : DataFrame) (labels : Index) :
  (forall c, name (f c) = name c) ->
  drop (map f df) labels = map f (drop df labels).
Proof.
  intros H. unfold drop. apply filter_map_stable. intros c. now rewrite H.
Qed.

Lemma series_fillna_dtype (s : Series) (v : float) :
  dtype_of (series_fillna s v) = dtype_of s.
Proof. now destruct s. Qed.

Lemma is_categorical_dtype (c c' : Column) :
  dtype_of (values c) = dtype_of (values c') -> is_categorical c = is_categorical c'.
Proof. unfold is_categorical. now intros ->. Qed.

Lemma is_numerical_dtype (c c' : Column) :
  dtype_of (values c) = dtype_of (values c') -> is_numerical c = is_numerical c'.
Proof. unfold is_numerical. now intros ->. Qed.

Lemma numerical_not_categorical (c : Column) :
  is_numerical c = true -> is_categorical c = false.
Proof. by_dtype c. Qed.

Lemma categorical_not_numerical (c : Column) :
  is_categorical c = true -> is_numerical c = false.
Proof. by_dtype c. Qed.

Lemma categorical_is_object (c : Column) :
  is_categorical c = true -> values c = ObjectS (object_cells (values c)).
Proof. by_dtype c. Qed.

Lemma drop_categorical (df : DataFrame) :
  NoDup (columns df) ->
  drop df (columns (filter is_categorical df))
  = filter not_categorical df.
Proof.
  intros Hnd. unfold drop, not_categorical. apply filter_ext_in. intros c Hc. f_equal.
  destruct (is_categorical c) eqn:Hp.
  - apply existsb_exists. exists (name c). split; [|apply String.eqb_refl].
    unfold columns. apply in_map. apply filter_In. now split.
  - destruct (existsb _ _) eqn:E; [|reflexivity].
    apply existsb_exists in E as (k & Hk & E). apply String.eqb_eq in E. subst k.
    exfalso. exact (proj2 (@NoDup_separated is_categorical df Hnd) c Hc Hp Hk).
Qed.

Lemma indicators_bool (c d : Column) :
  In d (indicators c) -> dtype_of (values d) = bool_.
Proof.
  unfold indicators, get_dummies_1d. intros H.
  apply in_map_iff in H as (v & <- & _). reflexivity.
Qed.

Lemma indicator_columns_bool (data : DataFrame) (d : Column) :
  In d (indicator_columns data) -> dtype_of (values d) = bool_.
Proof.
  unfold indicator_columns, indicator_block. intros H.
  apply in_flat_map in H as (c & _ & H). exact (indicators_bool _ _ H).
Qed.

Lemma filter_none (A : Type) (p : A -> bool) (l : list A) :
  (forall a, In a l -> p a = false) -> filter p l = [].
Proof.
  induction l as [|a l IH]; simpl; intros H; [reflexivity|].
  rewrite (H a (or_introl eq_refl)). apply IH. intros; apply H; now right.
Qed.

Lemma filter_all (A : Type) (p : A -> bool) (l : list A) :
  (forall a, In a l -> p a = true) -> filter p l = l.
Proof.
  induction l as [|a l IH]; simpl; intros H; [reflexivity|].
  rewrite (H a (or_introl eq_refl)). f_equal. apply IH. intros; apply H; now right.
Qed.

Lemma filter_filter_sub (A : Type) (p q : A -> bool) (l : list A) :
  (forall a, p a = true -> q a = true) -> filter p (filter q l) = filter p l.
Proof.
  intros H. induction l as [|a l IH]; simpl; [reflexivity|].
  destruct (q a) eqn:Hq; simpl.
  - now rewrite IH.
  - destruct (p a) eqn:Hp; [|exact IH]. apply H in Hp. congruence.
Qed.

Lemma iloc0_mode (sel : DataFrame) :
  iloc0 (mode sel)
  = if mode_rows (mode sel) =? 0 then Raise IndexError
    else Ok (map (fun c => (name c, first_mode c)) sel).
Proof.
  unfold iloc0. destruct (mode_rows (mode sel) =? 0); [reflexivity|].
  unfold mode. now rewrite map_map.
Qed.

Lemma fillna_object_mode_own (sel : DataFrame) :
  NoDup (columns sel) ->
  fillna_object sel (map (fun c => (name c, first_mode c)) sel)
  = map (fun c => mkColumn (name c) (impute_mode c)) sel.
Proof.
  intros Hnd. unfold fillna_object. apply map_ext_in. intros c Hc.
  now rewrite (lookup_present name first_mode).
Qed.

(** What [get_dummies] makes of a listed column that the categorical
    fill has been through. *)
Lemma encode_filled (c : Column) :
  is_categorical c = true ->
  match impute_mode c with
  | ObjectS l => get_dummies_1d (name c) l
  | FloatS l => if forallb is_nan l then [] else [mkColumn (name c) (impute_mode c)]
  | _ => [mkColumn (name c) (impute_mode c)]
  end = indicator_block c.
Proof.
  intros Hc. unfold indicator_block, indicators, impute_mode.
  rewrite (categorical_is_object c Hc). simpl.
  destruct (existsb is_missing _ && forallb is_missing _); simpl; [|reflexivity].
  replace (forallb is_nan _) with true; [reflexivity|].
  symmetry. apply forallb_forall. intros x Hx.
  apply in_map_iff in Hx as (y & <- & _). reflexivity.
Qed.

Lemma broadcast_map (op : float -> float -> float) (g : Column -> Column)
    (h : Column -> string * float) (df : DataFrame) :
  broadcast op (map g df) (map h df)
  = map (fun c => mkColumn (name (g c))
                    (FloatS (map (fun x => op x (snd (h c)))
                                 (to_floats (values (g c)))))) df.
Proof.
  unfold broadcast. induction df as [|c df IH]; simpl; [reflexivity|].
  now rewrite IH.
Qed.

Section Pipeline.
Variable sum : list float -> float.

Lemma impute_mean_dtype (c : Column) :
  dtype_of (impute_mean sum c) = dtype_of (values c).
Proof. apply series_fillna_dtype. Qed.

Lemma fill_column_name (c : Column) : name (fill_column sum c) = name c.
Proof.
  unfold fill_column. destruct (is_numerical c); [reflexivity|].
  now destruct (is_categorical c).
Qed.

Lemma imputed_fill (data : DataFrame) :
  imputed sum data = map (fill_column sum) data.
Proof.
  unfold imputed, imputed_numerical, update. rewrite map_map.
  apply map_ext. intros c. unfold fill_column.
  destruct (is_numerical c) eqn:Hn; [|reflexivity].
  rewrite (@is_categorical_dtype (mkColumn (name c) (impute_mean sum c)) c)
    by apply impute_mean_dtype.
  now rewrite (numerical_not_categorical c Hn).
Qed.

(** Numerical imputation does not touch a categorical column. *)
Lemma filter_categorical_imputed_numerical (data : DataFrame) :
  filter is_categorical (imputed_numerical sum data) = filter is_categorical data.
Proof.
  unfold imputed_numerical, update.
  rewrite filter_map_stable.
  - rewrite <- (map_id (filter is_categorical data)) at 2.
    apply map_ext_in. intros c Hc. apply filter_In in Hc as [_ Hc].
    now rewrite (categorical_not_numerical c Hc).
  - intros c. destruct (is_numerical c); [|reflexivity].
    apply is_categorical_dtype, impute_mean_dtype.
Qed.

Lemma columns_imputed_numerical (data : DataFrame) :
  columns (imputed_numerical sum data) = columns data.
Proof. apply columns_update. Qed.

(** The frame-level calls on a selection with unique labels, column by
    column. *)
Lemma fillna_mean_own (sel : DataFrame) :
  NoDup (columns sel) ->
  fillna sel (mean sum sel)
  = map (fun c => mkColumn (name c) (impute_mean sum c)) sel.
Proof.
  intros Hnd. unfold fillna, mean. apply map_ext_in. intros c Hc.
  now rewrite (lookup_present name (fun c => series_mean sum (values c))).
Qed.

(** The scaling of a frame by its own mean and standard deviation. *)
Lemma scale_own (sel : DataFrame) :
  div (sub sel (mean sum sel)) (std sum sel)
  = map (fun c => mkColumn (name c) (standardize sum c)) sel.
Proof.
  unfold div, sub, mean, std.
  rewrite <- (map_id sel) at 1. rewrite broadcast_map.
  rewrite broadcast_map. apply map_ext. intros c. simpl.
  unfold standardize. now rewrite map_map.
Qed.

(** The numerical columns of the encoded frame are the numerical columns
    of the table, filled. *)
Lemma filter_numerical_encoded (data : DataFrame) :
  filter is_numerical (encoded sum data)
  = map (fun c => mkColumn (name c) (impute_mean sum c))
        (filter is_numerical data).
Proof.
  unfold encoded. rewrite filter_app.
  rewrite (@filter_none _ is_numerical (indicator_columns data)).
  - rewrite app_nil_r. unfold update.
    rewrite filter_map_stable.
    + rewrite filter_filter_sub.
      * apply map_ext_in. intros c Hc. apply filter_In in Hc as [_ Hc].
        now rewrite Hc.
      * intros c Hc. unfold not_categorical.
        now rewrite (numerical_not_categorical c Hc).
    + intros c. destruct (is_numerical c) eqn:Hn; [|exact Hn].
      rewrite <- Hn. apply is_numerical_dtype, impute_mean_dtype.
  - intros d Hd. apply indicator_columns_bool in Hd.
    unfold is_numerical. now rewrite Hd.
Qed.

Lemma columns_numerical_encoded (data : DataFrame) :
  columns (filter is_numerical (encoded sum data))
  = columns (filter is_numerical data).
Proof. rewrite filter_numerical_encoded. now apply columns_map. Qed.

Lemma separated_numerical_encoded (data : DataFrame) :
  NoDup (columns data) -> no_clash data ->
  separated is_numerical (encoded sum data).
Proof.
  intros Hnd Hclash. split; rewrite columns_numerical_encoded.
  - now apply NoDup_columns_filter.
  - intros c Hc Hp. unfold encoded in Hc.
    apply in_app_or in Hc as [Hc|Hc]; [|now apply Hclash].
    unfold update in Hc. apply in_map_iff in Hc as (c0 & E & Hc0).
    apply filter_In in Hc0 as [Hc0 _].
    destruct (is_numerical c0) eqn:Hn.
    + subst c. rewrite (@is_numerical_dtype _ c0) in Hp
        by apply impute_mean_dtype. congruence.
    + subst c. exact (proj2 (@NoDup_separated is_numerical data Hnd) c0 Hc0 Hn).
Qed.

(** The statements of [preprocess_data], one by one, on a frame whose
    labels are unique. *)
Section Stages.
Variable data : DataFrame.
Hypothesis labels_unique : NoDup (columns data).

Lemma stage_fill_numerical :
  setitem data (columns (select_dtypes [int64; float64] data))
    (fillna (getitem data (columns (select_dtypes [int64; float64] data)))
            (mean sum (getitem data (columns (select_dtypes [int64; float64] data)))))
  = (imputed_numerical sum data, None).
Proof.
  unfold select_dtypes. fold is_numerical.
  assert (Hsep := @NoDup_separated is_numerical data labels_unique).
  rewrite getitem_filter by exact Hsep.
  rewrite fillna_mean_own by now apply NoDup_columns_filter.
  now apply setitem_map.
Qed.

Lemma stage_select_categorical :
  getitem (imputed_numerical sum data) (columns (select_dtypes [object] data))
  = filter is_categorical data.
Proof.
  unfold select_dtypes. fold is_categorical.
  rewrite <- filter_categorical_imputed_numerical.
  apply getitem_filter, NoDup_separated.
  now rewrite columns_imputed_numerical.
Qed.

Lemma stage_fill_categorical :
  setitem (imputed_numerical sum data) (columns (select_dtypes [object] data))
    (fillna_object (filter is_categorical data)
       (map (fun c => (name c, first_mode c)) (filter is_categorical data)))
  = (imputed sum data, None).
Proof.
  rewrite fillna_object_mode_own by now apply NoDup_columns_filter.
  unfold select_dtypes. fold is_categorical.
  rewrite <- filter_categorical_imputed_numerical.
  apply setitem_map, NoDup_separated.
  now rewrite columns_imputed_numerical.
Qed.

Lemma stage_encode :
  get_dummies (imputed sum data) (columns (select_dtypes [object] data))
  = encoded sum data.
Proof.
  unfold select_dtypes. fold is_categorical.
  unfold get_dummies, encoded. rewrite imputed_fill.
  rewrite drop_map, getitem_map by apply fill_column_name.
  rewrite drop_categorical by exact labels_unique.
  rewrite getitem_filter by now apply NoDup_separated.
  f_equal.
  - unfold update. apply map_ext_in. intros c Hc.
    apply filter_In in Hc as [_ Hc]. unfold not_categorical in Hc.
    apply negb_true_iff in Hc. unfold fill_column. now rewrite Hc.
  - unfold indicator_columns.
    rewrite flat_map_concat_map, map_map, <- flat_map_concat_map.
    apply flat_map_agree. intros c Hc. apply filter_In in Hc as [_ Hc].
    unfold fill_column.
    rewrite (categorical_not_numerical c Hc), Hc. simpl.
    now apply encode_filled.
Qed.

Lemma preprocess_data_stages :
  preprocess_data sum data
  = if has_mode_row data then (imputed sum data, scaled_outcome sum data)
    else (imputed_numerical sum data, Raise IndexError).
Proof.
  unfold preprocess_data.
  rewrite stage_fill_numerical, stage_select_categorical, iloc0_mode.
  unfold has_mode_row.
  destruct (mode_rows (mode (filter is_categorical data)) =? 0); simpl;
    [reflexivity|].
  rewrite stage_fill_categorical, stage_encode. unfold scaled_outcome.
  now destruct (setitem _ _ _) as [df [e|]].
Qed.

Lemma scaled_outcome_not_IndexError :
  scaled_outcome sum data <> Raise IndexError.
Proof.
  unfold scaled_outcome.
  destruct (setitem _ _ _) as [df [e|]] eqn:E; [|discriminate].
  assert (H := @setitem_raises _ _ _ e (f_equal snd E)). congruence.
Qed.

Lemma stage_scale :
  no_clash data -> scaled_outcome sum data = Ok (prepared sum data).
Proof.
  intros Hclash. unfold scaled_outcome.
  assert (Hsep := separated_numerical_encoded labels_unique Hclash).
  assert (Hcols : columns (select_dtypes [int64; float64] data)
                  = columns (filter is_numerical (encoded sum data))).
  { unfold select_dtypes. fold is_numerical.
    now rewrite columns_numerical_encoded. }
  rewrite Hcols, getitem_filter by exact Hsep.
  rewrite scale_own, setitem_map by exact Hsep.
  reflexivity.
Qed.
End Stages.

(** [preprocess_data] raises [IndexError] exactly when the categorical
    selection has no mode row, and only numerical cells have been filled
    by then. *)
Lemma preprocess_data_raises (data : DataFrame) :
  NoDup (columns data) -> has_mode_row data = false ->
  preprocess_data sum data = (imputed_numerical sum data, Raise IndexError).
Proof. intros Hnd Hm. now rewrite preprocess_data_stages, Hm. Qed.

(** Otherwise it returns the prepared frame and leaves the imputed frame
    to the caller. *)
Lemma preprocess_data_returns (data : DataFrame) :
  NoDup (columns data) -> has_mode_row data = true -> no_clash data ->
  preprocess_data sum data = (imputed sum data, Ok (prepared sum data)).
Proof.
  intros Hnd Hm Hclash. rewrite preprocess_data_stages, Hm by exact Hnd.
  now rewrite stage_scale.
Qed.

Lemma preprocess_data_caller_frame (data : DataFrame) :
  NoDup (columns data) ->
  fst (preprocess_data sum data)
  = if has_mode_row data then imputed sum data else imputed_numerical sum data.
Proof.
  intros Hnd. rewrite preprocess_data_stages by exact Hnd.
  now destruct (has_mode_row data).
Qed.

(** When [preprocess_data] returns, it returns [prepared]. *)
Lemma preprocess_data_returned (data r : DataFrame) :
  NoDup (columns data) -> no_clash data ->
  snd (preprocess_data sum data) = Ok r ->
  has_mode_row data = true /\ r = prepared sum data.
Proof.
  intros Hnd Hclash Hr. destruct (has_mode_row data) eqn:Hm.
  - rewrite preprocess_data_returns in Hr by assumption.
    simpl in Hr. split; congruence.
  - rewrite preprocess_data_raises in Hr by assumption. discriminate.
Qed.

End Pipeline.

(* ------------------------------------------------------------------ *)
(** ** Sorting and distinct values                                     *)
(* ------------------------------------------------------------------ *)

Section SortFacts.
Variable A : Type.
Variable leb : A -> A -> bool.

Lemma insert_perm (x : A) (l : list A) : Permutation (insert leb x l) (x :: l).
Proof.
  induction l as [|y t IH]; simpl; [apply Permutation_refl|].
  destruct (leb x y); [apply Permutation_refl|].
  eapply perm_trans; [apply perm_skip, IH | apply perm_swap].
Qed.

Lemma sort_perm (l : list A) : Permutation (sort leb l) l.
Proof.
  induction l as [|x l IH]; simpl; [constructor|].
  eapply perm_trans; [apply insert_perm | now apply perm_skip].
Qed.

Lemma sort_In (x : A) (l : list A) : In x (sort leb l) <-> In x l.
Proof.
  split; apply Permutation_in; [|apply Permutation_sym]; apply sort_perm.
Qed.

Lemma sort_length (l : list A) : length (sort leb l) = length l.
Proof. apply Permutation_length, sort_perm. Qed.


Hypothesis leb_total : forall x y, leb x y = true \/ leb y x = true.
Hypothesis leb_trans :
  forall x y z, leb x y = true -> leb y z = true -> leb x z = true.

Lemma insert_ascending (x : A) (l : list A) :
  ascending leb l -> ascending leb (insert leb x l).
Proof.
  induction l as [|y t IH]; simpl; intros H.
  - split; [intros ? []|exact I].
  - destruct H as [Hy Ht]. destruct (leb x y) eqn:E; simpl.
    + split; [|now split].
      intros z [<-|Hz]; [exact E|]. eapply leb_trans; [exact E|now apply Hy].
    + split; [|now apply IH].
      intros z Hz. apply (Permutation_in _ (insert_perm x t)) in Hz.
      destruct Hz as [<-|Hz]; [|now apply Hy].
      destruct (leb_total x y) as [H|H]; congruence.
Qed.

Lemma sort_ascending (l : list A) : ascending leb (sort leb l).
Proof.
  induction l as [|x l IH]; simpl; [exact I|]. now apply insert_ascending.
Qed.

(** The first element that passes a test, in an ascending list, is
    below every element that passes it. *)
Lemma hd_filter_least (p : A -> bool) (l : list A) (m : A) :
  (forall x, leb x x = true) ->
  ascending leb l -> hd_error (filter p l) = Some m ->
  In m l /\ p m = true /\ forall y, In y l -> p y = true -> leb m y = true.
Proof.
  intros Hrefl. induction l as [|x t IH]; simpl; intros Hasc Hm; [discriminate|].
  destruct Hasc as [Hx Ht]. destruct (p x) eqn:Hp; simpl in Hm.
  - injection Hm as ->. repeat split; auto.
    intros y [<-|Hy] _; [apply Hrefl | now apply Hx].
  - destruct (IH Ht Hm) as (Hin & Hpm & Hleast). repeat split; auto.
    intros y [<-|Hy] Hpy; [congruence | now apply Hleast].
Qed.
End SortFacts.

Section UniqueFacts.
Variable A : Type.
Variable eqb : A -> A -> bool.
Hypothesis eqb_spec : forall x y, eqb x y = true <-> x = y.

Lemma unique_In (x : A) (l : list A) : In x (unique eqb l) <-> In x l.
Proof.
  induction l as [|y t IH]; simpl; [tauto|].
  rewrite filter_In, IH. split.
  - intros [H|[H _]]; auto.
  - intros [H|H]; auto.
    destruct (eqb y x) eqn:E.
    + left. now apply eqb_spec.
    + right. now split.
Qed.

End UniqueFacts.

(** [String.leb] is a total preorder (the library has totality and
    antisymmetry). *)
Lemma ascii_compare_refl (a : ascii) : Ascii.compare a a = Eq.
Proof. unfold Ascii.compare. apply N.compare_refl. Qed.

Lemma ascii_compare_lt_trans (a b c : ascii) :
  Ascii.compare a b = Lt -> Ascii.compare b c = Lt -> Ascii.compare a c = Lt.
Proof.
  unfold Ascii.compare. rewrite !N.compare_lt_iff. apply N.lt_trans.
Qed.

Lemma string_compare_refl (s : string) : String.compare s s = Eq.
Proof.
  induction s as [|a s IH]; simpl; [reflexivity|].
  now rewrite ascii_compare_refl.
Qed.

Lemma string_leb_refl (s : string) : String.leb s s = true.
Proof. unfold String.leb. now rewrite string_compare_refl. Qed.

Lemma string_compare_trans (a : string) :
  forall b c, String.compare a b <> Gt -> String.compare b c <> Gt ->
              String.compare a c <> Gt.
Proof.
  induction a as [|x a IH]; intros [|y b] [|z c]; simpl; try congruence.
  destruct (Ascii.compare x y) eqn:Exy; try congruence;
    destruct (Ascii.compare y z) eqn:Eyz; try congruence.
  - apply Ascii.compare_eq_iff in Exy, Eyz. subst.
    rewrite ascii_compare_refl. apply IH.
  - apply Ascii.compare_eq_iff in Exy. subst. rewrite Eyz. congruence.
  - apply Ascii.compare_eq_iff in Eyz. subst. rewrite Exy. congruence.
  - rewrite (ascii_compare_lt_trans _ _ _ Exy Eyz). congruence.
Qed.

Lemma string_leb_trans (a b c : string) :
  String.leb a b = true -> String.leb b c = true -> String.leb a c = true.
Proof.
  unfold String.leb. intros Hab Hbc.
  assert (H := @string_compare_trans a b c).
  destruct (String.compare a b), (String.compare b c), (String.compare a c);
    try reflexivity; try discriminate; exfalso; apply H; congruence.
Qed.

(* ------------------------------------------------------------------ *)
(** ** Categories and the mode of an object column                     *)
(* ------------------------------------------------------------------ *)

Lemma present_In (s : string) (l : list (option string)) :
  In s (present l) <-> In (Some s) l.
Proof.
  unfold present. rewrite in_flat_map. split.
  - intros ([x|] & Hx & H); simpl in H; [|contradiction].
    destruct H as [->|[]]. exact Hx.
  - intros H. exists (Some s). split; [exact H|now left].
Qed.

Lemma levels_In (s : string) (l : list (option string)) :
  In s (levels l) <-> In (Some s) l.
Proof.
  unfold levels. rewrite sort_In, (unique_In _ String.eqb_eq). apply present_In.
Qed.


Lemma levels_ascending (l : list (option string)) :
  ascending String.leb (levels l).
Proof. apply sort_ascending; [apply String.leb_total | apply string_leb_trans]. Qed.

Lemma count_of_absent (v : string) (l : list (option string)) :
  ~ In (Some v) l -> count_of v l = 0.
Proof.
  intros H. unfold count_of. rewrite filter_none; [reflexivity|].
  intros [s|] Hs; simpl; [|reflexivity].
  apply String.eqb_neq. intros ->. now apply H.
Qed.

Lemma count_of_present (v : string) (l : list (option string)) :
  In (Some v) l -> 1 <= count_of v l.
Proof.
  unfold count_of. induction l as [|x l IH]; simpl; intros H; [contradiction|].
  destruct H as [->|H]; simpl.
  - rewrite String.eqb_refl. simpl. lia.
  - destruct (holds v x); simpl; [lia|now apply IH].
Qed.

Lemma fold_max_bound (f : string -> nat) (vs : list string) (v : string) :
  In v vs -> f v <= fold_right Nat.max 0 (map f vs).
Proof.
  induction vs as [|x vs IH]; simpl; intros H; [contradiction|].
  destruct H as [->|H]; [lia|]. specialize (IH H). lia.
Qed.

Lemma fold_max_attained (f : string -> nat) (vs : list string) :
  vs <> [] -> exists v, In v vs /\ f v = fold_right Nat.max 0 (map f vs).
Proof.
  induction vs as [|x vs IH]; simpl; intros H; [congruence|].
  destruct vs as [|y vs'].
  - exists x. split; [now left|]. simpl. lia.
  - destruct IH as (v & Hv & E); [congruence|].
    destruct (Nat.le_ge_cases (f x) (fold_right Nat.max 0 (map f (y :: vs')))).
    + exists v. split; [now right|]. lia.
    + exists x. split; [now left|]. lia.
Qed.

Lemma option_string_dec (x y : option string) : {x = y} + {x <> y}.
Proof. decide equality. apply string_dec. Qed.

(** Every value occurs at most [max_count] times. *)
Lemma count_of_le_max (v : string) (l : list (option string)) :
  count_of v l <= max_count l.
Proof.
  destruct (in_dec option_string_dec (Some v) l) as [H|H].
  - unfold max_count.
    apply (fold_max_bound (fun v => count_of v l)). now apply levels_In.
  - rewrite count_of_absent by exact H. lia.
Qed.

(** The first mode of a column that has a value: a most frequent value,
    and the least of the most frequent ones in string order. *)
Lemma first_mode_least (l : list (option string)) (s : string) :
  In (Some s) l ->
  exists m, hd_error (series_mode l) = Some m /\ In (Some m) l /\
            (forall v, count_of v l <= count_of m l) /\
            (forall v, count_of v l = count_of m l -> String.leb m v = true).
Proof.
  intros Hs.
  assert (Hne : levels l <> []).
  { apply levels_In in Hs. intros E. now rewrite E in Hs. }
  destruct (fold_max_attained (fun v => count_of v l) Hne) as (v0 & Hv0 & E0).
  fold (max_count l) in E0.
  destruct (hd_error (series_mode l)) as [m|] eqn:Hm.
  - unfold series_mode in Hm.
    destruct (@hd_filter_least _ _ _ _ _ string_leb_refl (levels_ascending l) Hm)
      as (Hin & Hp & Hleast).
    apply Nat.eqb_eq in Hp.
    exists m. repeat split.
    + now apply levels_In.
    + intros v. rewrite Hp. apply count_of_le_max.
    + intros v Hv. apply Hleast.
      * apply levels_In.
        destruct (in_dec option_string_dec (Some v) l) as [H|H]; [exact H|].
        apply count_of_absent in H.
        assert (1 <= count_of m l) by (apply count_of_present; now apply levels_In).
        lia.
      * apply Nat.eqb_eq. congruence.
  - exfalso. unfold series_mode in Hm.
    assert (H : In v0 (filter (fun v => count_of v l =? max_count l) (levels l))).
    { apply filter_In. split; [exact Hv0|]. now apply Nat.eqb_eq. }
    destruct (filter _ (levels l)); [contradiction|discriminate].
Qed.

Lemma mode_rows_bound (sel : DataFrame) (c : Column) :
  In c sel ->
  length (series_mode (object_cells (values c))) <= mode_rows (mode sel).
Proof.
  unfold mode_rows, mode. rewrite map_map. simpl.
  induction sel as [|d sel IH]; simpl; intros H; [contradiction|].
  destruct H as [->|H]; [lia|]. specialize (IH H). lia.
Qed.

(** A categorical column with one value is enough for the mode row. *)
Lemma has_mode_row_intro (data : DataFrame) (c : Column) (s : string) :
  In c data -> is_categorical c = true ->
  In (Some s) (object_cells (values c)) -> has_mode_row data = true.
Proof.
  intros Hc Hcat Hs. unfold has_mode_row.
  assert (Hin : In c (filter is_categorical data)) by (apply filter_In; now split).
  apply mode_rows_bound in Hin.
  destruct (@first_mode_least _ _ Hs) as (m & Hm & _).
  destruct (series_mode (object_cells (values c))); [discriminate|].
  simpl in Hin. apply negb_true_iff, Nat.eqb_neq. lia.
Qed.

(** The categorical fill of a column that has a value leaves an object
    column without a missing cell. *)
Lemma impute_mode_value (c : Column) (l : list (option string)) (m : string) :
  values c = ObjectS l -> first_mode c = Some m ->
  impute_mode c = ObjectS (map (fill_object (Some m)) l).
Proof.
  intros Hl Hm. unfold impute_mode. rewrite Hl, Hm. simpl.
  replace (existsb is_missing l && _) with false; [reflexivity|].
  symmetry. apply andb_false_iff.
  destruct (existsb is_missing l) eqn:E; [right|now left].
  apply existsb_exists in E as ([s|] & Hx & E); [discriminate|].
  destruct (forallb _ _) eqn:F; [|reflexivity].
  rewrite forallb_forall in F.
  assert (H : is_missing (fill_object (Some m) None) = true).
  { apply F, in_map_iff. now exists None. }
  discriminate H.
Qed.

Section ModeImputation.
Variable sum : list float -> float.

Lemma imputed_categorical_In (data : DataFrame) (c : Column) :
  In c data -> is_categorical c = true ->
  In (mkColumn (name c) (impute_mode c)) (imputed sum data).
Proof.
  intros Hc Hcat. rewrite imputed_fill. apply in_map_iff.
  exists c. split; [|exact Hc]. unfold fill_column.
  now rewrite (categorical_not_numerical c Hcat), Hcat.
Qed.

(** C6, amended: in a table with unique labels, every Categorical column
    with at least one value has, once [preprocess_data] has run, each of
    its missing cells replaced by one value [m] and its other cells
    unchanged; [m] is a value of the column that is most frequent, and
    among the values tied for most frequent it is the least in string
    order (not the first encountered). *)
Theorem C6_mode_imputation_least_tie (data : DataFrame) (c : Column)
    (l : list (option string)) (s : string) :
  NoDup (columns data) ->
  In c data -> values c = ObjectS l -> In (Some s) l ->
  exists m,
    In (mkColumn (name c) (ObjectS (map (fill_object (Some m)) l)))
       (fst (preprocess_data sum data))
    /\ In (Some m) l
    /\ (forall v, count_of v l <= count_of m l)
    /\ (forall v, count_of v l = count_of m l -> String.leb m v = true).
Proof.
  intros Hnd Hc Hl Hs.
  assert (Hcat : is_categorical c = true).
  { unfold is_categorical. now rewrite Hl. }
  assert (Hs' : In (Some s) (object_cells (values c))) by now rewrite Hl.
  destruct (@first_mode_least l s Hs) as (m & Hm & Hin & Hmax & Hleast).
  exists m. repeat split; auto.
  rewrite preprocess_data_caller_frame by exact Hnd.
  rewrite (@has_mode_row_intro data c s Hc Hcat Hs').
  rewrite <- (@impute_mode_value c l m Hl).
  - now apply imputed_categorical_In.
  - unfold first_mode. now rewrite Hl.
Qed.
End ModeImputation.

(** C6, as stated, fails: with ["b", "a", missing] the missing cell
    becomes "a", the smaller of the two tied values, although "b" is the
    one that occurs first. *)
Lemma C6_tie_filled_with_least_not_first :
  fst (preprocess_data sequential tied_table)
  = [ mkColumn "grade" (ObjectS [Some "b"; Some "a"; Some "a"]) ]%string
  /\ first_encountered_mode [Some "b"; Some "a"; None]%string = Some "b"%string.
Proof. split; vm_compute; reflexivity. Qed.

Lemma C6_mode_imputation_least_tie_witness :
  exists m,
    In (mkColumn "grade" (ObjectS (map (fill_object (Some m))
                                       [Some "b"; Some "a"; None])))%string
       (fst (preprocess_data sequential tied_table))
    /\ In (Some m) [Some "b"; Some "a"; None]%string
    /\ (forall v, count_of v [Some "b"; Some "a"; None]%string
                  <= count_of m [Some "b"; Some "a"; None]%string)
    /\ (forall v, count_of v [Some "b"; Some "a"; None]%string
                  = count_of m [Some "b"; Some "a"; None]%string ->
                  String.leb m v = true).
Proof.
  apply (@C6_mode_imputation_least_tie sequential tied_table
           (mkColumn "grade" (ObjectS [Some "b"; Some "a"; None]))%string
           [Some "b"; Some "a"; None]%string "b"%string).
  - repeat constructor; simpl; intuition discriminate.
  - simpl. now left.
  - reflexivity.
  - simpl. now left.
Defined.

(* ------------------------------------------------------------------ *)
(** ** A table without a categorical column                            *)
(* ------------------------------------------------------------------ *)

Lemma no_object_no_mode_row (data : DataFrame) :
  (forall c, In c data -> dtype_of (values c) <> object) ->
  has_mode_row data = false.
Proof.
  intros H. unfold has_mode_row.
  replace (filter is_categorical data) with (@nil Column); [reflexivity|].
  symmetry. apply filter_none. intros c Hc. specialize (H c Hc).
  unfold is_categorical. destruct (dtype_of (values c)); simpl; congruence.
Qed.




(* ------------------------------------------------------------------ *)
(** ** The scatter plot                                                *)
(* ------------------------------------------------------------------ *)

(** A label that the table has once selects its column. *)
Lemma getitem_label_In (data : DataFrame) (c : Column) :
  NoDup (columns data) -> In c data ->
  getitem_label data (name c) = Ok (a_Series (values c)).
Proof.
  intros Hnd Hc. unfold getitem_label.
  now rewrite getitem_single.
Qed.

Lemma column_In (data : DataFrame) (c : Column) :
  NoDup (columns data) -> In c data -> column data (name c) = Ok (values c).
Proof.
  intros Hnd Hc. unfold column. now rewrite getitem_label_In.
Qed.

(** C9, amended: for two columns of a table with unique labels,
    [visualize_scatterplot] draws what the table of the selector says for
    their type signatures: two Categorical columns give a scatter grouped
    by the x column, a Categorical x and a Numerical y a strip plot
    grouped by x, a Numerical x and a Categorical y a strip plot grouped
    by y, two Numerical columns a plain scatter without grouping; the
    axes are the two columns, and one colour is drawn per distinct cell
    of the grouping column. *)
Theorem C9_scatterplot_by_signature (choices : nat -> list color)
    (data : DataFrame) (x y : string) (xs ys : Series) :
  NoDup (columns data) ->
  In (mkColumn x xs) data -> In (mkColumn y ys) data ->
  exists fig,
    visualize_scatterplot choices data x y = Ok fig
    /\ correlation_of (drawing fig)
       = Some (resolve_correlation (classify xs) (classify ys) x y, (x, y))
    /\ palette_of (drawing fig)
       = match classify xs, classify ys with
         | Categorical, _ => choices (length (series_unique xs))
         | Numerical, Categorical => choices (length (series_unique ys))
         | Numerical, Numerical => []
         end.
Proof.
  intros Hnd Hx Hy. unfold visualize_scatterplot.
  assert (Ex := @column_In data (mkColumn x xs) Hnd Hx).
  assert (Ey := @column_In data (mkColumn y ys) Hnd Hy).
  simpl in Ex, Ey. rewrite Ex, Ey.
  eexists. split; [reflexivity|].
  unfold classify. simpl.
  destruct (is_object xs), (is_object ys); split; reflexivity.
Qed.

Lemma C9_scatterplot_by_signature_witness :
  exists fig,
    visualize_scatterplot (fun k => seq 0 k) mixed_table "city" "age" = Ok fig
    /\ correlation_of (drawing fig)
       = Some (resolve_correlation
                 (classify (ObjectS [Some "NY"; Some "NY"; Some "LA"]%string))
                 (classify (IntS [25; 30; 35]%Z)) "city" "age",
               ("city", "age"))%string
    /\ palette_of (drawing fig)
       = match classify (ObjectS [Some "NY"; Some "NY"; Some "LA"]%string),
               classify (IntS [25; 30; 35]%Z) with
         | Categorical, _ =>
             seq 0 (length (series_unique
                              (ObjectS [Some "NY"; Some "NY"; Some "LA"]%string)))
         | Numerical, Categorical =>
             seq 0 (length (series_unique (IntS [25; 30; 35]%Z)))
         | Numerical, Numerical => []
         end.
Proof.
  apply (@C9_scatterplot_by_signature (fun k => seq 0 k) mixed_table
           "city" "age").
  - repeat constructor; simpl; intuition discriminate.
  - simpl. now left.
  - simpl. right. now left.
Defined.

(** C9, as stated, fails: in a table that has the label "abc" twice,
    ["abc"] selects a frame, which has no [dtype], and nothing is
    drawn although both columns are there. *)
Lemma C9_duplicated_label_draws_nothing :
  In (mkColumn "abc" (BoolS [true]))%string collided
  /\ visualize_scatterplot (fun k => seq 0 k) collided "abc" "abc"
     = Raise NoDtype.
Proof. split; [simpl; now left|vm_compute; reflexivity]. Qed.

(* ------------------------------------------------------------------ *)
(** ** The pie chart                                                   *)
(* ------------------------------------------------------------------ *)

Lemma unique_incl (A : Type) (eqb : A -> A -> bool) (x : A) (l : list A) :
  In x (unique eqb l) -> In x l.
Proof.
  induction l as [|y t IH]; simpl; [tauto|].
  rewrite filter_In. intros [H|[H _]]; auto.
Qed.

Lemma unique_nil (A : Type) (eqb : A -> A -> bool) (l : list A) :
  unique eqb l = [] -> l = [].
Proof. destruct l; simpl; [reflexivity|discriminate]. Qed.

(** Two cells are one value of [value_counts] when they have one key. *)
Lemma scalar_eqb_key (a b : scalar) :
  scalar_eqb a b = true <-> key_of a = key_of b.
Proof.
  unfold scalar_eqb.
  destruct (key_of a), (key_of b); try (split; [discriminate|congruence]).
  - rewrite String.eqb_eq. split; congruence.
  - rewrite Z.eqb_eq. split; congruence.
  - rewrite Leibniz.eqb_spec. split; congruence.
  - rewrite Bool.eqb_true_iff. split; congruence.
Qed.

Lemma scalar_eqb_refl (a : scalar) : scalar_eqb a a = true.
Proof. now apply scalar_eqb_key. Qed.

Lemma occurs_once (v : scalar) (vs : list scalar) :
  In v vs -> 1 <= length (filter (scalar_eqb v) vs).
Proof.
  induction vs as [|w vs IH]; simpl; intros H; [contradiction|].
  destruct (scalar_eqb v w) eqn:E; simpl; [lia|].
  destruct H as [->|H]; [|now apply IH].
  rewrite scalar_eqb_refl in E. discriminate.
Qed.

Lemma value_counts_spec (s : Series) :
  let vs := present_cells (cells s) in
  Permutation (map fst (value_counts s)) (unique scalar_eqb vs)
  /\ Forall (fun p => snd p = length (filter (scalar_eqb (fst p)) vs)
                      /\ 1 <= snd p) (value_counts s).
Proof.
  intros vs. unfold value_counts. fold vs.
  set (raw := map (fun v => (v, length (filter (scalar_eqb v) vs)))
                  (unique scalar_eqb vs)).
  split.
  - eapply perm_trans; [apply Permutation_map, sort_perm|].
    unfold raw. rewrite map_map. simpl. rewrite map_id. apply Permutation_refl.
  - eapply Permutation_Forall; [apply Permutation_sym, sort_perm|].
    unfold raw. apply Forall_forall. intros p Hp.
    apply in_map_iff in Hp as (v & <- & Hv). simpl. split; [reflexivity|].
    apply occurs_once. exact (@unique_incl _ _ _ _ Hv).
Qed.

Lemma present_cells_In (v : scalar) (l : list (option scalar)) :
  In v (present_cells l) <-> In (Some v) l.
Proof.
  unfold present_cells. rewrite in_flat_map. split.
  - intros ([w|] & Hx & Hv); simpl in Hv; [|contradiction].
    destruct Hv as [->|[]]. exact Hx.
  - intros H. exists (Some v). split; [exact H|now left].
Qed.

(** A column that has a value has a slice. *)
Lemma value_counts_cons (s : Series) (v : scalar) :
  In (Some v) (cells s) -> value_counts s <> [].
Proof.
  intros Hv E. apply (f_equal (@length _)) in E.
  unfold value_counts in E. rewrite sort_length, length_map in E.
  apply length_zero_iff_nil, unique_nil in E.
  apply present_cells_In in Hv. rewrite E in Hv. contradiction.
Qed.

Lemma visualize_pie_chart_In (data : DataFrame) (c : Column) (v : scalar) :
  NoDup (columns data) -> In c data -> In (Some v) (cells (values c)) ->
  visualize_pie_chart data (name c)
  = Ok (mkFigure (pie (map snd (value_counts (values c)))
                      (map fst (value_counts (values c))))
          (name c ++ " Pie Chart") None None).
Proof.
  intros Hnd Hc Hv. unfold visualize_pie_chart.
  rewrite getitem_label_In by assumption.
  assert (H := @value_counts_cons _ _ Hv).
  now destruct (value_counts (values c)).
Qed.

(** C5, as stated, fails: the pie chart of an int column is drawn, one
    slice per distinct number. *)
Lemma C5_pie_chart_of_numerical_column_drawn :
  classify (IntS [1; 1; 2]%Z) = Numerical
  /\ visualize_pie_chart visits "visits"
     = Ok (mkFigure (pie [2; 1] [VInt 1; VInt 2]) "visits Pie Chart" None None).
Proof. split; vm_compute; reflexivity. Qed.

(** C5, amended: for every table with unique labels and every column of
    it that has at least one value, Numerical ones included,
    [visualize_pie_chart] raises nothing (in particular no
    [UnsupportedVisualization]): it draws a pie chart with one slice per
    distinct value that is present, each slice sized by the number of
    occurrences of its value. *)
Theorem C5_pie_chart_drawn_for_any_column (data : DataFrame) (label : string)
    (s : Series) (v : scalar) :
  NoDup (columns data) -> In (mkColumn label s) data -> In (Some v) (cells s) ->
  exists counts,
    visualize_pie_chart data label
    = Ok (mkFigure (pie (map snd counts) (map fst counts))
            (label ++ " Pie Chart") None None)
    /\ Permutation (map fst counts)
                   (unique scalar_eqb (present_cells (cells s)))
    /\ Forall (fun p =>
                 snd p = length (filter (scalar_eqb (fst p))
                                        (present_cells (cells s)))
                 /\ 1 <= snd p) counts.
Proof.
  intros Hnd Hc Hv. exists (value_counts s). split.
  - exact (@visualize_pie_chart_In data (mkColumn label s) v Hnd Hc Hv).
  - apply value_counts_spec.
Qed.

Lemma C5_pie_chart_drawn_for_any_column_witness :
  exists counts,
    visualize_pie_chart visits "visits"
    = Ok (mkFigure (pie (map snd counts) (map fst counts))
            ("visits" ++ " Pie Chart") None None)
    /\ Permutation (map fst counts)
                   (unique scalar_eqb (present_cells (cells (IntS [1; 1; 2]%Z))))
    /\ Forall (fun p =>
                 snd p = length (filter (scalar_eqb (fst p))
                                        (present_cells (cells (IntS [1; 1; 2]%Z))))
                 /\ 1 <= snd p) counts.
Proof.
  apply (@C5_pie_chart_drawn_for_any_column visits "visits" (IntS [1; 1; 2]%Z)
           (VInt 1)).
  - repeat constructor; simpl; intuition discriminate.
  - simpl. now left.
  - simpl. now left.
Defined.

(* ------------------------------------------------------------------ *)
(** ** What the call does to the caller's frame                        *)
(* ------------------------------------------------------------------ *)

Lemma levels_empty (l : list (option string)) :
  (forall s, ~ In (Some s) l) -> levels l = [].
Proof.
  intros H. destruct (levels l) as [|v vs] eqn:E; [reflexivity|].
  exfalso. apply (H v). apply levels_In. rewrite E. now left.
Qed.

Lemma fold_max_zero (A : Type) (f : A -> nat) (l : list A) :
  (forall a, In a l -> f a = 0) -> fold_right Nat.max 0 (map f l) = 0.
Proof.
  induction l as [|a l IH]; simpl; intros H; [reflexivity|].
  rewrite (H a (or_introl eq_refl)), IH; [reflexivity|].
  intros; apply H; now right.
Qed.

Lemma has_mode_row_false (data : DataFrame) :
  has_mode_row data = false <-> no_category_value data.
Proof.
  split.
  - intros Hm c s Hc Hcat Hs.
    rewrite (@has_mode_row_intro data c s Hc Hcat Hs) in Hm. discriminate.
  - intros H. unfold has_mode_row. apply negb_false_iff, Nat.eqb_eq.
    unfold mode_rows, mode. rewrite map_map. simpl.
    apply fold_max_zero. intros c Hc. apply filter_In in Hc as [Hc Hcat].
    unfold series_mode. rewrite levels_empty; [reflexivity|].
    intros s. now apply (H c s).
Qed.

Lemma has_value_In (c : Column) :
  has_value c = true <-> exists s, In (Some s) (object_cells (values c)).
Proof.
  unfold has_value. rewrite existsb_exists. split.
  - intros ([s|] & Hx & E); [now exists s|discriminate].
  - intros (s & Hs). now exists (Some s).
Qed.

(** The mode frame has a row exactly when some categorical column has a
    value. *)
Lemma has_mode_row_value (data : DataFrame) :
  has_mode_row data = has_category_value data.
Proof.
  destruct (has_category_value data) eqn:E.
  - apply existsb_exists in E as (c & Hc & E).
    apply andb_true_iff in E as [Hcat Hv].
    apply has_value_In in Hv as (s & Hs).
    exact (@has_mode_row_intro data c s Hc Hcat Hs).
  - apply has_mode_row_false. intros c s Hc Hcat Hs.
    assert (E' : has_category_value data = true); [|congruence].
    apply existsb_exists. exists c. split; [exact Hc|].
    rewrite Hcat. simpl. apply has_value_In. now exists s.
Qed.

(** The cells of a filled column. *)
Lemma cells_fillna (s : Series) (v : float) :
  dtype_of s <> object ->
  cells (series_fillna s v) = map (fill_cell (float_cell v)) (cells s).
Proof.
  destruct s as [l|l|l|l]; simpl; intros H; try congruence;
    rewrite !map_map; apply map_ext; intros x; try reflexivity.
  unfold fill_float, float_cell.
  destruct (is_nan x) eqn:E; simpl; [reflexivity|now rewrite E].
Qed.

Lemma fill_object_all_missing (v : option string) (l : list (option string)) :
  existsb is_missing l && forallb is_missing (map (fill_object v) l) = true ->
  v = None /\ forall x, In x l -> x = None.
Proof.
  intros H. apply andb_true_iff in H as [He Hf].
  rewrite forallb_forall in Hf.
  assert (Hall : forall x, In x l -> is_missing (fill_object v x) = true).
  { intros x Hx. apply Hf. now apply in_map. }
  split.
  - apply existsb_exists in He as ([s|] & Hx & E); [discriminate|].
    specialize (Hall None Hx). simpl in Hall. now destruct v.
  - intros [s|] Hx; [|reflexivity].
    specialize (Hall (Some s) Hx). discriminate.
Qed.

Lemma cells_fillna_object (l : list (option string)) (v : option string) :
  cells (series_fillna_object (ObjectS l) v)
  = map (fill_cell (option_map VStr v)) (cells (ObjectS l)).
Proof.
  simpl. destruct (existsb is_missing l && _) eqn:E; simpl; rewrite !map_map.
  - apply fill_object_all_missing in E as [-> Hall].
    apply map_ext_in. intros x Hx. now rewrite (Hall x Hx).
  - apply map_ext. now intros [s|].
Qed.

(** A column without a missing cell is not changed by either fill. *)
Lemma fillna_complete (s : Series) (v : float) :
  ~ In None (cells s) -> series_fillna s v = s.
Proof.
  destruct s as [l|l|l|l]; simpl; try reflexivity. intros H. f_equal.
  induction l as [|x l IH]; simpl in *; [reflexivity|].
  unfold fill_float at 1. destruct (is_nan x) eqn:E.
  - exfalso. apply H. now left.
  - f_equal. apply IH. intros H'. apply H. now right.
Qed.

Lemma fillna_object_complete (s : Series) (v : option string) :
  ~ In None (cells s) -> series_fillna_object s v = s.
Proof.
  destruct s as [l|l|l|l]; simpl; try reflexivity. intros H.
  replace (existsb is_missing l) with false.
  - simpl. f_equal. rewrite <- (map_id l) at 2. apply map_ext_in.
    intros [x|] Hx; [reflexivity|].
    exfalso. apply H. apply in_map_iff. now exists None.
  - symmetry. apply not_true_is_false. intros E.
    apply existsb_exists in E as ([x|] & Hx & E); [discriminate|].
    apply H. apply in_map_iff. now exists None.
Qed.

Lemma update_complete (p : Column -> bool) (g : Column -> Series) (df : DataFrame) :
  (forall c, In c df -> p c = true -> g c = values c) -> update p g df = df.
Proof.
  intros H. unfold update. rewrite <- (map_id df) at 2.
  apply map_ext_in. intros c Hc. destruct (p c) eqn:Hp; [|reflexivity].
  rewrite (H c Hc Hp). now destruct c.
Qed.

Lemma Forall2_map_right (A B : Type) (R : A -> B -> Prop) (f : A -> B) (l : list A) :
  (forall a, In a l -> R a (f a)) -> Forall2 R l (map f l).
Proof.
  induction l as [|a l IH]; simpl; intros H; constructor.
  - apply H. now left.
  - apply IH. intros; apply H; now right.
Qed.

Section CallerFrame.
Variable sum : list float -> float.

Lemma imputed_numerical_complete (data : DataFrame) :
  complete data -> imputed_numerical sum data = data.
Proof.
  intros H. apply update_complete. intros c Hc _.
  apply fillna_complete. now apply H.
Qed.

Lemma imputed_complete (data : DataFrame) :
  complete data -> imputed sum data = data.
Proof.
  intros H. unfold imputed. rewrite imputed_numerical_complete by exact H.
  apply update_complete. intros c Hc _.
  apply fillna_object_complete. now apply H.
Qed.

Lemma numerical_filled_in_place (data : DataFrame) (c : Column) :
  is_numerical c = true ->
  filled_in_place sum data c (mkColumn (name c) (impute_mean sum c)).
Proof.
  intros Hn. unfold filled_in_place. rewrite Hn. split.
  - split; [reflexivity|]. simpl. apply cells_fillna.
    intros E. assert (H := numerical_not_categorical c Hn).
    unfold is_categorical in H. rewrite E in H. discriminate.
  - apply impute_mean_dtype.
Qed.

Lemma categorical_filled_in_place (data : DataFrame) (c : Column) :
  is_categorical c = true -> has_category_value data = true ->
  filled_in_place sum data c (mkColumn (name c) (impute_mode c)).
Proof.
  intros Hc Hv. unfold filled_in_place.
  rewrite (categorical_not_numerical c Hc), Hc, Hv. simpl.
  assert (Hl := categorical_is_object c Hc).
  set (l := object_cells (values c)) in Hl.
  split.
  - split; [reflexivity|]. simpl. unfold impute_mode. rewrite Hl.
    apply cells_fillna_object.
  - intros H. apply has_value_In in H as (s & Hs). rewrite Hl in Hs.
    destruct (@first_mode_least l s Hs) as (m & Hm & _).
    rewrite (@impute_mode_value c l m Hl); [reflexivity|].
    unfold first_mode. now rewrite Hl.
Qed.

(** C1, amended: of the table it is given (labels unique),
    [preprocess_data] leaves every column in its place, under its label;
    it overwrites, in place, the missing cells of a numerical column by
    the mean of the column and, when some categorical column has a value,
    the missing cells of a categorical column by the first mode of the
    column; every other cell is as it was, and so is every column that is
    neither numerical nor categorical.  When the table has no missing
    cell it is left exactly as it was. *)
Theorem C1_raw_table_overwritten_at_missing_cells (data : DataFrame) :
  NoDup (columns data) ->
  Forall2 (filled_in_place sum data) data (fst (preprocess_data sum data))
  /\ (complete data -> fst (preprocess_data sum data) = data).
Proof.
  intros Hnd. rewrite preprocess_data_caller_frame by exact Hnd.
  rewrite has_mode_row_value.
  destruct (has_category_value data) eqn:Hv; split.
  - rewrite imputed_fill. apply Forall2_map_right. intros c _.
    unfold fill_column. destruct (is_numerical c) eqn:Hn.
    + now apply numerical_filled_in_place.
    + destruct (is_categorical c) eqn:Hc.
      * now apply categorical_filled_in_place.
      * unfold filled_in_place. now rewrite Hn, Hc.
  - apply imputed_complete.
  - apply Forall2_map_right. intros c _.
    destruct (is_numerical c) eqn:Hn.
    + now apply numerical_filled_in_place.
    + unfold filled_in_place. now rewrite Hn, Hv, andb_false_r.
  - apply imputed_numerical_complete.
Qed.
End CallerFrame.

(** C1, as stated, fails: the caller's frame has a missing city before
    the call and none after it. *)
Lemma C1_raw_table_filled_in_place :
  fst (preprocess_data sequential gaps)
  = [ mkColumn "city" (ObjectS [Some "NY"; Some "NY"; Some "LA"; Some "NY"]) ]%string
  /\ fst (preprocess_data sequential gaps) <> gaps.
Proof. split; [vm_compute; reflexivity | vm_compute; discriminate]. Qed.

Lemma C1_raw_table_overwritten_at_missing_cells_witness :
  Forall2 (filled_in_place sequential gaps) gaps
          (fst (preprocess_data sequential gaps))
  /\ (complete gaps -> fst (preprocess_data sequential gaps) = gaps).
Proof.
  apply (@C1_raw_table_overwritten_at_missing_cells sequential gaps).
  repeat constructor; simpl; intuition.
Defined.

(* ------------------------------------------------------------------ *)
(** ** The shape of the returned frame                                 *)
(* ------------------------------------------------------------------ *)

Lemma rename_columns_app (a b : DataFrame) :
  rename_columns (a ++ b) = rename_columns a ++ rename_columns b.
Proof. apply map_app. Qed.

Lemma columns_rename (df : DataFrame) :
  columns (rename_columns df) = map str_replace_underscore (columns df).
Proof. unfold columns, rename_columns. now rewrite !map_map. Qed.


Section Shape.
Variable sum : list float -> float.

Lemma update_indicator_columns (g : Column -> Series) (data : DataFrame) :
  update is_numerical g (indicator_columns data) = indicator_columns data.
Proof.
  unfold update. rewrite <- (map_id (indicator_columns data)) at 2.
  apply map_ext_in. intros d Hd. apply indicator_columns_bool in Hd.
  unfold is_numerical. now rewrite Hd.
Qed.

Lemma prepared_shape (data : DataFrame) :
  prepared sum data
  = rename_columns (map (scaled_column sum) (filter not_categorical data))
    ++ rename_columns (indicator_columns data).
Proof.
  unfold prepared, encoded.
  unfold update at 1. rewrite map_app, rename_columns_app. f_equal.
  - f_equal. unfold update. rewrite map_map. apply map_ext. intros c.
    unfold scaled_column. destruct (is_numerical c) eqn:Hn; [|now rewrite Hn].
    rewrite (@is_numerical_dtype (mkColumn (name c) (impute_mean sum c)) c)
      by apply impute_mean_dtype.
    now rewrite Hn.
  - f_equal. apply update_indicator_columns.
Qed.

Lemma columns_prepared (data : DataFrame) :
  columns (prepared sum data)
  = map str_replace_underscore (columns (encoded sum data)).
Proof.
  unfold prepared. now rewrite columns_rename, columns_update.
Qed.



End Shape.



(* ------------------------------------------------------------------ *)
(** ** Float64 arithmetic                                              *)
(* ------------------------------------------------------------------ *)

(** [NaN] in the terms of the IEEE 754 specification of the primitive
    floats. *)
Lemma is_nan_spec (x : float) :
  is_nan x = true <-> FloatOps.Prim2SF x = SpecFloat.S754_nan.
Proof.
  split.
  - intros H. unfold FloatOps.Prim2SF. now rewrite H.
  - intros H. destruct (is_nan x) eqn:E; [reflexivity|].
    unfold FloatOps.Prim2SF in H. rewrite E in H.
    destruct (is_zero x); [discriminate|].
    destruct (is_infinity x); [discriminate|].
    destruct (FloatOps.Z.frexp x) as [r e].
    destruct (SpecFloat.shr_fexp _ _ _ _ _) as [shr e'].
    destruct (SpecFloat.shr_m shr); discriminate.
Qed.

(** An int64 never converts to [NaN]: rounding a non-negative mantissa
    gives a non-negative mantissa. *)
Lemma shr_1_nonneg (mrs : SpecFloat.shr_record) :
  (0 <= SpecFloat.shr_m mrs)%Z -> (0 <= SpecFloat.shr_m (SpecFloat.shr_1 mrs))%Z.
Proof.
  destruct mrs as [m r s]. simpl.
  destruct m as [|[p|p|]|[p|p|]]; simpl; lia.
Qed.

Lemma iter_shr_1_nonneg (p : positive) (mrs : SpecFloat.shr_record) :
  (0 <= SpecFloat.shr_m mrs)%Z ->
  (0 <= SpecFloat.shr_m (SpecFloat.iter_pos SpecFloat.shr_1 p mrs))%Z.
Proof.
  revert mrs. induction p as [p IH|p IH|]; simpl; intros mrs H.
  - apply IH, IH. now apply shr_1_nonneg.
  - now apply IH, IH.
  - now apply shr_1_nonneg.
Qed.

Lemma shr_fexp_nonneg (prec emax m e : Z) (l : SpecFloat.location) :
  (0 <= m)%Z ->
  (0 <= SpecFloat.shr_m (fst (SpecFloat.shr_fexp prec emax m e l)))%Z.
Proof.
  intros H. unfold SpecFloat.shr_fexp, SpecFloat.shr.
  assert (H0 : (0 <= SpecFloat.shr_m (SpecFloat.shr_record_of_loc m l))%Z).
  { destruct l as [|[| |]]; exact H. }
  destruct (_ - e)%Z; simpl; auto using iter_shr_1_nonneg.
Qed.

Lemma round_nearest_even_nonneg (m : Z) (l : SpecFloat.location) :
  (0 <= m)%Z -> (0 <= SpecFloat.round_nearest_even m l)%Z.
Proof.
  intros H. unfold SpecFloat.round_nearest_even.
  destruct l as [|[| |]]; try lia. destruct (IntDef.Z.even m); lia.
Qed.

Lemma binary_round_aux_not_nan (prec emax : Z) (sx : bool) (mx ex : Z)
    (lx : SpecFloat.location) :
  (0 <= mx)%Z ->
  SpecFloat.binary_round_aux prec emax sx mx ex lx <> SpecFloat.S754_nan.
Proof.
  intros H. unfold SpecFloat.binary_round_aux.
  assert (H1 := @shr_fexp_nonneg prec emax mx ex lx H).
  destruct (SpecFloat.shr_fexp prec emax mx ex lx) as [mrs' e']. simpl in H1.
  assert (H2 := @shr_fexp_nonneg prec emax _ e' SpecFloat.loc_Exact
                  (@round_nearest_even_nonneg _ (SpecFloat.loc_of_shr_record mrs') H1)).
  destruct (SpecFloat.shr_fexp prec emax _ e' SpecFloat.loc_Exact) as [mrs'' e''].
  simpl in H2.
  destruct (SpecFloat.shr_m mrs''); [discriminate| |lia].
  destruct (e'' <=? emax - prec)%Z; discriminate.
Qed.

Lemma binary_normalize_not_nan (prec emax m e : Z) (s : bool) :
  SpecFloat.binary_normalize prec emax m e s <> SpecFloat.S754_nan.
Proof.
  unfold SpecFloat.binary_normalize, SpecFloat.binary_round.
  destruct m as [|p|p]; [discriminate| |];
    destruct (SpecFloat.shl_align _ _ _) as [mz ez];
    apply binary_round_aux_not_nan; lia.
Qed.

Lemma of_uint63_not_nan (n : PrimInt63.int) : is_nan (of_uint63 n) = false.
Proof.
  apply not_true_is_false. intros H. apply is_nan_spec in H.
  rewrite FloatAxioms.of_uint63_spec in H.
  exact (@binary_normalize_not_nan _ _ _ _ _ H).
Qed.

Lemma opp_not_nan (x : float) : is_nan x = false -> is_nan (- x)%float = false.
Proof.
  intros H. apply not_true_is_false. intros H'. apply is_nan_spec in H'.
  rewrite FloatAxioms.opp_spec in H'.
  destruct (FloatOps.Prim2SF x) eqn:E; try discriminate.
  apply is_nan_spec in E. congruence.
Qed.

Lemma of_magnitude_not_nan (n : Z) : is_nan (of_magnitude n) = false.
Proof.
  unfold of_magnitude. destruct (n <? 2 ^ 63)%Z; [apply of_uint63_not_nan|reflexivity].
Qed.

Lemma of_int64_not_nan (z : Z) : is_nan (of_int64 z) = false.
Proof.
  unfold of_int64. destruct (z <? 0)%Z.
  - apply opp_not_nan, of_magnitude_not_nan.
  - apply of_magnitude_not_nan.
Qed.

(** [NaN] propagates through subtraction and division, and 0/0 is
    [NaN]. *)
Lemma nan_sub_l (x y : float) : is_nan x = true -> is_nan (x - y)%float = true.
Proof.
  intros H. apply is_nan_spec. rewrite FloatAxioms.sub_spec.
  apply is_nan_spec in H. rewrite H. reflexivity.
Qed.
Lemma nan_sub_r (x y : float) : is_nan y = true -> is_nan (x - y)%float = true.
Proof.
  intros H. apply is_nan_spec. rewrite FloatAxioms.sub_spec.
  apply is_nan_spec in H. rewrite H. now destruct (FloatOps.Prim2SF x).
Qed.
Lemma nan_div_l (x y : float) : is_nan x = true -> is_nan (x / y)%float = true.
Proof.
  intros H. apply is_nan_spec. rewrite FloatAxioms.div_spec.
  apply is_nan_spec in H. rewrite H. reflexivity.
Qed.
Lemma nan_div_r (x y : float) : is_nan y = true -> is_nan (x / y)%float = true.
Proof.
  intros H. apply is_nan_spec. rewrite FloatAxioms.div_spec.
  apply is_nan_spec in H. rewrite H. now destruct (FloatOps.Prim2SF x).
Qed.
Lemma is_zero_spec (x : float) : is_zero x = true -> exists s, FloatOps.Prim2SF x = SpecFloat.S754_zero s.
Proof.
  intros H. unfold FloatOps.Prim2SF. rewrite H.
  destruct (is_nan x) eqn:E.
  - exfalso. unfold is_zero in H. rewrite FloatAxioms.eqb_spec in H.
    apply is_nan_spec in E. rewrite E in H. discriminate.
  - eexists. reflexivity.
Qed.
Lemma zero_div_zero (x y : float) :
  is_zero x = true -> is_zero y = true -> is_nan (x / y)%float = true.
Proof.
  intros Hx Hy. apply is_nan_spec. rewrite FloatAxioms.div_spec.
  destruct (@is_zero_spec _ Hx) as (s & ->). destruct (@is_zero_spec _ Hy) as (t & ->).
  reflexivity.
Qed.
Lemma nan_unique (x : float) : is_nan x = true -> x = PrimFloat.nan.
Proof.
  intros H. apply FloatAxioms.Prim2SF_inj. apply is_nan_spec in H. rewrite H.
  reflexivity.
Qed.

(* ------------------------------------------------------------------ *)
(** ** Standard scores                                                 *)
(* ------------------------------------------------------------------ *)

Lemma to_floats_fillna (s : Series) (m : float) :
  dtype_of s <> object ->
  to_floats (series_fillna s m) = map (fill_float m) (to_floats s).
Proof.
  intros H. destruct s as [l|l|l|l]; simpl in *; [congruence| |reflexivity|];
    rewrite map_map; apply map_ext; intros x; unfold fill_float.
  - now rewrite of_int64_not_nan.
  - now destruct x.
Qed.

Lemma to_floats_length (s : Series) : length (to_floats s) = size s.
Proof. destruct s; simpl; now rewrite ?length_map. Qed.

Lemma numerical_not_object (c : Column) :
  is_numerical c = true -> dtype_of (values c) <> object.
Proof. by_dtype c. Qed.

Lemma count_le_length (l : list float) : count l <= length l.
Proof. unfold count. apply filter_length_le. Qed.

Lemma count_none (l : list float) :
  (forall x, In x l -> is_nan x = true) -> count l = 0.
Proof.
  intros H. unfold count. rewrite filter_none; [reflexivity|].
  intros x Hx. now rewrite (H x Hx).
Qed.

Lemma missing_BoolS (bs : list bool) : missing (BoolS bs) = 0.
Proof.
  unfold missing. simpl. rewrite filter_none; [reflexivity|].
  intros x Hx. apply in_map_iff in Hx as (b & <- & _). reflexivity.
Qed.

Lemma missing_FloatS_all (l : list float) :
  (forall x, In x l -> is_nan x = true) -> missing (FloatS l) = length l.
Proof.
  intros H. unfold missing. simpl. rewrite filter_all, length_map; [reflexivity|].
  intros x Hx. apply in_map_iff in Hx as (y & <- & Hy). now rewrite (H y Hy).
Qed.

Lemma filter_length_all (A : Type) (p : A -> bool) (l : list A) :
  length (filter p l) = length l -> forall x, In x l -> p x = true.
Proof.
  induction l as [|a l IH]; simpl; intros H x Hx; [contradiction|].
  assert (Hle := filter_length_le p l).
  destruct (p a) eqn:E; simpl in H; [|lia].
  destruct Hx as [<-|Hx]; [exact E|]. apply IH; [lia|exact Hx].
Qed.

(** A column that is not an object column and has only missing cells
    reads as [NaN] in every row. *)
Lemma missing_all (s : Series) :
  dtype_of s <> object -> missing s = size s ->
  forall x, In x (to_floats s) -> is_nan x = true.
Proof.
  unfold missing.
  destruct s as [l|l|l|l]; simpl; intros Hd H x Hx; try congruence.
  - rewrite <- (length_map (fun z => Some (VInt z)) l) in H.
    apply in_map_iff in Hx as (z & _ & Hz).
    assert (E := filter_length_all _ _ H (Some (VInt z))).
    simpl in E. discriminate E. apply in_map_iff. now exists z.
  - rewrite <- (length_map (fun x => if is_nan x then None else Some (VFloat x)) l) in H.
    assert (E := filter_length_all _ _ H (if is_nan x then None else Some (VFloat x))).
    destruct (is_nan x) eqn:En; [reflexivity|].
    simpl in E. exfalso. enough (false = true) by discriminate.
    apply E. apply in_map_iff. exists x. now rewrite En.
  - rewrite <- (length_map (fun b => Some (VBool b)) l) in H.
    apply in_map_iff in Hx as (b & _ & Hb).
    assert (E := filter_length_all _ _ H (Some (VBool b))).
    simpl in E. discriminate E. apply in_map_iff. now exists b.
Qed.

Section Scores.
Variable sum : list float -> float.

Lemma standard_scores_length (l : list float) :
  length (standard_scores sum l) = length l.
Proof. unfold standard_scores. now rewrite !length_map. Qed.

(** The cells of a numerical column in the returned frame. *)
Lemma scaled_column_scores (c : Column) :
  is_numerical c = true ->
  scaled_column sum c
  = mkColumn (name c) (FloatS (standard_scores sum (to_floats (values c)))).
Proof.
  intros Hn. unfold scaled_column. rewrite Hn. f_equal.
  unfold standardize, impute_mean, series_mean, series_std. simpl.
  rewrite to_floats_fillna by now apply numerical_not_object.
  reflexivity.
Qed.

(** A column without a value has no mean, and its scores are [NaN]. *)
Lemma standard_scores_valueless (l : list float) :
  (forall x, In x l -> is_nan x = true) ->
  forall y, In y (standard_scores sum l) -> is_nan y = true.
Proof.
  intros H y Hy. unfold standard_scores in Hy.
  apply in_map_iff in Hy as (x & <- & Hx).
  apply in_map_iff in Hx as (x0 & <- & Hx0).
  apply nan_div_l, nan_sub_l. rewrite (H x0 Hx0).
  unfold nanmean. now rewrite (count_none l H).
Qed.

(** One cell has no standard deviation, and its score is [NaN]. *)
Lemma standard_scores_single (l : list float) :
  length l <= 1 ->
  forall y, In y (standard_scores sum l) -> is_nan y = true.
Proof.
  intros H y Hy. unfold standard_scores in Hy.
  apply in_map_iff in Hy as (x & <- & _).
  apply nan_div_r. unfold nanstd.
  match goal with |- context [count ?f <=? 1] =>
    assert (Hc := count_le_length f); rewrite length_map in Hc;
    replace (count f <=? 1) with true by (symmetry; apply Nat.leb_le; lia)
  end.
  reflexivity.
Qed.

(** A standard deviation of zero under deviations of zero: 0/0. *)
Lemma standard_scores_zero_variance (l : list float) :
  zero_variance sum l ->
  forall y, In y (standard_scores sum l) -> is_nan y = true.
Proof.
  intros [Hs Hd] y Hy. unfold standard_scores in Hy.
  apply in_map_iff in Hy as (x & <- & Hx).
  apply zero_div_zero; [now apply Hd | exact Hs].
Qed.

Lemma all_nan_repeat (l : list float) :
  (forall y, In y l -> is_nan y = true) -> l = repeat nan (length l).
Proof.
  induction l as [|y l IH]; simpl; intros H; [reflexivity|].
  rewrite (nan_unique y) by (apply H; now left).
  f_equal. apply IH. intros; apply H; now right.
Qed.
End Scores.

(* ------------------------------------------------------------------ *)
(** ** Scaling, missing cells and constant columns                     *)
(* ------------------------------------------------------------------ *)

Lemma indicator_columns_flags (data : DataFrame) :
  Forall (fun d => exists v l, values d = BoolS (map (holds v) l))
         (indicator_columns data).
Proof.
  apply Forall_forall. intros d Hd. unfold indicator_columns in Hd.
  apply in_flat_map in Hd as (c & _ & Hd).
  unfold indicator_block, indicators, get_dummies_1d in Hd.
  apply in_map_iff in Hd as (v & <- & _). simpl. eauto.
Qed.

Section Returned.
Variable sum : list float -> float.

(** C7, amended: in the table that [preprocess_data] returns, when the
    input labels are unique and no indicator is labelled like a
    numerical column, the columns that are not Categorical come first, in
    their order: each one that was classified Numerical before encoding
    holds the standard scores (x - mean) / std of its filled cells,
    computed in float64, each other one holds its cells as they were;
    then come the indicator columns exactly as the encoder made them,
    true/false flags, unscaled. *)
Theorem C7_scaling_exactly_numerical (data r : DataFrame) :
  NoDup (columns data) -> no_clash data ->
  snd (preprocess_data sum data) = Ok r ->
  exists scaled,
    r = rename_columns (scaled ++ indicator_columns data)
    /\ Forall2 (fun c c' =>
                  name c' = name c
                  /\ values c'
                     = if is_numerical c
                       then FloatS (standard_scores sum (to_floats (values c)))
                       else values c)
               (filter not_categorical data) scaled
    /\ Forall (fun d => exists v l, values d = BoolS (map (holds v) l))
              (indicator_columns data).
Proof.
  intros Hnd Hclash Hr.
  destruct (@preprocess_data_returned sum _ _ Hnd Hclash Hr) as [_ ->].
  exists (map (scaled_column sum) (filter not_categorical data)). repeat split.
  - now rewrite prepared_shape, rename_columns_app.
  - apply Forall2_map_right. intros c _.
    destruct (is_numerical c) eqn:Hn.
    + now rewrite scaled_column_scores.
    + unfold scaled_column. now rewrite Hn.
  - apply indicator_columns_flags.
Qed.

(** C2, amended: in the table that [preprocess_data] returns (input
    labels unique, no indicator labelled like a numerical column), no
    indicator column has a missing cell, and a column that is neither
    Numerical nor Categorical is the column that came in; a Numerical
    column holds its standard scores, and a cell of it is missing
    wherever the score is [NaN]: in every row when the column came in
    without a value, and when it has one row at most. *)
Theorem C2_missing_cells_of_returned_table (data r : DataFrame) :
  NoDup (columns data) -> no_clash data ->
  snd (preprocess_data sum data) = Ok r ->
  exists scaled,
    r = rename_columns (scaled ++ indicator_columns data)
    /\ Forall (fun d => missing (values d) = 0) (indicator_columns data)
    /\ Forall2 (fun c c' =>
                  if is_numerical c then
                    cells (values c')
                    = map float_cell
                          (standard_scores sum (to_floats (values c)))
                    /\ (missing (values c) = size (values c)
                        \/ size (values c) <= 1 ->
                        missing (values c') = size (values c))
                  else c' = c)
               (filter not_categorical data) scaled.
Proof.
  intros Hnd Hclash Hr.
  destruct (@preprocess_data_returned sum _ _ Hnd Hclash Hr) as [_ ->].
  exists (map (scaled_column sum) (filter not_categorical data)). repeat split.
  - now rewrite prepared_shape, rename_columns_app.
  - eapply Forall_impl; [|apply indicator_columns_flags].
    intros d (v & l & ->). apply missing_BoolS.
  - apply Forall2_map_right. intros c _.
    destruct (is_numerical c) eqn:Hn; [|unfold scaled_column; now rewrite Hn].
    rewrite scaled_column_scores by exact Hn. split; [reflexivity|].
    simpl values. intros H.
    rewrite <- to_floats_length, <- (standard_scores_length sum).
    apply missing_FloatS_all. destruct H as [H|H].
    + apply standard_scores_valueless.
      apply missing_all; [now apply numerical_not_object | exact H].
    + apply standard_scores_single. now rewrite to_floats_length.
Qed.

Lemma returned_numerical_In (data : DataFrame) (c : Column) :
  In c data -> is_numerical c = true ->
  In (mkColumn (str_replace_underscore (name c))
               (FloatS (standard_scores sum (to_floats (values c)))))
     (prepared sum data).
Proof.
  intros Hc Hn. rewrite prepared_shape. apply in_or_app. left.
  unfold rename_columns. rewrite map_map. apply in_map_iff.
  exists c. split.
  - now rewrite scaled_column_scores.
  - apply filter_In. split; [exact Hc|].
    unfold not_categorical. now rewrite numerical_not_categorical.
Qed.

(** C3, amended: for every input table (labels unique, no indicator
    labelled like a numerical column, a value in some categorical
    column) and every Numerical column of it whose standard deviation
    and deviations from the mean come out as zero in float64,
    [preprocess_data] raises nothing, no [ZeroVariance] either: it
    returns a table in which that column, under its label without
    underscores, is [NaN] in every row. *)
Theorem C3_zero_variance_not_raised (data : DataFrame) (c : Column) :
  NoDup (columns data) -> no_clash data -> has_category_value data = true ->
  In c data -> is_numerical c = true ->
  zero_variance sum (to_floats (values c)) ->
  exists r,
    snd (preprocess_data sum data) = Ok r
    /\ In (mkColumn (str_replace_underscore (name c))
                    (FloatS (repeat nan (size (values c))))) r.
Proof.
  intros Hnd Hclash Hm Hc Hn Hz. exists (prepared sum data). split.
  - rewrite <- has_mode_row_value in Hm. now rewrite preprocess_data_returns.
  - rewrite <- to_floats_length, <- (standard_scores_length sum).
    rewrite <- all_nan_repeat by now apply standard_scores_zero_variance.
    now apply returned_numerical_In.
Qed.
End Returned.

(* ------------------------------------------------------------------ *)
(** ** Worked tables                                                   *)
(* ------------------------------------------------------------------ *)

(** The table of the worked scenario: the missing age becomes 30 in the
    caller's frame, and the call returns the standard scores -1, 0, 1 next
    to the indicators of the two cities (sorted, underscores removed). *)
Lemma survey_preprocessed :
  preprocess_data sequential survey
  = ([ mkColumn "age" (FloatS [25; 30; 35]%float);
       mkColumn "city" (ObjectS [Some "NY"; Some "NY"; Some "LA"]) ],
     Ok [ mkColumn "age" (FloatS [-1; 0; 1]%float);
          mkColumn "cityLA" (BoolS [false; false; true]);
          mkColumn "cityNY" (BoolS [true; true; false]) ])%string.
Proof. vm_compute. reflexivity. Qed.

Lemma ages_labels_unique : NoDup (columns ages).
Proof. repeat constructor; simpl; intuition discriminate. Qed.

Lemma ages_no_clash : no_clash ages.
Proof.
  intros d Hd. vm_compute in Hd.
  destruct Hd as [<-|[<-|[]]]; simpl; intuition discriminate.
Qed.

Lemma ages_returns :
  snd (preprocess_data sequential ages) = Ok (prepared sequential ages).
Proof. vm_compute. reflexivity. Qed.

Lemma constant_age_labels_unique : NoDup (columns constant_age).
Proof. repeat constructor; simpl; intuition discriminate. Qed.

Lemma constant_age_no_clash : no_clash constant_age.
Proof.
  intros d Hd. vm_compute in Hd.
  destruct Hd as [<-|[<-|[]]]; simpl; intuition discriminate.
Qed.

Lemma all_missing_labels_unique : NoDup (columns all_missing).
Proof. repeat constructor; simpl; intuition discriminate. Qed.

Lemma all_missing_no_clash : no_clash all_missing.
Proof.
  intros d Hd. vm_compute in Hd.
  destruct Hd as [<-|[<-|[]]]; simpl; intuition discriminate.
Qed.

Lemma all_missing_returns :
  snd (preprocess_data sequential all_missing)
  = Ok (prepared sequential all_missing).
Proof. vm_compute. reflexivity. Qed.

(** A constant column is not always scaled to [NaN]: the float64 mean of
    three cells 0.1 is not 0.1, and the column comes back as three equal
    numbers. *)
Lemma constant_tenth_returned_as_numbers :
  snd (preprocess_data sequential constant_tenth)
  = Ok [ mkColumn "rate" (FloatS [-0.8164965809277261; -0.8164965809277261;
                                  -0.8164965809277261]%float);
         mkColumn "cityLA" (BoolS [false; true; false]);
         mkColumn "cityNY" (BoolS [true; false; true]) ]%string.
Proof. vm_compute. reflexivity. Qed.

(** C7, as stated, fails: the indicator of value "b" of column "a" is
    labelled "a_b" like the int column of the table, the label selects
    both, and the flags true, false, true are scaled with the numbers. *)
Lemma C7_indicator_scaled_under_shared_label :
  indicator_columns clashing
  = [ mkColumn "a_b" (BoolS [true; false; true]);
      mkColumn "a_c" (BoolS [false; true; false]) ]%string
  /\ snd (preprocess_data sequential clashing)
     = Ok [ mkColumn "ab" (FloatS [-1; 0; 1]%float);
            mkColumn "ab" (FloatS [0.5773502691896257; -1.1547005383792512;
                                   0.5773502691896257]%float);
            mkColumn "ac" (BoolS [false; true; false]) ]%string.
Proof. split; vm_compute; reflexivity. Qed.

Lemma C7_scaling_exactly_numerical_witness :
  exists scaled,
    prepared sequential ages
    = rename_columns (scaled ++ indicator_columns ages)
    /\ Forall2 (fun c c' =>
                  name c' = name c
                  /\ values c'
                     = if is_numerical c
                       then FloatS (standard_scores sequential
                                      (to_floats (values c)))
                       else values c)
               (filter not_categorical ages) scaled
    /\ Forall (fun d => exists v l, values d = BoolS (map (holds v) l))
              (indicator_columns ages).
Proof.
  apply (@C7_scaling_exactly_numerical sequential ages (prepared sequential ages)).
  - apply ages_labels_unique.
  - apply ages_no_clash.
  - apply ages_returns.
Defined.

(** C2, as stated, fails: a float column without a single value has no
    mean to be filled with, and comes back with every cell missing. *)
Lemma C2_all_missing_column_stays_missing :
  snd (preprocess_data sequential all_missing)
  = Ok [ mkColumn "score" (FloatS [nan; nan]%float);
         mkColumn "cityLA" (BoolS [false; true]);
         mkColumn "cityNY" (BoolS [true; false]) ]%string
  /\ missing (FloatS [nan; nan]%float) = 2.
Proof. split; vm_compute; reflexivity. Qed.

Lemma C2_missing_cells_of_returned_table_witness :
  exists scaled,
    prepared sequential all_missing
    = rename_columns (scaled ++ indicator_columns all_missing)
    /\ Forall (fun d => missing (values d) = 0) (indicator_columns all_missing)
    /\ Forall2 (fun c c' =>
                  if is_numerical c then
                    cells (values c')
                    = map float_cell
                          (standard_scores sequential (to_floats (values c)))
                    /\ (missing (values c) = size (values c)
                        \/ size (values c) <= 1 ->
                        missing (values c') = size (values c))
                  else c' = c)
               (filter not_categorical all_missing) scaled.
Proof.
  apply (@C2_missing_cells_of_returned_table sequential all_missing
           (prepared sequential all_missing)).
  - apply all_missing_labels_unique.
  - apply all_missing_no_clash.
  - apply all_missing_returns.
Defined.

(** C3, as stated, fails: the constant column comes back as a column of
    [NaN]; nothing is raised. *)
Lemma C3_constant_column_returned_as_NaN :
  snd (preprocess_data sequential constant_age)
  = Ok [ mkColumn "age" (FloatS [nan; nan; nan]%float);
         mkColumn "cityLA" (BoolS [false; true; false]);
         mkColumn "cityNY" (BoolS [true; false; true]) ]%string.
Proof. vm_compute. reflexivity. Qed.

Lemma C3_zero_variance_not_raised_witness :
  exists r,
    snd (preprocess_data sequential constant_age) = Ok r
    /\ In (mkColumn (str_replace_underscore "age")
                    (FloatS (repeat nan (size (IntS [5; 5; 5]%Z))))) r.
Proof.
  apply (@C3_zero_variance_not_raised sequential constant_age
           (mkColumn "age" (IntS [5; 5; 5]%Z))).
  - apply constant_age_labels_unique.
  - apply constant_age_no_clash.
  - reflexivity.
  - simpl. now left.
  - reflexivity.
  - split; [vm_compute; reflexivity|].
    intros x Hx. vm_compute in Hx.
    destruct Hx as [<-|[<-|[<-|[]]]]; vm_compute; reflexivity.
Defined.

(* ------------------------------------------------------------------ *)
(** ** One-hot encoding                                                *)
(* ------------------------------------------------------------------ *)

Lemma filled_values (l : list (option string)) (v : string) :
  In (Some v) (map (fill_object (hd_error (series_mode l))) l) <-> In (Some v) l.
Proof.
  split.
  - intros H. apply in_map_iff in H as ([s|] & E & Hx); simpl in E.
    + congruence.
    + assert (H : In v (series_mode l)).
      { destruct (series_mode l); [discriminate|]. injection E as ->. now left. }
      unfold series_mode in H. apply filter_In in H as [H _].
      now apply levels_In.
  - intros H. apply in_map_iff. now exists (Some v).
Qed.








Section OneHot.
Variable sum : list float -> float.


End OneHot.



(* ================================================================== *)
(** * Part 5: further properties                                       *)
(* ================================================================== *)

(* ------------------------------------------------------------------ *)
(** ** When [preprocess_data] raises [IndexError]                      *)
(* ------------------------------------------------------------------ *)

(** On a table with unique labels [preprocess_data] raises [IndexError]
    exactly when no categorical column has a value (no categorical
    column at all, only missing cells in them, or no row); the numerical
    columns of the caller's frame have been filled by then, and nothing
    else has been done to it. *)
Theorem preprocess_data_raises_iff (sum : list float -> float)
    (data : DataFrame) :
  NoDup (columns data) ->
  (snd (preprocess_data sum data) = Raise IndexError
   <-> no_category_value data)
  /\ (snd (preprocess_data sum data) = Raise IndexError ->
      fst (preprocess_data sum data) = imputed_numerical sum data).
Proof.
  intros Hnd. rewrite preprocess_data_stages by exact Hnd.
  destruct (has_mode_row data) eqn:Hm; simpl.
  - split; [split|]; intros H.
    + now apply scaled_outcome_not_IndexError in H.
    + apply has_mode_row_false in H. congruence.
    + now apply scaled_outcome_not_IndexError in H.
  - split; [split|]; auto. intros _. now apply has_mode_row_false.
Qed.

Lemma no_city_labels_unique : NoDup (columns no_city).
Proof. repeat constructor; simpl; intuition discriminate. Qed.

Lemma preprocess_data_raises_iff_witness :
  (snd (preprocess_data sequential no_city) = Raise IndexError
   <-> no_category_value no_city)
  /\ (snd (preprocess_data sequential no_city) = Raise IndexError ->
      fst (preprocess_data sequential no_city)
      = imputed_numerical sequential no_city).
Proof.
  apply (@preprocess_data_raises_iff sequential no_city).
  apply no_city_labels_unique.
Defined.

(** An indicator labelled like one of two numerical columns: the label
    selection of the scaling step has one column more than the key has
    labels, and the assignment raises a [ValueError]; the caller's frame
    has been filled by then. *)
Lemma clashing_twice_raises_ValueError :
  preprocess_data sequential clashing_twice
  = (clashing_twice, Raise LengthMismatch).
Proof. vm_compute. reflexivity. Qed.

(* ------------------------------------------------------------------ *)
(** ** The table that is returned                                      *)
(* ------------------------------------------------------------------ *)

Lemma prepared_no_object_no_int (sum : list float -> float) (data : DataFrame) :
  Forall (fun d => dtype_of (values d) <> object
                   /\ dtype_of (values d) <> int64) (prepared sum data).
Proof.
  rewrite prepared_shape. apply Forall_app. split; apply Forall_forall; intros d Hd.
  - unfold rename_columns in Hd. rewrite map_map in Hd.
    apply in_map_iff in Hd as (c & <- & Hc). apply filter_In in Hc as [_ Hnc].
    simpl. destruct (is_numerical c) eqn:Hn.
    + rewrite scaled_column_scores by exact Hn. simpl. split; discriminate.
    + unfold scaled_column. rewrite Hn.
      unfold not_categorical, is_categorical in Hnc.
      unfold is_numerical in Hn.
      destruct (dtype_of (values c)); simpl in *; split; congruence.
  - apply in_map_iff in Hd as (d0 & <- & Hd). simpl.
    rewrite (indicator_columns_bool _ _ Hd). split; discriminate.
Qed.

(** The table that [preprocess_data] returns (input labels unique, no
    indicator labelled like a numerical column) has no object column and
    no int64 column: each object column has been replaced by its
    indicators, and each int column comes back as float64. *)
Theorem preprocess_data_returns_no_object_no_int (sum : list float -> float)
    (data r : DataFrame) :
  NoDup (columns data) -> no_clash data ->
  snd (preprocess_data sum data) = Ok r ->
  Forall (fun d => dtype_of (values d) <> object
                   /\ dtype_of (values d) <> int64) r.
Proof.
  intros Hnd Hclash Hr.
  destruct (@preprocess_data_returned sum _ _ Hnd Hclash Hr) as [_ ->].
  apply prepared_no_object_no_int.
Qed.

Lemma preprocess_data_returns_no_object_no_int_witness :
  Forall (fun d => dtype_of (values d) <> object
                   /\ dtype_of (values d) <> int64) (prepared sequential ages).
Proof.
  apply (@preprocess_data_returns_no_object_no_int sequential ages
           (prepared sequential ages)).
  - apply ages_labels_unique.
  - apply ages_no_clash.
  - apply ages_returns.
Defined.

(** [preprocess_data] cannot be run on its own result: the table it
    returns has no object column, so a second call on it, when its labels
    are unique, raises [IndexError]. *)
Theorem preprocess_data_twice_raises (sum : list float -> float)
    (data r : DataFrame) :
  NoDup (columns data) -> no_clash data ->
  snd (preprocess_data sum data) = Ok r ->
  NoDup (columns r) ->
  snd (preprocess_data sum r) = Raise IndexError.
Proof.
  intros Hnd Hclash Hr Hndr.
  destruct (@preprocess_data_returned sum _ _ Hnd Hclash Hr) as [_ ->].
  rewrite preprocess_data_raises; [reflexivity|exact Hndr|].
  apply no_object_no_mode_row. intros c Hc.
  assert (H := prepared_no_object_no_int sum data).
  rewrite Forall_forall in H. exact (proj1 (H c Hc)).
Qed.

Lemma prepared_ages_labels_unique : NoDup (columns (prepared sequential ages)).
Proof. vm_compute. repeat constructor; simpl; intuition discriminate. Qed.

Lemma preprocess_data_twice_raises_witness :
  snd (preprocess_data sequential (prepared sequential ages)) = Raise IndexError.
Proof.
  apply (@preprocess_data_twice_raises sequential ages (prepared sequential ages)).
  - apply ages_labels_unique.
  - apply ages_no_clash.
  - apply ages_returns.
  - apply prepared_ages_labels_unique.
Defined.

Lemma str_replace_underscore_free (s : string) :
  underscore_free (str_replace_underscore s).
Proof.
  unfold underscore_free. induction s as [|a s IH]; simpl; [tauto|].
  destruct (Ascii.eqb_spec a "_"%char) as [E|E]; [exact IH|].
  simpl. intros [H|H]; [congruence|contradiction].
Qed.

(** No label of the table that [preprocess_data] returns (input labels
    unique, no indicator labelled like a numerical column) has an
    underscore: the last statement removes them from every label, those
    of the numerical columns included; the labels returned are the labels
    of the encoded table with the underscores removed, in the same
    order. *)
Theorem preprocess_data_labels_without_underscore (sum : list float -> float)
    (data r : DataFrame) :
  NoDup (columns data) -> no_clash data ->
  snd (preprocess_data sum data) = Ok r ->
  Forall underscore_free (columns r)
  /\ columns r
     = map str_replace_underscore
           (columns (get_dummies (fst (preprocess_data sum data))
                                 (columns (select_dtypes [object] data)))).
Proof.
  intros Hnd Hclash Hr.
  destruct (@preprocess_data_returned sum _ _ Hnd Hclash Hr) as [Hm ->].
  rewrite preprocess_data_caller_frame, Hm, stage_encode by exact Hnd.
  rewrite columns_prepared. split; [|reflexivity].
  apply Forall_forall. intros k Hk.
  apply in_map_iff in Hk as (k0 & <- & _). apply str_replace_underscore_free.
Qed.

Lemma preprocess_data_labels_without_underscore_witness :
  Forall underscore_free (columns (prepared sequential ages))
  /\ columns (prepared sequential ages)
     = map str_replace_underscore
           (columns (get_dummies (fst (preprocess_data sequential ages))
                                 (columns (select_dtypes [object] ages)))).
Proof.
  apply (@preprocess_data_labels_without_underscore sequential ages
           (prepared sequential ages)).
  - apply ages_labels_unique.
  - apply ages_no_clash.
  - apply ages_returns.
Defined.

(* ------------------------------------------------------------------ *)
(** ** The indicator columns                                           *)
(* ------------------------------------------------------------------ *)

(** Every value of a Categorical column gets its indicator column in the
    table that [preprocess_data] returns (input labels unique, no
    indicator labelled like a numerical column): it is labelled with the
    column's label, an underscore and the value, underscores then removed,
    and its flag is set in the rows that hold the value, a missing cell
    counting as the first mode of the column. *)
Theorem indicator_column_of_value (sum : list float -> float)
    (data r : DataFrame) (c : Column)
    (l : list (option string)) (v : string) :
  NoDup (columns data) -> no_clash data ->
  snd (preprocess_data sum data) = Ok r ->
  In c data -> values c = ObjectS l -> In (Some v) l ->
  In (mkColumn (str_replace_underscore (name c ++ "_" ++ v))
               (BoolS (map (fun x => holds v (fill_object (first_mode c) x)) l)))
     r.
Proof.
  intros Hnd Hclash Hr Hc Hl Hv.
  destruct (@preprocess_data_returned sum _ _ Hnd Hclash Hr) as [_ ->].
  assert (Hcat : is_categorical c = true).
  { unfold is_categorical. now rewrite Hl. }
  destruct (@first_mode_least l v Hv) as (m & Hm & _).
  assert (Hfm : first_mode c = Some m) by (unfold first_mode; now rewrite Hl).
  rewrite prepared_shape. apply in_or_app. right.
  unfold rename_columns. apply in_map_iff.
  exists (mkColumn (name c ++ "_" ++ v)
                   (BoolS (map (fun x => holds v (fill_object (first_mode c) x)) l))).
  split; [reflexivity|].
  apply in_flat_map. exists c. split; [apply filter_In; now split|].
  unfold indicator_block, indicators, get_dummies_1d.
  rewrite (@impute_mode_value c l m Hl Hfm). simpl.
  apply in_map_iff. exists v. split.
  - now rewrite map_map, Hfm.
  - apply levels_In. rewrite <- Hm. now apply filled_values.
Qed.

Lemma towns_labels_unique : NoDup (columns towns).
Proof. repeat constructor; simpl; intuition discriminate. Qed.

Lemma towns_no_clash : no_clash towns.
Proof.
  intros d Hd. vm_compute in Hd.
  destruct Hd as [<-|[<-|[]]]; simpl; intuition discriminate.
Qed.

Lemma towns_returns :
  snd (preprocess_data sequential towns) = Ok (prepared sequential towns).
Proof. vm_compute. reflexivity. Qed.

Lemma indicator_column_of_value_witness :
  In (mkColumn (str_replace_underscore ("town" ++ "_" ++ "NY"))
               (BoolS (map (fun x =>
                              holds "NY"
                                (fill_object
                                   (first_mode
                                      (mkColumn "town"
                                         (ObjectS [Some "NY"; None; Some "LA";
                                                   Some "NY"]))) x))
                           [Some "NY"; None; Some "LA"; Some "NY"])))%string
     (prepared sequential towns).
Proof.
  apply (@indicator_column_of_value sequential towns (prepared sequential towns)
           (mkColumn "town" (ObjectS [Some "NY"; None; Some "LA"; Some "NY"]))
           [Some "NY"; None; Some "LA"; Some "NY"] "NY")%string.
  - apply towns_labels_unique.
  - apply towns_no_clash.
  - apply towns_returns.
  - simpl. now left.
  - reflexivity.
  - simpl. now left.
Defined.

(* ------------------------------------------------------------------ *)
(** ** Charts of a column that is, or is not, in the table             *)
(* ------------------------------------------------------------------ *)

Lemma getitem_label_absent (data : DataFrame) (k : string) :
  ~ In k (columns data) -> getitem_label data k = Raise (KeyError k).
Proof.
  intros H. unfold getitem_label, getitem. simpl. rewrite app_nil_r.
  rewrite filter_none; [reflexivity|]. intros c Hc.
  apply String.eqb_neq. intros E. apply H. rewrite <- E.
  unfold columns. now apply in_map.
Qed.

Lemma column_absent (data : DataFrame) (k : string) :
  ~ In k (columns data) -> column data k = Raise (KeyError k).
Proof. intros H. unfold column. now rewrite getitem_label_absent. Qed.

Lemma column_present (data : DataFrame) (k : string) :
  NoDup (columns data) -> In k (columns data) ->
  exists s, In (mkColumn k s) data /\ column data k = Ok s.
Proof.
  intros Hnd H. unfold columns in H. apply in_map_iff in H as (c & <- & Hc).
  exists (values c). split; [now destruct c|]. now apply column_In.
Qed.

(** On a table with unique labels [visualize_scatterplot] draws exactly
    when both labels are columns of the table; otherwise it raises
    [KeyError] for the first of x, y that is not, whatever the other
    is. *)
Theorem scatterplot_draws_iff_columns_exist (choices : nat -> list color)
    (data : DataFrame) (x y : string) :
  NoDup (columns data) ->
  ((exists fig, visualize_scatterplot choices data x y = Ok fig)
   <-> In x (columns data) /\ In y (columns data))
  /\ (~ In x (columns data) ->
      visualize_scatterplot choices data x y = Raise (KeyError x))
  /\ (In x (columns data) -> ~ In y (columns data) ->
      visualize_scatterplot choices data x y = Raise (KeyError y)).
Proof.
  intros Hnd.
  assert (Hx : ~ In x (columns data) ->
               visualize_scatterplot choices data x y = Raise (KeyError x)).
  { intros H. unfold visualize_scatterplot. now rewrite column_absent. }
  assert (Hy : In x (columns data) -> ~ In y (columns data) ->
               visualize_scatterplot choices data x y = Raise (KeyError y)).
  { intros H H'. destruct (column_present data x Hnd H) as (xs & _ & E).
    unfold visualize_scatterplot. now rewrite E, column_absent. }
  split; [split|split; assumption].
  - intros (fig & H).
    destruct (in_dec string_dec x (columns data)) as [Hin|Hin].
    + destruct (in_dec string_dec y (columns data)) as [Hin'|Hin']; [now split|].
      rewrite Hy in H by assumption. discriminate.
    + rewrite Hx in H by exact Hin. discriminate.
  - intros [H H'].
    destruct (column_present data x Hnd H) as (xs & _ & E).
    destruct (column_present data y Hnd H') as (ys & _ & E').
    unfold visualize_scatterplot. rewrite E, E'. eauto.
Qed.

Lemma mixed_table_labels_unique : NoDup (columns mixed_table).
Proof. repeat constructor; simpl; intuition discriminate. Qed.

Lemma scatterplot_draws_iff_columns_exist_witness :
  ((exists fig,
       visualize_scatterplot (fun k => seq 0 k) mixed_table "city" "town" = Ok fig)
   <-> In "city" (columns mixed_table) /\ In "town" (columns mixed_table))%string
  /\ (~ In "city" (columns mixed_table) ->
      visualize_scatterplot (fun k => seq 0 k) mixed_table "city" "town"
      = Raise (KeyError "city"))%string
  /\ (In "city" (columns mixed_table) -> ~ In "town" (columns mixed_table) ->
      visualize_scatterplot (fun k => seq 0 k) mixed_table "city" "town"
      = Raise (KeyError "town"))%string.
Proof.
  apply (@scatterplot_draws_iff_columns_exist (fun k => seq 0 k) mixed_table
           "city" "town")%string.
  apply mixed_table_labels_unique.
Defined.

(* ------------------------------------------------------------------ *)
(** ** The slices of the pie                                           *)
(* ------------------------------------------------------------------ *)

Lemma list_sum_perm (l l' : list nat) :
  Permutation l l' -> list_sum l = list_sum l'.
Proof. intros H. induction H; simpl; lia. Qed.

Lemma list_sum_map_add (A : Type) (f g : A -> nat) (l : list A) :
  list_sum (map (fun a => f a + g a) l) = list_sum (map f l) + list_sum (map g l).
Proof. induction l as [|a l IH]; simpl; lia. Qed.

(** Distinct values under an equality test that compares keys. *)
Section UniqueKeyFacts.
Variables A K : Type.
Variable eqb : A -> A -> bool.
Variable key : A -> K.
Hypothesis eqb_key : forall x y, eqb x y = true <-> key x = key y.

Lemma NoDup_map_filter (p : A -> bool) (l : list A) :
  NoDup (map key l) -> NoDup (map key (filter p l)).
Proof.
  induction l as [|a l IH]; simpl; intros H; [constructor|].
  inversion H as [|? ? Ha Hl]; subst.
  destruct (p a); simpl; [|now apply IH].
  constructor; [|now apply IH].
  intros Hin. apply Ha. apply in_map_iff in Hin as (b & E & Hb).
  apply filter_In in Hb as [Hb _]. apply in_map_iff. now exists b.
Qed.

Lemma unique_key_NoDup (l : list A) : NoDup (map key (unique eqb l)).
Proof.
  induction l as [|y t IH]; simpl; constructor.
  - intros Hin. apply in_map_iff in Hin as (z & E & Hz).
    apply filter_In in Hz as [_ Hz]. apply negb_true_iff in Hz.
    symmetry in E. apply eqb_key in E. congruence.
  - now apply NoDup_map_filter.
Qed.

Lemma unique_key_In (x : A) (l : list A) :
  In x l -> In (key x) (map key (unique eqb l)).
Proof.
  induction l as [|y t IH]; simpl; intros H; [contradiction|].
  destruct H as [->|H]; [now left|].
  apply IH in H. apply in_map_iff in H as (z & E & Hz).
  destruct (eqb y z) eqn:Eyz.
  - left. apply eqb_key in Eyz. congruence.
  - right. apply in_map_iff. exists z. split; [exact E|].
    apply filter_In. split; [exact Hz|]. now rewrite Eyz.
Qed.

Lemma one_match (v : A) (us : list A) :
  NoDup (map key us) -> In (key v) (map key us) ->
  list_sum (map (fun u => if eqb u v then 1 else 0) us) = 1.
Proof.
  induction us as [|u us IH]; simpl; intros Hnd Hin; [contradiction|].
  inversion Hnd as [|? ? Hu Hus]; subst.
  destruct (eqb u v) eqn:E.
  - apply eqb_key in E. f_equal.
    clear IH Hin Hnd Hus. induction us as [|w us IH]; simpl; [reflexivity|].
    destruct (eqb w v) eqn:E'.
    + apply eqb_key in E'. exfalso. apply Hu. left. congruence.
    + apply IH. intros H. apply Hu. now right.
  - destruct Hin as [Hin|Hin].
    + apply eqb_key in Hin. congruence.
    + now apply IH.
Qed.

(** The occurrences of the distinct values add up to the whole list. *)
Lemma occurrences_total (us vs : list A) :
  NoDup (map key us) -> (forall v, In v vs -> In (key v) (map key us)) ->
  list_sum (map (fun u => length (filter (eqb u) vs)) us) = length vs.
Proof.
  intros Hnd. induction vs as [|v vs IH]; intros Hin.
  - clear. induction us as [|u us IH]; simpl; [reflexivity|exact IH].
  - replace (map (fun u => length (filter (eqb u) (v :: vs))) us)
      with (map (fun u => (if eqb u v then 1 else 0)
                          + length (filter (eqb u) vs)) us).
    + rewrite list_sum_map_add, one_match, IH; auto.
      * intros w Hw. apply Hin. now right.
      * apply Hin. now left.
    + apply map_ext. intros u. simpl. now destruct (eqb u v).
Qed.
End UniqueKeyFacts.

Lemma ascending_map (A B : Type) (leA : A -> A -> bool) (leB : B -> B -> bool)
    (f : A -> B) (l : list A) :
  (forall a b, leA a b = leB (f a) (f b)) ->
  ascending leA l -> ascending leB (map f l).
Proof.
  intros H. induction l as [|a l IH]; simpl; [trivial|].
  intros [Ha Hl]. split; [|now apply IH].
  intros y Hy. apply in_map_iff in Hy as (b & <- & Hb).
  rewrite <- H. now apply Ha.
Qed.

Lemma value_counts_descending (s : Series) :
  descending (map snd (value_counts s)).
Proof.
  unfold descending, value_counts.
  apply ascending_map with (leA := fun a b : scalar * nat => snd b <=? snd a);
    [reflexivity|].
  apply sort_ascending.
  - intros a b. destruct (Nat.le_ge_cases (snd b) (snd a)) as [H|H].
    + left. now apply Nat.leb_le.
    + right. now apply Nat.leb_le.
  - intros a b c Hab Hbc. apply Nat.leb_le in Hab, Hbc. apply Nat.leb_le. lia.
Qed.

Lemma value_counts_total (s : Series) :
  list_sum (map snd (value_counts s)) = length (present_cells (cells s)).
Proof.
  unfold value_counts.
  set (vs := present_cells (cells s)).
  rewrite (list_sum_perm (Permutation_map snd (sort_perm _ _))).
  rewrite map_map. simpl.
  apply (@occurrences_total _ _ _ _ scalar_eqb_key).
  - apply (@unique_key_NoDup _ _ _ _ scalar_eqb_key).
  - intros v Hv. now apply (@unique_key_In _ _ _ _ scalar_eqb_key).
Qed.

(** The pie chart of a column of a table with unique labels, when the
    column has a value, accounts for every cell that is present exactly
    once: there is a slice, the slices are as many as the labels, no
    two labels are one value (0.0 and -0.0 are), the slice sizes add up
    to the number of non-missing cells, and the slices come largest
    first. *)
Theorem pie_chart_slices (data : DataFrame) (label : string) (s : Series)
    (v : scalar) :
  NoDup (columns data) -> In (mkColumn label s) data -> In (Some v) (cells s) ->
  exists counts labels,
    visualize_pie_chart data label
    = Ok (mkFigure (pie counts labels) (label ++ " Pie Chart") None None)
    /\ counts <> []
    /\ length counts = length labels
    /\ NoDup (map key_of labels)
    /\ list_sum counts = length (present_cells (cells s))
    /\ descending counts.
Proof.
  intros Hnd Hc Hv.
  exists (map snd (value_counts s)), (map fst (value_counts s)).
  destruct (value_counts_spec s) as [Hperm Hall]. simpl in Hperm.
  repeat split.
  - exact (@visualize_pie_chart_In data (mkColumn label s) v Hnd Hc Hv).
  - intros E. apply map_eq_nil in E. exact (@value_counts_cons s v Hv E).
  - now rewrite !length_map.
  - eapply Permutation_NoDup;
      [apply Permutation_map, Permutation_sym, Hperm|].
    apply (@unique_key_NoDup _ _ _ _ scalar_eqb_key).
  - apply value_counts_total.
  - apply value_counts_descending.
Qed.

Lemma visits_labels_unique : NoDup (columns visits).
Proof. repeat constructor; simpl; intuition. Qed.

Lemma pie_chart_slices_witness :
  exists counts labels,
    visualize_pie_chart visits "visits"
    = Ok (mkFigure (pie counts labels) ("visits" ++ " Pie Chart") None None)
    /\ counts <> []
    /\ length counts = length labels
    /\ NoDup (map key_of labels)
    /\ list_sum counts = length (present_cells (cells (IntS [1; 1; 2]%Z)))
    /\ descending counts.
Proof.
  apply (@pie_chart_slices visits "visits" (IntS [1; 1; 2]%Z) (VInt 1)).
  - apply visits_labels_unique.
  - simpl. now left.
  - simpl. now left.
Defined.

(** Neither a column without a value nor a label that the table has
    twice gets a pie: [plt.pie] raises a [ValueError]. *)
Lemma pie_chart_refused :
  visualize_pie_chart blank "score" = Raise NoWedge
  /\ visualize_pie_chart collided "abc" = Raise NoWedge.
Proof. split; vm_compute; reflexivity. Qed.

(* ------------------------------------------------------------------ *)
(** ** Loading                                                         *)
(* ------------------------------------------------------------------ *)

Lemma take_skip (n : nat) (s : string) : (take n s ++ skip n s)%string = s.
Proof.
  revert n. induction s as [|a s IH]; intros [|n]; simpl; try reflexivity.
  now rewrite IH.
Qed.

Lemma splitext_parts (p : string) :
  (fst (splitext p) ++ snd (splitext p))%string = p.
Proof.
  unfold splitext. destruct (rfind "." p) as [dotIndex|]; simpl.
  - destruct (_ && _); simpl.
    + apply take_skip.
    + clear. induction p; simpl; congruence.
  - clear. induction p; simpl; congruence.
Qed.

(** [load_data] never raises and reads no line of input.  When it returns
    a table, the path ends in one of ".csv", ".xls", ".xlsx", ".db",
    ".sql", spelled exactly so; when it returns [None], it has printed a
    message. *)
Theorem load_data_never_raises (env : Environment) (path : string)
    (lines : list string) :
  exists out r,
    load_data env path lines = (out, lines, inr r)
    /\ (r = None -> exists text, In (Print text) out)
    /\ (forall data, r = Some data ->
        exists root ext,
          path = (root ++ ext)%string /\ In ext supported_extensions).
Proof.
  assert (Hparts := splitext_parts path).
  unfold load_data, try_except, bind, supported_extensions.
  destruct (String.eqb_spec (snd (splitext path)) ".csv") as [E|_].
  { destruct (read_csv env path) as [e|d]; simpl.
    - destruct e; simpl; eexists; eexists; (split; [reflexivity|]);
        (split; [intros _; eexists; now left | discriminate]).
    - eexists; eexists. split; [reflexivity|]. split; [discriminate|].
      intros data _. exists (fst (splitext path)), ".csv"%string.
      rewrite <- E. split; [now symmetry | rewrite E; simpl; tauto]. }
  destruct (existsb (String.eqb (snd (splitext path))) [".xls"; ".xlsx"]%string) eqn:X.
  { destruct (read_excel env path) as [e|d]; simpl.
    - destruct e; simpl; eexists; eexists; (split; [reflexivity|]);
        (split; [intros _; eexists; now left | discriminate]).
    - eexists; eexists. split; [reflexivity|]. split; [discriminate|].
      intros data _. exists (fst (splitext path)), (snd (splitext path)).
      split; [now symmetry|].
      apply existsb_exists in X as (k & Hk & E). apply String.eqb_eq in E.
      rewrite E. simpl in Hk. simpl. tauto. }
  destruct (existsb (String.eqb (snd (splitext path))) [".db"; ".sql"]%string) eqn:D.
  { assert (Hext : In (snd (splitext path)) [".csv"; ".xls"; ".xlsx"; ".db"; ".sql"]%string).
    { apply existsb_exists in D as (k & Hk & E). apply String.eqb_eq in E.
      rewrite E. simpl in Hk. simpl. tauto. }
    unfold read_data_from_db, try_except, bind.
    destruct (connect env path) as [e|[]]; simpl.
    { destruct e; simpl; eexists; eexists; (split; [reflexivity|]);
        (split; [intros _; eexists; now left | discriminate]). }
    destruct (first_table_name env path) as [e|[t|]]; simpl.
    - destruct e; simpl; eexists; eexists; (split; [reflexivity|]);
        (split; [intros _; eexists; now left | discriminate]).
    - destruct (read_sql_query env path _) as [e|d]; simpl.
      + destruct e; simpl; eexists; eexists; (split; [reflexivity|]);
          (split; [intros _; eexists; now left | discriminate]).
      + eexists; eexists. split; [reflexivity|]. split; [discriminate|].
        intros data _. exists (fst (splitext path)), (snd (splitext path)).
        split; [now symmetry | exact Hext].
    - eexists; eexists. split; [reflexivity|].
      split; [intros _; eexists; now left | discriminate]. }
  simpl. eexists; eexists. split; [reflexivity|].
  split; [intros _; eexists; now left | discriminate].
Qed.


(** [read_data_from_db] closes the connection exactly when nothing
    raises: after "no tables found" and after the table has been read.
    When sqlite raises on the first query, the function prints the error
    and returns [None] with the connection still open; it returns a table
    exactly when the first table of the database could be read. *)
Theorem read_data_from_db_closes_unless_raised (env : Environment)
    (file_path : string) (lines : list string) :
  let run := read_data_from_db env file_path lines in
  (In (Close file_path) (effects_of run)
   <-> connect env file_path = inr tt
       /\ (first_table_name env file_path = inr None
           \/ exists table_name data,
                first_table_name env file_path = inr (Some table_name)
                /\ read_sql_query env file_path
                     ("SELECT * FROM " ++ table_name)%string = inr data))
  /\ (forall data,
        result_of run = inr (Some data)
        <-> connect env file_path = inr tt
            /\ exists table_name,
                 first_table_name env file_path = inr (Some table_name)
                 /\ read_sql_query env file_path
                      ("SELECT * FROM " ++ table_name)%string = inr data)
  /\ (connect env file_path = inr tt ->
      first_table_name env file_path = inl SqliteError ->
      result_of run = inr None /\ ~ In (Close file_path) (effects_of run)).
Proof.
  unfold read_data_from_db, try_except, bind, effects_of, result_of.
  destruct (connect env file_path) as [e|[]]; simpl.
  { split; [split; [intros [] | intros [H _]; discriminate]|].
    split; [|discriminate].
    intros data. split; [discriminate | intros [H _]; discriminate]. }
  destruct (first_table_name env file_path) as [e|[t|]] eqn:T; simpl.
  - split; [|split].
    + split.
      * destruct (is_sqlite_error e); simpl; [intros [H|[]]; discriminate | intros []].
      * intros [_ [H|(t & d & H & _)]]; discriminate.
    + intros data. split.
      * destruct (is_sqlite_error e); simpl; discriminate.
      * intros [_ (t & H & _)]. discriminate.
    + intros _ H. injection H as ->. simpl. split; [reflexivity|].
      intros [H|[]]. discriminate.
  - destruct (read_sql_query env file_path _) as [e|d] eqn:Q; simpl.
    + split; [|split].
      * split.
        -- destruct (is_sqlite_error e); simpl; [intros [H|[]]; discriminate | intros []].
        -- intros [_ [H|(t' & d & H & H')]]; [discriminate|].
           injection H as <-. rewrite Q in H'. discriminate.
      * intros data. split.
        -- destruct (is_sqlite_error e); simpl; discriminate.
        -- intros [_ (t' & H & H')]. injection H as <-. rewrite Q in H'. discriminate.
      * discriminate.
    + split; [|split].
      * split; [intros _; split; [reflexivity|right; eauto] | intros _; now left].
      * intros data. split.
        -- intros H. injection H as <-. split; [reflexivity|eauto].
        -- intros [_ (t' & H & H')]. injection H as <-. rewrite Q in H'.
           now injection H' as <-.
      * discriminate.
  - split; [|split].
    + split; [intros _; split; [reflexivity|now left] | intros _; right; now left].
    + intros data. split; [discriminate | intros [_ (t' & H & _)]; discriminate].
    + discriminate.
Qed.

(* ------------------------------------------------------------------ *)
(** ** The box plot and the chart of one column                        *)
(* ------------------------------------------------------------------ *)

Lemma label_found (data : DataFrame) (k : string) :
  In k (columns data) -> existsb (String.eqb k) (columns data) = true.
Proof.
  intros H. apply existsb_exists. exists k. split; [exact H|apply String.eqb_refl].
Qed.

Lemma label_In (data : DataFrame) (c : Column) :
  In c data -> In (name c) (columns data).
Proof. intros H. unfold columns. now apply in_map. Qed.

(** For two columns of a table with unique labels [visualize_boxplot]
    always draws the box plot of y over x.  The colours follow the type
    signatures: one per distinct cell of x when x is Categorical,
    whatever y is (two Categorical columns are drawn like a Categorical
    and a Numerical one); else one per distinct cell of y when y is
    Categorical; none when both are Numerical. *)
Theorem boxplot_palette_by_signature (env : Environment) (data : DataFrame)
    (x y : string) (xs ys : Series) :
  NoDup (columns data) ->
  In (mkColumn x xs) data -> In (mkColumn y ys) data ->
  visualize_boxplot env data x y
  = inr (mkBoxFigure x y
           match classify xs, classify ys with
           | Categorical, _ => Some (choices env (length (series_unique xs)))
           | Numerical, Categorical =>
               Some (choices env (length (series_unique ys)))
           | Numerical, Numerical => None
           end
           (x ++ " vs " ++ y ++ " " ++ "Boxplot")%string x y).
Proof.
  intros Hnd Hx Hy. unfold visualize_boxplot, sns_boxplot, classify.
  assert (Ex := @column_In data (mkColumn x xs) Hnd Hx).
  assert (Ey := @column_In data (mkColumn y ys) Hnd Hy).
  simpl in Ex, Ey. rewrite Ex, Ey.
  rewrite (label_found data x (label_In data _ Hx)).
  rewrite (label_found data y (label_In data _ Hy)).
  destruct (is_object xs), (is_object ys); reflexivity.
Qed.

Lemma boxplot_palette_by_signature_witness :
  visualize_boxplot example_env mixed_table "city" "age"
  = inr (mkBoxFigure "city" "age"
           match classify (ObjectS [Some "NY"; Some "NY"; Some "LA"]%string),
                 classify (IntS [25; 30; 35]%Z) with
           | Categorical, _ =>
               Some (choices example_env
                       (length (series_unique
                                  (ObjectS [Some "NY"; Some "NY"; Some "LA"]%string))))
           | Numerical, Categorical =>
               Some (choices example_env
                       (length (series_unique (IntS [25; 30; 35]%Z))))
           | Numerical, Numerical => None
           end
           ("city" ++ " vs " ++ "age" ++ " " ++ "Boxplot")%string "city" "age")%string.
Proof.
  apply (@boxplot_palette_by_signature example_env mixed_table "city" "age").
  - apply mixed_table_labels_unique.
  - simpl. now left.
  - simpl. right. now left.
Defined.

(** A label that is not in the table: [visualize_individual_column]
    answers with a message and raises nothing, while
    [visualize_pie_chart] and [visualize_boxplot] raise [KeyError]. *)
Theorem unknown_column_message_or_KeyError (env : Environment)
    (data : DataFrame) (label other : string) :
  ~ In label (columns data) ->
  visualize_individual_column env data label
  = no_such_column ("Column '" ++ label ++ "' does not exist in the data.")%string
  /\ visualize_pie_chart data label = Raise (KeyError label)
  /\ visualize_boxplot env data label other = inl (FromPandas (KeyError label)).
Proof.
  intros H. unfold visualize_individual_column, visualize_pie_chart,
    visualize_boxplot.
  rewrite (column_absent data label H), (getitem_label_absent data label H).
  auto.
Qed.

Lemma unknown_column_message_or_KeyError_witness :
  visualize_individual_column example_env mixed_table "town"
  = no_such_column ("Column '" ++ "town" ++ "' does not exist in the data.")%string
  /\ visualize_pie_chart mixed_table "town" = Raise (KeyError "town")
  /\ visualize_boxplot example_env mixed_table "town" "age"
     = inl (FromPandas (KeyError "town")).
Proof.
  apply (@unknown_column_message_or_KeyError example_env mixed_table "town" "age").
  simpl. intuition discriminate.
Defined.

Lemma combine_fst_snd (A B : Type) (l : list (A * B)) :
  combine (map fst l) (map snd l) = l.
Proof. induction l as [|[a b] l IH]; simpl; congruence. Qed.

Lemma nth_numbered (heights : list nat) (i : nat) :
  i < length heights ->
  nth i (map (fun ic : nat * nat => (fst ic, snd ic, str_nat (snd ic)))
             (combine (seq 0 (length heights)) heights))
        (0, 0, EmptyString)
  = (i, nth i heights 0, str_nat (nth i heights 0)).
Proof.
  intros Hi.
  set (f := fun ic : nat * nat => (fst ic, snd ic, str_nat (snd ic))).
  rewrite nth_indep with (d' := f (0, 0))
    by (rewrite length_map, length_combine, length_seq; lia).
  rewrite (map_nth f), combine_nth by now rewrite length_seq.
  rewrite seq_nth by exact Hi. reflexivity.
Qed.

(** For a Categorical column of a table with unique labels, when the
    column has a value, [visualize_individual_column] draws the bars
    that [visualize_pie_chart] draws as slices: the same values with the
    same counts, in the same order.  It prints these counts, and writes
    over the bar at position [i] the height of that bar. *)
Theorem individual_column_bars_are_pie_slices (env : Environment)
    (data : DataFrame) (header_name : string) (s : Series) (v : scalar) :
  NoDup (columns data) -> In (mkColumn header_name s) data ->
  is_object s = true -> In (Some v) (cells s) ->
  exists labels heights texts,
    visualize_individual_column env data header_name
    = bar_chart labels heights texts
        (header_name ++ " Histogram")%string header_name "Count"%string
        ([nl ++ "Value counts for column '" ++ header_name ++ "':"]%string,
         combine labels heights)
    /\ visualize_pie_chart data header_name
       = Ok (mkFigure (pie heights labels)
               (header_name ++ " Pie Chart")%string None None)
    /\ length texts = length heights
    /\ forall i, i < length heights ->
         nth i texts (0, 0, EmptyString)
         = (i, nth i heights 0, str_nat (nth i heights 0)).
Proof.
  intros Hnd Hc Hobj Hv.
  exists (map fst (value_counts s)), (map snd (value_counts s)).
  eexists. unfold visualize_individual_column.
  assert (Es := @column_In data (mkColumn header_name s) Hnd Hc).
  simpl in Es. rewrite Es, Hobj, combine_fst_snd. split; [reflexivity|].
  split; [exact (@visualize_pie_chart_In data (mkColumn header_name s) v Hnd Hc Hv)|].
  split.
  - rewrite length_map, length_combine, length_seq, !length_map. lia.
  - intros i Hi. rewrite <- (length_map snd (value_counts s)).
    now apply nth_numbered.
Qed.

Lemma individual_column_bars_are_pie_slices_witness :
  exists labels heights texts,
    visualize_individual_column example_env mixed_table "city"
    = bar_chart labels heights texts
        ("city" ++ " Histogram")%string "city" "Count"%string
        ([nl ++ "Value counts for column '" ++ "city" ++ "':"]%string,
         combine labels heights)
    /\ visualize_pie_chart mixed_table "city"
       = Ok (mkFigure (pie heights labels)
               ("city" ++ " Pie Chart")%string None None)
    /\ length texts = length heights
    /\ forall i, i < length heights ->
         nth i texts (0, 0, EmptyString)
         = (i, nth i heights 0, str_nat (nth i heights 0)).
Proof.
  apply (@individual_column_bars_are_pie_slices example_env mixed_table "city"
           (ObjectS [Some "NY"; Some "NY"; Some "LA"]%string) (VStr "NY")).
  - apply mixed_table_labels_unique.
  - simpl. now left.
  - reflexivity.
  - simpl. now left.
Defined.

(* ------------------------------------------------------------------ *)
(** ** Programs                                                        *)
(* ------------------------------------------------------------------ *)

Lemma bind_stop (A B : Type) (m : io A) (k : A -> io B) (lines : list string)
    (out : list effect) (rest : list string) (s : stop) :
  m lines = (out, rest, inl s) -> bind m k lines = (out, rest, inl s).
Proof. intros E. unfold bind. now rewrite E. Qed.

Lemma bind_value (A B : Type) (m : io A) (k : A -> io B) (lines : list string)
    (out : list effect) (rest : list string) (a : A) :
  m lines = (out, rest, inr a) ->
  bind m k lines
  = (out ++ effects_of (k a rest), lines_left (k a rest), result_of (k a rest)).
Proof.
  intros E. unfold bind, effects_of, lines_left, result_of. rewrite E.
  now destruct (k a rest) as [[out' rest'] r].
Qed.

Lemma calls_app (out out' : list effect) :
  calls (out ++ out') = calls out ++ calls out'.
Proof. apply flat_map_app. Qed.

Ltac run m lines :=
  let out := fresh "out" in
  let rest := fresh "rest" in
  let s := fresh "s" in
  let a := fresh "a" in
  let E := fresh "E" in
  destruct (m lines) as [[out rest] [s|a]] eqn:E;
  [rewrite (@bind_stop _ _ _ _ _ _ _ _ E)
  |rewrite (@bind_value _ _ _ _ _ _ _ _ E)].

Ltac io_unfold :=
  unfold steady, eager, within, quiet, calling, exits_when_asked, ret, emit, print, raise, exit,
    out_of_fuel, effects_of, lines_left, result_of in *;
  simpl in *.

Section Programs.
Variables A B : Type.

Lemma steady_ret (a : A) : steady (ret a).
Proof. io_unfold. intros lines. split; [lia|discriminate]. Qed.

Lemma steady_emit (e : effect) : steady (emit e).
Proof. io_unfold. intros lines. split; [lia|discriminate]. Qed.

Lemma steady_raise (e : exception) : steady (@raise A e).
Proof. io_unfold. intros lines. split; [lia|discriminate]. Qed.

Lemma steady_exit : steady (@exit A).
Proof. io_unfold. intros lines. split; [lia|discriminate]. Qed.

Lemma steady_bind (m : io A) (k : A -> io B) :
  steady m -> (forall a, steady (k a)) -> steady (bind m k).
Proof.
  intros Hm Hk lines. specialize (Hm lines).
  run m lines; io_unfold.
  - destruct Hm as [H1 H2]. split; [exact H1|]. intros H. apply H2.
    now injection H as ->.
  - destruct (Hk a rest) as [H1 H2]. split; [lia|exact H2].
Qed.

Lemma steady_try (body : io A) (handler : exception -> option (io A)) :
  steady body -> (forall e h, handler e = Some h -> steady h) ->
  steady (try_except body handler).
Proof.
  intros Hb Hh lines. specialize (Hb lines). unfold try_except.
  destruct (body lines) as [[out rest] [[e| |]|a]]; try exact Hb.
  destruct (handler e) as [h|] eqn:E; [|exact Hb].
  specialize (Hh e h E rest). io_unfold.
  destruct (h rest) as [[out' rest'] r]. simpl in *.
  split; [lia|tauto].
Qed.

Lemma steady_input (prompt : string) : steady (input prompt).
Proof.
  intros [|line rest]; io_unfold; (split; [lia|discriminate]).
Qed.

Lemma eager_input (prompt : string) : eager (input prompt).
Proof.
  split; [apply steady_input|].
  intros [|line rest]; io_unfold; [now left|right; lia].
Qed.

Lemma eager_bind (m : io A) (k : A -> io B) :
  eager m -> (forall a, steady (k a)) -> eager (bind m k).
Proof.
  intros [Hs Hm] Hk. split; [now apply steady_bind|].
  intros lines. specialize (Hm lines).
  run m lines; io_unfold.
  - destruct Hm as [Hm|Hm]; [left; now injection Hm as ->|now right].
  - destruct Hm as [Hm|Hm]; [discriminate|].
    destruct (Hk a rest) as [H1 _]. io_unfold. right. lia.
Qed.

Lemma eager_try (body : io A) (handler : exception -> option (io A)) :
  eager body -> handler EOFError = None ->
  (forall e h, handler e = Some h -> steady h) ->
  eager (try_except body handler).
Proof.
  intros [Hs Hb] Hn Hh. split; [now apply steady_try|].
  intros lines. specialize (Hb lines). unfold try_except.
  destruct (body lines) as [[out rest] [[e| |]|a]]; try exact Hb.
  destruct (handler e) as [h|] eqn:E; [|exact Hb].
  destruct Hb as [Hb|Hb].
  - io_unfold. injection Hb as ->. congruence.
  - specialize (Hh e h E rest). io_unfold.
    destruct (h rest) as [[out' rest'] r]. simpl in *. right. lia.
Qed.

Lemma steady_within (fuel : nat) (m : io A) : steady m -> within fuel m.
Proof. intros H lines _. apply H. Qed.

Lemma within_bind (fuel : nat) (m : io A) (k : A -> io B) :
  steady m -> (forall a, within fuel (k a)) -> within fuel (bind m k).
Proof.
  intros Hm Hk lines Hf. specialize (Hm lines).
  run m lines; io_unfold.
  - destruct Hm as [H1 H2]. split; [exact H1|]. intros H. apply H2.
    now injection H as ->.
  - destruct (Hk a rest) as [H1 H2]; [lia|]. split; [lia|exact H2].
Qed.

(** A round of a loop: it reads a line before it goes on. *)
Lemma within_round (fuel : nat) (m : io A) (k : A -> io B) :
  eager m -> (forall a, within fuel (k a)) -> within (S fuel) (bind m k).
Proof.
  intros [Hs Hm] Hk lines Hf. specialize (Hm lines). specialize (Hs lines).
  run m lines; io_unfold.
  - destruct Hs as [H1 H2]. split; [exact H1|]. intros H. apply H2.
    now injection H as ->.
  - destruct Hm as [Hm|Hm]; [discriminate|].
    destruct (Hk a rest) as [H1 H2]; [lia|]. split; [lia|exact H2].
Qed.

Lemma quiet_ret (a : A) : quiet (ret a).
Proof. now io_unfold. Qed.

Lemma quiet_raise (e : exception) : quiet (@raise A e).
Proof. now io_unfold. Qed.

Lemma quiet_exit : quiet (@exit A).
Proof. now io_unfold. Qed.

Lemma quiet_bind (m : io A) (k : A -> io B) :
  quiet m -> (forall a, quiet (k a)) -> quiet (bind m k).
Proof.
  intros Hm Hk lines. specialize (Hm lines).
  run m lines; io_unfold.
  - exact Hm.
  - rewrite calls_app, Hm. apply Hk.
Qed.

Lemma quiet_try (body : io A) (handler : exception -> option (io A)) :
  quiet body -> (forall e h, handler e = Some h -> quiet h) ->
  quiet (try_except body handler).
Proof.
  intros Hb Hh lines. specialize (Hb lines). unfold try_except.
  destruct (body lines) as [[out rest] [[e| |]|a]]; try exact Hb.
  destruct (handler e) as [h|] eqn:E; [|exact Hb].
  specialize (Hh e h E rest). io_unfold.
  destruct (h rest) as [[out' rest'] r]. simpl in *.
  now rewrite calls_app, Hb, Hh.
Qed.


Lemma quiet_calling (P : call -> Prop) (m : io A) : quiet m -> calling P m.
Proof. intros H lines. rewrite H. constructor. Qed.

Lemma calling_bind (P : call -> Prop) (m : io A) (k : A -> io B) :
  calling P m -> (forall a, calling P (k a)) -> calling P (bind m k).
Proof.
  intros Hm Hk lines. specialize (Hm lines).
  run m lines; io_unfold.
  - exact Hm.
  - rewrite calls_app. apply Forall_app. split; [exact Hm|apply Hk].
Qed.

End Programs.

Lemma quiet_print (text : string) : quiet (print text).
Proof. now io_unfold. Qed.

Lemma steady_print (text : string) : steady (print text).
Proof. apply steady_emit. Qed.

Lemma quiet_input (prompt : string) : quiet (input prompt).
Proof. now intros [|line rest]. Qed.

Lemma steady_print_all (texts : list string) : steady (print_all texts).
Proof.
  induction texts as [|text rest IH]; simpl.
  - apply steady_ret.
  - apply steady_bind; [apply steady_print|intros _; exact IH].
Qed.

Lemma quiet_print_all (texts : list string) : quiet (print_all texts).
Proof.
  induction texts as [|text rest IH]; simpl.
  - apply quiet_ret.
  - apply quiet_bind; [apply quiet_print|intros _; exact IH].
Qed.

Lemma eager_read_int (env : Environment) (prompt : string) :
  eager (read_int env prompt).
Proof.
  apply eager_bind; [apply eager_input|].
  intros line. destruct (int env line); [apply steady_ret|apply steady_raise].
Qed.

Lemma quiet_read_int (env : Environment) (prompt : string) :
  quiet (read_int env prompt).
Proof.
  apply quiet_bind; [apply quiet_input|].
  intros line. destruct (int env line); [apply quiet_ret|apply quiet_raise].
Qed.

Lemma steady_visualize (env : Environment) (c : call) :
  steady (visualize env c).
Proof.
  destruct c as [d h|d x y|d x y|d l]; simpl.
  - destruct (visualize_individual_column env d h);
      try apply steady_emit; apply steady_raise.
  - destruct (visualize_boxplot env d x y); [apply steady_raise|apply steady_emit].
  - destruct (visualize_scatterplot (choices env) d x y);
      [apply steady_emit|apply steady_raise].
  - destruct (visualize_pie_chart d l); [apply steady_emit|apply steady_raise].
Qed.

(** A call that is made is the call that was asked for. *)
Lemma visualize_calls (env : Environment) (c : call) (lines : list string) :
  calls (effects_of (visualize env c lines)) = [c]
  \/ calls (effects_of (visualize env c lines)) = [].
Proof.
  destruct c as [d h|d x y|d x y|d l]; simpl.
  - destruct (visualize_individual_column env d h); (now left) || (now right).
  - destruct (visualize_boxplot env d x y); [now right|now left].
  - destruct (visualize_scatterplot (choices env) d x y); [now left|now right].
  - destruct (visualize_pie_chart d l); [now left|now right].
Qed.

(* ------------------------------------------------------------------ *)
(** ** The dialogue                                                    *)
(* ------------------------------------------------------------------ *)

Section Dialogue.
Variable env : Environment.

Lemma choose_type_handler (message : string) (ask_exit : bool)
    (data : DataFrame) (e : exception) (h : io DataFrame) :
  (if is_ValueError e then
     Some (print message ;;;
           if ask_exit then
             choice <- input "Enter 'exit' to quit or press any key to try again: " ;;
             if String.eqb (lower env choice) "exit" then exit else ret data
           else ret data)
   else None) = Some h ->
  steady h /\ quiet h
  /\ forall lines d, result_of (h lines) = inr d -> d = data.
Proof.
  destruct (is_ValueError e); [|discriminate]. intros [= <-].
  split; [|split].
  - apply steady_bind; [apply steady_print|]. intros _.
    destruct ask_exit; [|apply steady_ret].
    apply steady_bind; [apply steady_input|]. intros choice.
    destruct (String.eqb _ _); [apply steady_exit|apply steady_ret].
  - apply quiet_bind; [apply quiet_print|]. intros _.
    destruct ask_exit; [|apply quiet_ret].
    apply quiet_bind; [apply quiet_input|]. intros choice.
    destruct (String.eqb _ _); [apply quiet_exit|apply quiet_ret].
  - intros lines d. unfold bind, print, emit, input, exit, ret, result_of.
    destruct ask_exit; simpl; [|congruence].
    destruct lines as [|line rest]; simpl; [discriminate|].
    destruct (String.eqb _ _); simpl; [discriminate|congruence].
Qed.

Lemma eager_choose_type (prompt message : string) (ask_exit : bool)
    (data preprocessed_data : DataFrame) :
  eager (choose_type env prompt message ask_exit data preprocessed_data).
Proof.
  apply eager_try.
  - apply eager_bind; [apply eager_read_int|]. intros type.
    destruct (type =? 2)%Z; [apply steady_ret|].
    destruct (negb _); [apply steady_raise|apply steady_ret].
  - reflexivity.
  - intros e h E. now apply choose_type_handler in E.
Qed.

Lemma quiet_choose_type (prompt message : string) (ask_exit : bool)
    (data preprocessed_data : DataFrame) :
  quiet (choose_type env prompt message ask_exit data preprocessed_data).
Proof.
  apply quiet_try.
  - apply quiet_bind; [apply quiet_read_int|]. intros type.
    destruct (type =? 2)%Z; [apply quiet_ret|].
    destruct (negb _); [apply quiet_raise|apply quiet_ret].
  - intros e h E. now apply choose_type_handler in E.
Qed.


Lemma steady_list_columns (data : DataFrame) : steady (list_columns data).
Proof.
  apply steady_bind; [apply steady_print|intros _; apply steady_print_all].
Qed.

Lemma quiet_list_columns (data : DataFrame) : quiet (list_columns data).
Proof.
  apply quiet_bind; [apply quiet_print|intros _; apply quiet_print_all].
Qed.

Lemma steady_chart_one_column (chart : DataFrame -> string -> call)
    (data : DataFrame) :
  steady (chart_one_column env chart data).
Proof.
  apply steady_bind; [apply steady_list_columns|]. intros _.
  apply steady_bind; [apply eager_read_int|]. intros z.
  destruct (in_range data z); [apply steady_visualize|apply steady_print].
Qed.

Lemma steady_chart_two_columns (chart : DataFrame -> string -> string -> call)
    (data : DataFrame) :
  steady (chart_two_columns env chart data).
Proof.
  apply steady_bind; [apply steady_list_columns|]. intros _.
  apply steady_bind; [apply eager_read_int|]. intros x.
  apply steady_bind; [apply eager_read_int|]. intros y.
  destruct (_ && _); [apply steady_visualize|apply steady_print].
Qed.

(** What a round charts is the one call that was asked for, or nothing. *)
Lemma calling_visualize (P : call -> Prop) (c : call) :
  P c -> calling P (visualize env c).
Proof.
  intros H lines. destruct (visualize_calls env c lines) as [-> | ->];
    now repeat constructor.
Qed.


Lemma calling_chart_two_columns (P : call -> Prop)
    (chart : DataFrame -> string -> string -> call) (data : DataFrame) :
  (forall x y, P (chart data x y)) ->
  calling P (chart_two_columns env chart data).
Proof.
  intros H.
  apply calling_bind; [apply quiet_calling, quiet_list_columns|]. intros _.
  apply calling_bind; [apply quiet_calling, quiet_read_int|]. intros x.
  apply calling_bind; [apply quiet_calling, quiet_read_int|]. intros y.
  destruct (_ && _);
    [now apply calling_visualize|apply quiet_calling, quiet_print].
Qed.

Lemma box_loop_within (fuel : nat) (data preprocessed_data : DataFrame) :
  within fuel (box_loop env fuel data preprocessed_data).
Proof.
  revert data. induction fuel as [|fuel IH]; intros data.
  - intros lines Hf. inversion Hf.
  - simpl. apply within_round; [apply eager_choose_type|]. intros d.
    apply within_bind; [apply steady_chart_two_columns|]. intros _. apply IH.
Qed.

Lemma menu_loop_within (fuel : nat) (data preprocessed_data : DataFrame) :
  within fuel (menu_loop env fuel data preprocessed_data).
Proof.
  revert data. induction fuel as [|fuel IH]; intros data.
  - intros lines Hf. inversion Hf.
  - simpl. apply within_bind; [apply steady_print_all|]. intros _.
    apply within_round; [apply eager_read_int|]. intros choice.
    destruct (choice =? 5)%Z; [apply steady_within, steady_ret|].
    destruct (choice =? 1)%Z.
    { apply within_bind; [apply eager_choose_type|]. intros d.
      apply within_bind; [apply steady_chart_one_column|]. intros _.
      apply IH. }
    destruct (choice =? 2)%Z; [apply box_loop_within|].
    destruct (choice =? 3)%Z.
    { apply within_bind; [apply eager_choose_type|]. intros d.
      apply within_bind; [apply steady_chart_two_columns|]. intros _.
      apply IH. }
    destruct (choice =? 4)%Z.
    { apply within_bind; [apply eager_choose_type|]. intros d.
      apply within_bind; [apply steady_chart_one_column|]. intros _.
      apply IH. }
    apply within_bind; [apply steady_print|]. intros _. apply IH.
Qed.

(** The loop of entry 2 has no way out but [exit()] and an exception. *)
Lemma box_loop_no_value (fuel : nat) (data preprocessed_data : DataFrame)
    (lines : list string) (u : unit) :
  result_of (box_loop env fuel data preprocessed_data lines) <> inr u.
Proof.
  revert data lines. induction fuel as [|fuel IH]; intros data lines.
  - discriminate.
  - simpl.
    run (choose_type env comparison_prompt invalid_input true data
           preprocessed_data) lines; [discriminate|].
    unfold result_of at 1. simpl.
    run (chart_two_columns env call_boxplot a) rest; [discriminate|].
    unfold result_of at 1. simpl. apply IH.
Qed.

Lemma box_loop_calling (fuel : nat) (data preprocessed_data : DataFrame) :
  calling is_boxplot_call (box_loop env fuel data preprocessed_data).
Proof.
  revert data. induction fuel as [|fuel IH]; intros data.
  - intros lines. constructor.
  - simpl. apply calling_bind; [apply quiet_calling, quiet_choose_type|].
    intros d. apply calling_bind; [|intros _; apply IH].
    apply calling_chart_two_columns. intros x y. exact I.
Qed.








End Dialogue.

Lemma load_data_reads_nothing (env : Environment) (path : string)
    (lines : list string) :
  exists out r,
    load_data env path lines = (out, lines, inr r) /\ calls out = [].
Proof.
  unfold load_data, read_data_from_db, try_except, bind, attempted.
  destruct (String.eqb _ _).
  { destruct (read_csv env path) as [e|d]; simpl;
      [destruct e; simpl|]; eexists; eexists; split; reflexivity. }
  destruct (existsb _ _).
  { destruct (read_excel env path) as [e|d]; simpl;
      [destruct e; simpl|]; eexists; eexists; split; reflexivity. }
  destruct (existsb _ _);
    [|simpl; eexists; eexists; split; reflexivity].
  destruct (connect env path) as [e|[]]; simpl;
    [destruct e; simpl; eexists; eexists; split; reflexivity|].
  destruct (first_table_name env path) as [e|[t|]]; simpl;
    [destruct e; simpl; eexists; eexists; split; reflexivity| |
     eexists; eexists; split; reflexivity].
  destruct (read_sql_query env path _) as [e|d]; simpl;
    [destruct e; simpl|]; eexists; eexists; split; reflexivity.
Qed.

(* ------------------------------------------------------------------ *)
(** ** [main]                                                          *)
(* ------------------------------------------------------------------ *)

(** [main] returns, or stops at an [exit()]: on every finite input the
    two loops come to an end, and no exception leaves [main], whose
    handler takes every one of them. *)
Theorem main_returns_or_exits (env : Environment) (lines : list string) :
  result_of (main env lines) = inr tt
  \/ result_of (main env lines) = inl Exited.
Proof.
  unfold main, try_except, bind, input, print, emit, raise, result_of.
  destruct lines as [|path rest]; cbn -[menu_loop]; [now left|].
  destruct (load_data_reads_nothing env path rest) as (out & r & E & _).
  rewrite E. cbn -[menu_loop].
  destruct r as [raw|]; cbn -[menu_loop]; [|now left].
  destruct (preprocess_data (np_sum env) raw) as [data [pre|e]]; cbn -[menu_loop];
    [|now left].
  destruct (@menu_loop_within env (S (length rest)) data pre rest) as [_ H];
    [lia|].
  unfold result_of in H.
  destruct (menu_loop env (S (length rest)) data pre rest)
    as [[out' rest'] [[e| |]|[]]]; cbn in *;
    [now left|now right|now destruct H|now left].
Qed.


(* ------------------------------------------------------------------ *)
(** ** [exit()]                                                        *)
(* ------------------------------------------------------------------ *)

Section Exit.
Variable env : Environment.
Variables A B : Type.

Lemma asked_value (a : A) : exits_when_asked env (ret a).
Proof. intros lines. split; [apply incl_refl|discriminate]. Qed.

Lemma asked_raise (e : exception) : exits_when_asked env (@raise A e).
Proof. intros lines. split; [apply incl_refl|discriminate]. Qed.

Lemma asked_bind (m : io A) (k : A -> io B) :
  exits_when_asked env m -> (forall a, exits_when_asked env (k a)) ->
  exits_when_asked env (bind m k).
Proof.
  intros Hm Hk lines. specialize (Hm lines).
  run m lines; io_unfold.
  - destruct Hm as [H1 H2]. split; [exact H1|]. intros H. apply H2.
    now injection H as ->.
  - destruct Hm as [H1 _]. destruct (Hk a rest) as [H3 H4].
    split; [eapply incl_tran; eassumption|].
    intros H. destruct (H4 H) as (line & Hl & El).
    exists line. split; [now apply H1|exact El].
Qed.

Lemma asked_try (body : io A) (handler : exception -> option (io A)) :
  exits_when_asked env body ->
  (forall e h, handler e = Some h -> exits_when_asked env h) ->
  exits_when_asked env (try_except body handler).
Proof.
  intros Hb Hh lines. specialize (Hb lines). unfold try_except.
  destruct (body lines) as [[out rest] [[e| |]|a]]; try exact Hb.
  destruct (handler e) as [h|] eqn:E; [|exact Hb].
  specialize (Hh e h E rest). io_unfold.
  destruct (h rest) as [[out' rest'] r]. simpl in *.
  destruct Hb as [H1 _]. destruct Hh as [H3 H4].
  split; [eapply incl_tran; eassumption|].
  intros H. destruct (H4 H) as (line & Hl & E').
  exists line. split; [now apply H1|exact E'].
Qed.

End Exit.

Section ExitDialogue.
Variable env : Environment.

Lemma asked_emit (e : effect) : exits_when_asked env (emit e).
Proof. intros lines. split; [apply incl_refl|discriminate]. Qed.

Lemma asked_input (prompt : string) : exits_when_asked env (input prompt).
Proof.
  intros [|line rest]; io_unfold; (split; [|discriminate]).
  - apply incl_refl.
  - apply incl_tl, incl_refl.
Qed.

Lemma asked_print_all (texts : list string) :
  exits_when_asked env (print_all texts).
Proof.
  induction texts as [|text rest IH]; simpl.
  - apply asked_value.
  - apply asked_bind; [apply asked_emit|intros _; exact IH].
Qed.

Lemma asked_read_int (prompt : string) :
  exits_when_asked env (read_int env prompt).
Proof.
  apply asked_bind; [apply asked_input|].
  intros line. destruct (int env line); [apply asked_value|apply asked_raise].
Qed.

Lemma asked_visualize (c : call) : exits_when_asked env (visualize env c).
Proof.
  destruct c as [d h|d x y|d x y|d l]; simpl.
  - destruct (visualize_individual_column env d h);
      try apply asked_emit; apply asked_raise.
  - destruct (visualize_boxplot env d x y); [apply asked_raise|apply asked_emit].
  - destruct (visualize_scatterplot (choices env) d x y);
      [apply asked_emit|apply asked_raise].
  - destruct (visualize_pie_chart d l); [apply asked_emit|apply asked_raise].
Qed.

(** The one [exit()] of the program, in the handler of entries 1, 2 and
    4: it follows the answer 'exit'. *)
Lemma asked_exit (data : DataFrame) :
  exits_when_asked env
    (choice <- input "Enter 'exit' to quit or press any key to try again: " ;;
     if String.eqb (lower env choice) "exit" then exit else ret data).
Proof.
  intros [|line rest]; unfold bind, input, exit, ret, lines_left, result_of;
    simpl.
  - split; [apply incl_refl|discriminate].
  - destruct (String.eqb_spec (lower env line) "exit") as [E|E]; simpl.
    + split; [apply incl_tl, incl_refl|]. intros _. exists line.
      split; [now left|exact E].
    + split; [apply incl_tl, incl_refl|discriminate].
Qed.

Lemma asked_choose_type (prompt message : string) (ask_exit : bool)
    (data preprocessed_data : DataFrame) :
  exits_when_asked env
    (choose_type env prompt message ask_exit data preprocessed_data).
Proof.
  apply asked_try.
  - apply asked_bind; [apply asked_read_int|]. intros type.
    destruct (type =? 2)%Z; [apply asked_value|].
    destruct (negb _); [apply asked_raise|apply asked_value].
  - intros e h. destruct (is_ValueError e); [|discriminate]. intros [= <-].
    apply asked_bind; [apply asked_emit|]. intros _.
    destruct ask_exit; [apply asked_exit|apply asked_value].
Qed.

Lemma asked_list_columns (data : DataFrame) :
  exits_when_asked env (list_columns data).
Proof.
  apply asked_bind; [apply asked_emit|intros _; apply asked_print_all].
Qed.

Lemma asked_chart_one_column (chart : DataFrame -> string -> call)
    (data : DataFrame) :
  exits_when_asked env (chart_one_column env chart data).
Proof.
  apply asked_bind; [apply asked_list_columns|]. intros _.
  apply asked_bind; [apply asked_read_int|]. intros z.
  destruct (in_range data z); [apply asked_visualize|apply asked_emit].
Qed.

Lemma asked_chart_two_columns (chart : DataFrame -> string -> string -> call)
    (data : DataFrame) :
  exits_when_asked env (chart_two_columns env chart data).
Proof.
  apply asked_bind; [apply asked_list_columns|]. intros _.
  apply asked_bind; [apply asked_read_int|]. intros x.
  apply asked_bind; [apply asked_read_int|]. intros y.
  destruct (_ && _); [apply asked_visualize|apply asked_emit].
Qed.

Lemma asked_box_loop (fuel : nat) (data preprocessed_data : DataFrame) :
  exits_when_asked env (box_loop env fuel data preprocessed_data).
Proof.
  revert data. induction fuel as [|fuel IH]; intros data.
  - intros lines. split; [apply incl_refl|discriminate].
  - simpl. apply asked_bind; [apply asked_choose_type|]. intros d.
    apply asked_bind; [apply asked_chart_two_columns|]. intros _. apply IH.
Qed.

Lemma asked_menu_loop (fuel : nat) (data preprocessed_data : DataFrame) :
  exits_when_asked env (menu_loop env fuel data preprocessed_data).
Proof.
  revert data. induction fuel as [|fuel IH]; intros data.
  - intros lines. split; [apply incl_refl|discriminate].
  - simpl. apply asked_bind; [apply asked_print_all|]. intros _.
    apply asked_bind; [apply asked_read_int|]. intros choice.
    destruct (choice =? 5)%Z; [apply asked_value|].
    destruct (choice =? 1)%Z.
    { apply asked_bind; [apply asked_choose_type|]. intros d.
      apply asked_bind; [apply asked_chart_one_column|]. intros _.
      apply IH. }
    destruct (choice =? 2)%Z; [apply asked_box_loop|].
    destruct (choice =? 3)%Z.
    { apply asked_bind; [apply asked_choose_type|]. intros d.
      apply asked_bind; [apply asked_chart_two_columns|]. intros _.
      apply IH. }
    destruct (choice =? 4)%Z.
    { apply asked_bind; [apply asked_choose_type|]. intros d.
      apply asked_bind; [apply asked_chart_one_column|]. intros _.
      apply IH. }
    apply asked_bind; [apply asked_emit|]. intros _. apply IH.
Qed.

End ExitDialogue.

(** [main] stops at an [exit()] only when the user has typed 'exit', in
    whatever case, after the path of the file. *)
Theorem main_exits_only_when_asked (env : Environment) (lines : list string) :
  result_of (main env lines) = inl Exited ->
  exists path rest line,
    lines = path :: rest /\ In line rest /\ lower env line = "exit"%string.
Proof.
  unfold main, try_except, bind, input, print, emit, raise, result_of.
  destruct lines as [|path rest]; cbn -[menu_loop]; [discriminate|].
  destruct (load_data_reads_nothing env path rest) as (out & r & E & _).
  rewrite E. cbn -[menu_loop].
  destruct r as [raw|]; cbn -[menu_loop]; [|discriminate].
  destruct (preprocess_data (np_sum env) raw) as [data [pre|e]]; cbn -[menu_loop];
    [|discriminate].
  destruct (@asked_menu_loop env (S (length rest)) data pre rest) as [_ H].
  unfold result_of in H.
  destruct (menu_loop env (S (length rest)) data pre rest)
    as [[out' rest'] [[e| |]|[]]]; cbn in *; try discriminate.
  intros _. destruct (H eq_refl) as (line & Hl & El).
  now exists path, rest, line.
Qed.

Lemma main_exits_only_when_asked_witness :
  result_of (main example_env ["ages.csv"; "1"; "7"; "exit"]%string)
  = inl Exited
  /\ exists path rest line,
       ["ages.csv"; "1"; "7"; "exit"]%string = path :: rest
       /\ In line rest /\ lower example_env line = "exit"%string.
Proof.
  assert (H : result_of (main example_env ["ages.csv"; "1"; "7"; "exit"]%string)
              = inl Exited) by reflexivity.
  split; [exact H|].
  exact (main_exits_only_when_asked example_env
           ["ages.csv"; "1"; "7"; "exit"]%string H).
Defined.

(* ------------------------------------------------------------------ *)
(** ** The loop of the box plots                                       *)
(* ------------------------------------------------------------------ *)

(** The loop of entry 2 has no way out: once the box plot is chosen, the
    program ends at an [exit()] or with an exception, at the latest at the
    end of the input, and every chart that is still made is a box plot. *)
Theorem box_loop_has_no_way_out (env : Environment) (fuel : nat)
    (data preprocessed_data : DataFrame) (lines : list string) :
  length lines < fuel ->
  ((exists e, result_of (box_loop env fuel data preprocessed_data lines)
              = inl (Raised e))
   \/ result_of (box_loop env fuel data preprocessed_data lines) = inl Exited)
  /\ Forall is_boxplot_call
       (calls (effects_of (box_loop env fuel data preprocessed_data lines))).
Proof.
  intros Hf. split; [|apply box_loop_calling].
  destruct (@box_loop_within env fuel data preprocessed_data lines Hf)
    as [_ H].
  pose proof (@box_loop_no_value env fuel data preprocessed_data lines) as Hv.
  destruct (result_of _) as [[e| |]|u].
  - left. now exists e.
  - now right.
  - now destruct H.
  - now destruct (Hv u).
Qed.

Lemma box_loop_has_no_way_out_witness :
  length ["1"; "1"; "0"]%string < 4
  /\ ((exists e, result_of (box_loop example_env 4 ages ages
                              ["1"; "1"; "0"]%string) = inl (Raised e))
      \/ result_of (box_loop example_env 4 ages ages ["1"; "1"; "0"]%string)
         = inl Exited)
  /\ Forall is_boxplot_call
       (calls (effects_of (box_loop example_env 4 ages ages
                             ["1"; "1"; "0"]%string))).
Proof.
  assert (H : length ["1"; "1"; "0"]%string < 4) by (simpl; lia).
  split; [exact H|].
  exact (@box_loop_has_no_way_out example_env 4 ages ages
           ["1"; "1"; "0"]%string H).
Defined.

